(** * gostat: display and set file time stamps

    A shallow embedding of [gostat.go] and the properties of its
    path resolver, timestamp reader, codec, writer and reporter.

    Conventions.
    - Go [int], [int64] and [uint64] values are [Z]; where the source relies
      on a fixed width the wrap-around is written out ([wrap64], [wrapU64]).
    - Go strings are byte strings: [string] of the standard library.  A
      [[]byte] that is written by index is a [list ascii] updated with
      stdpp's list insert, guarded by the bounds check Go performs.
    - [map[string]time.Time] is [gmap string Time].
    - The operating system (glob expansion, stat, chtimes) is an interface,
      [OS], so that every function can be run on a concrete file table. *)

From Stdlib Require Import ZArith Lia Ascii String List Bool.
From stdpp Require Import gmap strings list fin_maps.

Local Open Scope Z_scope.

(** ** Results of code that may panic or loop *)

Inductive result (A : Type) : Type :=
| Ok (a : A)
| Panic
| OutOfFuel.
Arguments Ok {A} a.
Arguments Panic {A}.
Arguments OutOfFuel {A}.

#[global] Instance result_ret : MRet result := fun A a => Ok a.
#[global] Instance result_bind : MBind result := fun A B f r =>
  match r with
  | Ok a => f a
  | Panic => Panic
  | OutOfFuel => OutOfFuel
  end.

Definition ofOption {A} (o : option A) : result A :=
  match o with Some a => Ok a | None => Panic end.

(** ** Byte strings and byte slices *)

Definition len (s : string) : Z := Z.of_nat (String.length s).

(** [s[i]]: panics when the index is out of range. *)
Definition index (s : string) (i : Z) : option ascii :=
  if i <? 0 then None else String.get (Z.to_nat i) s.

(** [s[i:]] *)
Definition sliceFrom (s : string) (i : Z) : string :=
  String.substring (Z.to_nat i) (String.length s - Z.to_nat i) s.

(** [make([]byte, n)] *)
Definition makeBytes (n : Z) : list ascii := replicate (Z.to_nat n) zero.

(** [out[j] = c] on a byte slice: panics when the index is out of range. *)
Definition store (out : list ascii) (j : Z) (c : ascii) : option (list ascii) :=
  if (0 <=? j) && (j <? Z.of_nat (length out))
  then Some (<[Z.to_nat j := c]> out)
  else None.

Definition digitByte (d : Z) : ascii := ascii_of_nat (48 + Z.to_nat d).

Definition isDigitByte (c : ascii) : bool :=
  (48 <=? nat_of_ascii c)%nat && (nat_of_ascii c <=? 57)%nat.

Definition digitVal (c : ascii) : Z := Z.of_nat (nat_of_ascii c) - 48.

(** Go's [int64]: an integer together with its range. *)
Definition inInt64 (z : Z) : bool := (- 2 ^ 63 <=? z) && (z <? 2 ^ 63).

Record int64 : Type := mkInt64 {
  int64_val :> Z;
  int64_ok : Is_true (inInt64 int64_val)
}.

(** ** strconv.FormatInt(n, 10) *)

Module strconv.

(** The loop of [formatBits] in base 10: the digits of [u] are produced
    from the least significant one and stored in front of [acc].  (The
    library takes two digits per iteration from a table; the bytes are the
    same.)  The buffer of the library holds 65 bytes; 20 iterations cover
    every uint64. *)
Fixpoint formatBits (fuel : nat) (u : Z) (acc : list ascii) : list ascii :=
  match fuel with
  | O => acc
  | S fuel' =>
      if 10 <=? u
      then formatBits fuel' (u / 10) (digitByte (u - (u / 10) * 10) :: acc)
      else digitByte u :: acc
  end.

Definition digits (u : Z) : list ascii := formatBits 20 u [].

Definition FormatInt (n : Z) : string :=
  if n <? 0
  then String "-" (string_of_list_ascii (digits (- n)))
  else string_of_list_ascii (digits n).

End strconv.

(** ** FormatWithCommas *)

(** The [for] loop of [FormatWithCommas].  [i] walks the input from its last
    byte, [j] the output, [k] counts the digits written since the last
    comma. *)
Fixpoint commaLoop (fuel : nat) (inp : string) (i j k : Z) (out : list ascii)
  : result string :=
  match fuel with
  | O => OutOfFuel
  | S fuel' =>
      c ← ofOption (index inp i);
      out ← ofOption (store out j c);
      if i =? 0 then Ok (string_of_list_ascii out)
      else
        let k := k + 1 in
        if k =? 3 then
          let j := j - 1 in
          let k := 0 in
          out ← ofOption (store out j ","%char);
          commaLoop fuel' inp (i - 1) (j - 1) k out
        else
          commaLoop fuel' inp (i - 1) (j - 1) k out
  end.

Definition FormatWithCommas (n : int64) : result string :=
  let inp := strconv.FormatInt n in
  let numOfDigits := len inp in
  let numOfDigits := if n <? 0 then numOfDigits - 1 else numOfDigits in
  let numOfCommas := Z.quot (numOfDigits - 1) 3 in
  let out := makeBytes (len inp + numOfCommas) in
  inout ← (if n <? 0
            then out' ← ofOption (store out 0 "-"%char); Ok (sliceFrom inp 1, out')
            else Ok (inp, out));
  let '(inp, out) := inout in
  commaLoop (S (Z.to_nat (len inp))) inp (len inp - 1) (Z.of_nat (length out) - 1) 0 out.


(** ** Fixed-width integers *)

Definition wrapU64 (z : Z) : Z := z mod 2 ^ 64.
Definition wrap64 (z : Z) : Z := (z + 2 ^ 63) mod 2 ^ 64 - 2 ^ 63.

(** ** Package time

    [createDate] is one call of [time.ParseInLocation] with the constant
    layout [20060102.150405]; the part of package time that this call runs
    is embedded here: the chunks of the layout, the field parsers, the
    validation of the day, [Date], and the accessors [Year] ... [Second]
    used to read an instant back. *)

Module time.

Definition secondsPerMinute : Z := 60.
Definition secondsPerHour : Z := 60 * secondsPerMinute.
Definition secondsPerDay : Z := 24 * secondsPerHour.
Definition daysPer400Years : Z := 365 * 400 + 97.
Definition daysPer100Years : Z := 365 * 100 + 24.
Definition daysPer4Years : Z := 365 * 4 + 1.

Definition absoluteZeroYear : Z := -292277022399.
Definition internalYear : Z := 1.
(** [(absoluteZeroYear - internalYear) * 365.2425 * secondsPerDay] *)
Definition absoluteToInternal : Z :=
  (absoluteZeroYear - internalYear) * 3652425 * secondsPerDay / 10000.
Definition internalToAbsolute : Z := - absoluteToInternal.
Definition unixToInternal : Z :=
  (1969 * 365 + 1969 / 4 - 1969 / 100 + 1969 / 400) * secondsPerDay.
Definition internalToUnix : Z := - unixToInternal.

(** *** Locations

    A location is the list of its zone transitions: the offset (seconds
    east of UTC) in force before the first transition, and for every
    transition the instant it happens at (Unix seconds) and the offset in
    force from then on, in ascending order of instants.  The names of the
    zones, the cache of the last lookup and the rule that extends the table
    beyond its last transition play no part here and are left out. *)
Record Location : Type := mkLocation {
  zone0 : Z;
  tx : list (Z * Z)
}.

Definition UTC : Location := mkLocation 0 [].

Definition alpha : Z := - 2 ^ 63.
Definition omega : Z := 2 ^ 63 - 1.

(** [l.lookup(sec)]: the transition in force at [sec], the last one with
    [when <= sec] (the library finds it by binary search).  Returns the
    offset and the interval [start, end) it is valid for. *)
Fixpoint lookupFrom (offset start : Z) (trans : list (Z * Z)) (sec : Z)
  : Z * Z * Z :=
  match trans with
  | [] => (offset, start, omega)
  | (when, offset') :: rest =>
      if sec <? when then (offset, start, when)
      else lookupFrom offset' when rest sec
  end.

Definition lookup (l : Location) (sec : Z) : Z * Z * Z :=
  lookupFrom (zone0 l) alpha (tx l) sec.

(** *** Instants *)
Record Time : Type := mkTime {
  unixSec : Z;
  nsec : Z;
  loc : Location
}.

(** The zero value of [time.Time]: January 1, year 1, 00:00:00 UTC. *)
Definition zeroTime : Time := mkTime (- unixToInternal) 0 UTC.

(** [t.IsZero()]: the instant is the zero value of [time.Time], whatever
    the location. *)
Definition IsZero (t : Time) : bool :=
  (unixSec t + unixToInternal =? 0) && (nsec t =? 0).

Definition daysBefore : list Z :=
  [0; 31; 31 + 28; 31 + 28 + 31; 31 + 28 + 31 + 30; 31 + 28 + 31 + 30 + 31;
   31 + 28 + 31 + 30 + 31 + 30; 31 + 28 + 31 + 30 + 31 + 30 + 31;
   31 + 28 + 31 + 30 + 31 + 30 + 31 + 31;
   31 + 28 + 31 + 30 + 31 + 30 + 31 + 31 + 30;
   31 + 28 + 31 + 30 + 31 + 30 + 31 + 31 + 30 + 31;
   31 + 28 + 31 + 30 + 31 + 30 + 31 + 31 + 30 + 31 + 30;
   31 + 28 + 31 + 30 + 31 + 30 + 31 + 31 + 30 + 31 + 30 + 31].

Definition daysBeforeAt (m : Z) : Z := nth (Z.to_nat m) daysBefore 0.

Definition isLeap (year : Z) : bool :=
  (Z.rem year 4 =? 0) && (negb (Z.rem year 100 =? 0) || (Z.rem year 400 =? 0)).

Definition daysIn (m year : Z) : Z :=
  if (m =? 2) && isLeap year then 29
  else daysBeforeAt m - daysBeforeAt (m - 1).

(** [norm hi lo base]: carry [lo] into [hi] so that [0 <= lo < base]. *)
Definition norm (hi lo base : Z) : Z * Z :=
  let '(hi, lo) :=
    if lo <? 0 then
      let n := Z.quot (- lo - 1) base + 1 in (hi - n, lo + n * base)
    else (hi, lo) in
  if base <=? lo then
    let n := Z.quot lo base in (hi + n, lo - n * base)
  else (hi, lo).

(** [daysSinceEpoch], [Date] and [absDate] as package time has them up to
    Go 1.22; later versions compute the same days with other formulas. *)
Definition daysSinceEpoch (year : Z) : Z :=
  let y := wrapU64 (year - absoluteZeroYear) in
  let n := y / 400 in
  let y := y - 400 * n in
  let d := daysPer400Years * n in
  let n := y / 100 in
  let y := y - 100 * n in
  let d := d + daysPer100Years * n in
  let n := y / 4 in
  let y := y - 4 * n in
  let d := d + daysPer4Years * n in
  let n := y in
  d + 365 * n.

Definition Date (year month day hour min sec nsec : Z) (l : Location) : Time :=
  let m := month - 1 in
  let '(year, m) := norm year m 12 in
  let month := m + 1 in
  let '(sec, nsec) := norm sec nsec 1000000000 in
  let '(min, sec) := norm min sec 60 in
  let '(hour, min) := norm hour min 60 in
  let '(day, hour) := norm day hour 24 in
  let d := daysSinceEpoch year in
  let d := wrapU64 (d + daysBeforeAt (month - 1)) in
  let d := if isLeap year && (3 <=? month) then wrapU64 (d + 1) else d in
  let d := wrapU64 (d + wrapU64 (day - 1)) in
  let abs := wrapU64 (d * secondsPerDay) in
  let abs := wrapU64 (abs + wrapU64 (hour * secondsPerHour + min * secondsPerMinute + sec)) in
  let unix := wrap64 (wrap64 abs + (absoluteToInternal + internalToUnix)) in
  let '(offset, start, end_) := lookup l unix in
  let unix :=
    if offset =? 0 then unix
    else
      let utc := unix - offset in
      let offset :=
        if (utc <? start) || (end_ <=? utc)
        then fst (fst (lookup l utc))
        else offset in
      unix - offset in
  mkTime unix nsec l.

(** [t.abs()]: seconds since the absolute epoch, on the wall clock of
    the location of [t]. *)
Definition abs (t : Time) : Z :=
  let sec := unixSec t in
  let sec := sec + fst (fst (lookup (loc t) sec)) in
  wrapU64 (sec + (unixToInternal + internalToAbsolute)).

(** [absDate abs true]: year, month, day and day of the year. *)
Definition absDate (abs : Z) : Z * Z * Z * Z :=
  let d := abs / secondsPerDay in
  let n := d / daysPer400Years in
  let y := 400 * n in
  let d := d - daysPer400Years * n in
  let n := d / daysPer100Years in
  let n := n - Z.shiftr n 2 in
  let y := y + 100 * n in
  let d := d - daysPer100Years * n in
  let n := d / daysPer4Years in
  let y := y + 4 * n in
  let d := d - daysPer4Years * n in
  let n := d / 365 in
  let n := n - Z.shiftr n 2 in
  let y := y + n in
  let d := d - 365 * n in
  let year := wrap64 (wrap64 y + absoluteZeroYear) in
  let yday := d in
  let day := yday in
  if isLeap year && (day =? 31 + 29 - 1) then (year, 2, 29, yday)
  else
    let day := if isLeap year && (31 + 29 - 1 <? day) then day - 1 else day in
    let month := Z.quot day 31 in
    let end_ := daysBeforeAt (month + 1) in
    let '(month, begin) :=
      if end_ <=? day then (month + 1, end_) else (month, daysBeforeAt month) in
    let month := month + 1 in
    let day := day - begin + 1 in
    (year, month, day, yday).

Definition Year (t : Time) : Z := let '(y, _, _, _) := absDate (abs t) in y.
Definition Month (t : Time) : Z := let '(_, m, _, _) := absDate (abs t) in m.
Definition Day (t : Time) : Z := let '(_, _, d, _) := absDate (abs t) in d.
Definition Hour (t : Time) : Z := Z.quot (abs t mod secondsPerDay) secondsPerHour.
Definition Minute (t : Time) : Z := Z.quot (abs t mod secondsPerHour) secondsPerMinute.
Definition Second (t : Time) : Z := abs t mod secondsPerMinute.

(** *** Parsing with the layout [20060102.150405] *)

Inductive ParseError : Type :=
| errBad                      (* the value does not follow the layout *)
| errRange (what : string)    (* a field is out of range *)
| errExtraText                (* bytes are left after the last field *)
| errDayOutOfRange.           (* the day does not exist in the month *)

Inductive parseResult (A : Type) : Type :=
| Parsed (a : A)
| Failed (e : ParseError).
Arguments Parsed {A} a.
Arguments Failed {A} e.

#[global] Instance parseResult_bind : MBind parseResult := fun A B f r =>
  match r with
  | Parsed a => f a
  | Failed e => Failed e
  end.

Definition isDigit (s : string) (i : nat) : bool :=
  match String.get i s with
  | Some c => isDigitByte c
  | None => false
  end.

Definition byteAt (s : string) (i : nat) : ascii :=
  match String.get i s with Some c => c | None => zero end.

Definition dropBytes (n : nat) (s : string) : string :=
  String.substring n (String.length s - n) s.

(** [getnum s fixed]: a number of one or two digits; with [fixed], of
    exactly two. *)
Definition getnum (s : string) (fixed : bool) : option (Z * string) :=
  if negb (isDigit s 0) then None
  else if negb (isDigit s 1) then
    if fixed then None
    else Some (digitVal (byteAt s 0), dropBytes 1 s)
  else Some (digitVal (byteAt s 0) * 10 + digitVal (byteAt s 1), dropBytes 2 s).

(** [leadingInt]: the digits in front of [s], as a number, and the rest. *)
Fixpoint leadingInt (s : string) (x : Z) : option (Z * string) :=
  match s with
  | EmptyString => Some (x, s)
  | String c s' =>
      if isDigitByte c then
        if 2 ^ 63 / 10 <? x then None
        else
          let x := wrapU64 (x * 10 + digitVal c) in
          if 2 ^ 63 <? x then None else leadingInt s' x
      else Some (x, s)
  end.

Definition atoi (s : string) : option Z :=
  let '(neg, s) :=
    match s with
    | String "-" s' => (true, s')
    | String "+" s' => (false, s')
    | _ => (false, s)
    end in
  match leadingInt s 0 with
  | Some (q, EmptyString) => Some (if neg : bool then - wrap64 q else wrap64 q)
  | _ => None
  end.

(** [skip value prefix]: [value] without the literal text [prefix].  No
    prefix of this layout holds a space, so the arm of the source that
    skips runs of spaces is never taken and is left out. *)
Fixpoint skip (value prefix : string) {struct prefix} : option string :=
  match prefix with
  | EmptyString => Some value
  | String p prefix' =>
      match value with
      | String v value' => if Ascii.eqb v p then skip value' prefix' else None
      | EmptyString => None
      end
  end.

(** Since Go 1.17 a comma is accepted where a period is. *)
Definition commaOrPeriod (c : ascii) : bool :=
  Ascii.eqb c "." || Ascii.eqb c ",".

(** The number of digit bytes in front of [s]. *)
Fixpoint countDigits (s : string) : nat :=
  match s with
  | String c s' => if isDigitByte c then S (countDigits s') else O
  | EmptyString => O
  end.

Definition parseNanoseconds (value : string) (nbytes : nat) : parseResult Z :=
  if negb (commaOrPeriod (byteAt value 0)) then Failed errBad
  else
    let '(value, nbytes) :=
      if (10 <? nbytes)%nat then (String.substring 0 10 value, 10%nat)
      else (value, nbytes) in
    match atoi (String.substring 1 (nbytes - 1) value) with
    | None => Failed errBad
    | Some ns =>
        if ns <? 0 then Failed (errRange "fractional second")
        else Parsed (ns * 10 ^ Z.of_nat (10 - nbytes))
    end.

(** The chunks [nextStdChunk] cuts the layout into: the literal text
    before each field, and the field. *)
Inductive std : Type :=
| stdLongYear | stdZeroMonth | stdZeroDay
| stdHour | stdZeroMinute | stdZeroSecond.

Definition layoutChunks : list (string * std) :=
  [ (EmptyString, stdLongYear); (EmptyString, stdZeroMonth);
    (EmptyString, stdZeroDay); ("."%string, stdHour);
    (EmptyString, stdZeroMinute); (EmptyString, stdZeroSecond) ].

Record fields : Type := mkFields {
  f_year : Z; f_month : Z; f_day : Z;
  f_hour : Z; f_min : Z; f_sec : Z; f_nsec : Z
}.

Definition ofGetnum (o : option (Z * string)) : parseResult (Z * string) :=
  match o with Some r => Parsed r | None => Failed errBad end.

(** One arm of the [switch std & stdMask] of [parse]. *)
Definition parseField (s : std) (value : string) (f : fields)
  : parseResult (string * fields) :=
  match s with
  | stdLongYear =>
      if (String.length value <? 4)%nat || negb (isDigit value 0) then Failed errBad
      else
        match atoi (String.substring 0 4 value) with
        | Some year =>
            Parsed (dropBytes 4 value,
                    mkFields year (f_month f) (f_day f) (f_hour f) (f_min f) (f_sec f) (f_nsec f))
        | None => Failed errBad
        end
  | stdZeroMonth =>
      '(month, value) ← ofGetnum (getnum value true);
      if (month <=? 0) || (12 <? month) then Failed (errRange "month")
      else Parsed (value,
                   mkFields (f_year f) month (f_day f) (f_hour f) (f_min f) (f_sec f) (f_nsec f))
  | stdZeroDay =>
      '(day, value) ← ofGetnum (getnum value true);
      Parsed (value,
              mkFields (f_year f) (f_month f) day (f_hour f) (f_min f) (f_sec f) (f_nsec f))
  | stdHour =>
      '(hour, value) ← ofGetnum (getnum value false);
      if (hour <? 0) || (24 <=? hour) then Failed (errRange "hour")
      else Parsed (value,
                   mkFields (f_year f) (f_month f) (f_day f) hour (f_min f) (f_sec f) (f_nsec f))
  | stdZeroMinute =>
      '(min, value) ← ofGetnum (getnum value true);
      if (min <? 0) || (60 <=? min) then Failed (errRange "minute")
      else Parsed (value,
                   mkFields (f_year f) (f_month f) (f_day f) (f_hour f) min (f_sec f) (f_nsec f))
  | stdZeroSecond =>
      '(sec, value) ← ofGetnum (getnum value true);
      if (sec <? 0) || (60 <=? sec) then Failed (errRange "second")
      else
        let f := mkFields (f_year f) (f_month f) (f_day f) (f_hour f) (f_min f) sec (f_nsec f) in
        (* A fractional second in the value although the layout has none. *)
        if (2 <=? String.length value)%nat && commaOrPeriod (byteAt value 0)
           && isDigit value 1
        then
          let n := (2 + countDigits (dropBytes 2 value))%nat in
          nsec ← parseNanoseconds value n;
          Parsed (dropBytes n value,
                  mkFields (f_year f) (f_month f) (f_day f) (f_hour f) (f_min f) (f_sec f) nsec)
        else Parsed (value, f)
  end.

(** The loop of [parse] over the chunks of the layout. *)
Fixpoint parseChunks (chunks : list (string * std)) (value : string) (f : fields)
  : parseResult fields :=
  match chunks with
  | [] =>
      match value with
      | EmptyString => Parsed f
      | _ => Failed errExtraText
      end
  | (prefix, s) :: rest =>
      match skip value prefix with
      | None => Failed errBad
      | Some value =>
          '(value, f) ← parseField s value f;
          parseChunks rest value f
      end
  end.

(** [time.ParseInLocation("20060102.150405", value, l)] *)
Definition ParseInLocation (value : string) (l : Location) : parseResult Time :=
  f ← parseChunks layoutChunks value (mkFields 0 (-1) (-1) 0 0 0 0);
  let month := if f_month f <? 0 then 1 else f_month f in
  let day := if f_day f <? 0 then 1 else f_day f in
  if (day <? 1) || (daysIn month (f_year f) <? day) then Failed errDayOutOfRange
  else Parsed (Date (f_year f) month day (f_hour f) (f_min f) (f_sec f) (f_nsec f) l).

End time.

(** ** The operating system and the process *)

Import time.

(** [os.FileInfo]: only [Size] is read. *)
Record FileInfo : Type := mkFileInfo { Size : int64 }.

(** [times.Timespec] of github.com/djherbis/times. *)
Record Timespec : Type := mkTimespec {
  AccessTime : Time;
  ModTime : Time;
  HasChangeTime : bool;
  ChangeTime : Time;
  HasBirthTime : bool;
  BirthTime : Time
}.

(** The calls the program makes, over a file system state [FS].
    - [Glob]: [filepath.Glob]; [None] is its only error, a malformed pattern.
    - [Stat]: [os.Stat]; [timesStat]: [times.Stat]; [None] is an error.
    - [Chtimes]: [os.Chtimes]; the new state, or [None] for an error.  What
      the file system makes of the two instants (their precision, the zero
      instant) is its own matter.
    - [Local]: the location [time.Now().Location()] returns.
    [Glob] and [Stat] are independent: a link to nothing is listed by the
    first and refused by the second. *)
Class OS (FS : Type) : Type := {
  Glob : FS -> string -> option (list string);
  Stat : FS -> string -> option FileInfo;
  timesStat : FS -> string -> option Timespec;
  Chtimes : FS -> string -> Time -> Time -> option FS;
  Local : Location
}.

(** The errors of [flag.Parse], by their messages. *)
Inductive FlagError : Type :=
| BadFlagSyntax (s : string)              (* bad flag syntax: %s *)
| FlagNotDefined (name : string)          (* flag provided but not defined: -%s *)
| InvalidBoolean (value name : string)    (* invalid boolean value %q for -%s *)
| FlagNeedsArgument (name : string).      (* flag needs an argument: -%s *)

(** What the process does that can be observed, in order: lines on standard
    output ([Out...]), lines of the logger on standard error ([Log...],
    [Fatal...]), the message of a flag that cannot be parsed ([ErrFlag]),
    and the calls of [os.Chtimes] with their arguments. *)
Inductive Event : Type :=
| OutName (file : string)
| OutSize (size : string)
| OutBtime (t : Time)
| OutCtime (t : Time)
| OutMtime (t : Time)
| OutAtime (t : Time)
| OutBlank
| ErrUsage
| ErrVersion
| ErrFlag (e : FlagError)
| LogGlobError (pattern : string)
| LogGetFileTimesError (file : string)
| LogLstatError (file : string)
| LogChtimesError (file : string)
| FatalParseDate (dt : string) (e : ParseError)
| FatalInvalidOp (op : string)
| FatalExclusive
| FatalInvalidTimeStamp (dt : string)
| FatalNoMatch (args : list string)
| CallChtimes (file : string) (atime mtime : Time) (ok : bool).

Inductive outcome (A : Type) : Type :=
| Normal (a : A)        (* the function returns *)
| Exit (code : Z)       (* os.Exit, also through log.Fatalf *)
| Panicked              (* a run-time panic *)
| Diverged.             (* the fuel of a loop ran out *)
Arguments Normal {A} a.
Arguments Exit {A} code.
Arguments Panicked {A}.
Arguments Diverged {A}.

Section Program.

Context {FS : Type} `{!OS FS}.

Record World : Type := mkWorld {
  fs : FS;
  trace : list Event
}.

Definition M (A : Type) : Type := World -> outcome A * World.

#[global] Instance M_ret : MRet M := fun A a w => (Normal a, w).
#[global] Instance M_bind : MBind M := fun A B f m w =>
  match m w with
  | (Normal a, w') => f a w'
  | (Exit c, w') => (Exit c, w')
  | (Panicked, w') => (Panicked, w')
  | (Diverged, w') => (Diverged, w')
  end.

Definition emit (e : Event) : M unit :=
  fun w => (Normal tt, mkWorld (fs w) (trace w ++ [e])).

Definition exit {A} (code : Z) : M A := fun w => (Exit code, w).

(** [log.Fatalf]: one line on standard error, then [os.Exit(1)]. *)
Definition fatal {A} (e : Event) : M A := emit e ;; exit 1.

Definition liftResult {A} (r : result A) : M A :=
  fun w =>
    match r with
    | Ok a => (Normal a, w)
    | Panic => (Panicked, w)
    | OutOfFuel => (Diverged, w)
    end.

Definition callGlob (pattern : string) : M (option (list string)) :=
  fun w => (Normal (Glob (fs w) pattern), w).

Definition callStat (file : string) : M (option FileInfo) :=
  fun w => (Normal (Stat (fs w) file), w).

Definition callTimesStat (file : string) : M (option Timespec) :=
  fun w => (Normal (timesStat (fs w) file), w).

(** Returns whether [os.Chtimes] returned an error. *)
Definition callChtimes (file : string) (atime mtime : Time) : M bool :=
  fun w =>
    match Chtimes (fs w) file atime mtime with
    | Some fs' =>
        (Normal false, mkWorld fs' (trace w ++ [CallChtimes file atime mtime true]))
    | None =>
        (Normal true, mkWorld (fs w) (trace w ++ [CallChtimes file atime mtime false]))
    end.

(** *** gostat.go *)

Definition OpAccess : string := "a".
Definition OpModify : string := "m".
Definition OpBoth : string := "b".

(** The loop of [expandGlobs]; [allFiles] is its accumulator. *)
Fixpoint expandGlobsLoop (args : list string) (allFiles : list string)
  : M (list string) :=
  match args with
  | [] => mret allFiles
  | glob :: rest =>
      r ← callGlob glob;
      match r with
      | None =>
          emit (LogGlobError glob) ;;
          expandGlobsLoop rest allFiles
      | Some globbed =>
          if (0 <? length globbed)%nat then
            expandGlobsLoop rest (allFiles ++ globbed)
          else
            st ← callStat glob;
            match st with
            | Some _ => expandGlobsLoop rest (allFiles ++ [glob])
            | None => expandGlobsLoop rest allFiles
            end
      end
  end.

Definition expandGlobs (args : list string) : M (list string) :=
  expandGlobsLoop args [].

(** [m[k]] on a Go map: the zero value when the key is missing. *)
Definition mapIndex (m : gmap string Time) (k : string) : Time :=
  default zeroTime (m !! k).

Definition getFileTimes (file : string) : M (gmap string Time) :=
  let fileTimes : gmap string Time := ∅ in
  r ← callTimesStat file;
  match r with
  | None =>
      emit (LogGetFileTimesError file) ;;
      mret fileTimes
  | Some t =>
      let fileTimes := <["a"%string := AccessTime t]> fileTimes in
      let fileTimes := <["m"%string := ModTime t]> fileTimes in
      let fileTimes :=
        if HasChangeTime t then <["c"%string := ChangeTime t]> fileTimes
        else fileTimes in
      let fileTimes :=
        if HasBirthTime t then <["b"%string := BirthTime t]> fileTimes
        else fileTimes in
      mret fileTimes
  end.

Definition emitIfFound (mk : Time -> Event) (o : option Time) : M unit :=
  match o with
  | Some t => emit (mk t)
  | None => mret tt
  end.

(** The loop of [showFileTimes]; [count] is its counter. *)
Fixpoint showFileTimesLoop (files : list string) (count : Z) : M Z :=
  match files with
  | [] => mret count
  | file :: rest =>
      emit (OutName file) ;;
      fi ← callStat file;
      match fi with
      | None =>
          emit (LogLstatError file) ;;
          showFileTimesLoop rest count
      | Some fi =>
          let count := count + 1 in
          size ← liftResult (FormatWithCommas (Size fi));
          emit (OutSize size) ;;
          t ← getFileTimes file;
          emitIfFound OutBtime (t !! "b"%string) ;;
          emitIfFound OutCtime (t !! "c"%string) ;;
          emit (OutMtime (mapIndex t "m")) ;;
          emit (OutAtime (mapIndex t "a")) ;;
          emit OutBlank ;;
          showFileTimesLoop rest count
      end
  end.

Definition showFileTimes (args : list string) : M Z :=
  files ← expandGlobs args;
  showFileTimesLoop files 0.

Definition createDate (dt : string) : parseResult Time :=
  ParseInLocation dt Local.

(** One iteration of the loop of [setFileTime]. *)
Definition setFileTimeBody (newTime : Time) (op file : string) : M unit :=
  currentTimes ← getFileTimes file;
  err ← (if String.eqb OpModify op then
           callChtimes file (mapIndex currentTimes "a") newTime
         else if String.eqb OpAccess op then
           callChtimes file newTime (mapIndex currentTimes "m")
         else if String.eqb OpBoth op then
           callChtimes file newTime newTime
         else fatal (FatalInvalidOp op));
  if err : bool then emit (LogChtimesError file)
  else showFileTimes [file] ;; mret tt.

Fixpoint setFileTimeLoop (newTime : Time) (op : string) (files : list string)
  : M unit :=
  match files with
  | [] => mret tt
  | file :: rest =>
      setFileTimeBody newTime op file ;;
      setFileTimeLoop newTime op rest
  end.

Definition setFileTime (args : list string) (dt op : string) : M unit :=
  match createDate dt with
  | Failed e => fatal (FatalParseDate dt e)
  | Parsed newTime =>
      files ← expandGlobs args;
      setFileTimeLoop newTime op files
  end.

(** [regexp.MustCompile(`^\d{8}\.\d{6}$`).MatchString] *)
Fixpoint matchDigits (n : nat) (s : string) : option string :=
  match n with
  | O => Some s
  | S n' =>
      match s with
      | String c s' => if isDigitByte c then matchDigits n' s' else None
      | EmptyString => None
      end
  end.

Definition validDT (s : string) : bool :=
  match matchDigits 8 s with
  | Some (String "." rest) =>
      match matchDigits 6 rest with
      | Some EmptyString => true
      | _ => false
      end
  | _ => false
  end.

(** The flags and arguments [flag.Parse] hands to [main]. *)
Record Flags : Type := mkFlags {
  argsVersion : bool;
  argsAccess : string;
  argsModify : string;
  argsBoth : string;
  args : list string
}.

Definition main (fl : Flags) : M unit :=
  if argsVersion fl then emit ErrVersion ;; exit 0
  else if (length (args fl) =? 0)%nat then emit ErrUsage ;; exit 1
  else
    let wantChange := 0 in
    let op := EmptyString in
    let newTime := EmptyString in
    let '(wantChange, op, newTime) :=
      if 0 <? len (argsAccess fl) then (wantChange + 1, OpAccess, argsAccess fl)
      else (wantChange, op, newTime) in
    let '(wantChange, op, newTime) :=
      if 0 <? len (argsModify fl) then (wantChange + 1, OpModify, argsModify fl)
      else (wantChange, op, newTime) in
    let '(wantChange, op, newTime) :=
      if 0 <? len (argsBoth fl) then (wantChange + 1, OpBoth, argsBoth fl)
      else (wantChange, op, newTime) in
    if 1 <? wantChange then fatal FatalExclusive
    else if 0 <? wantChange then
      if negb (validDT newTime) then fatal (FatalInvalidTimeStamp newTime)
      else setFileTime (args fl) newTime op ;; exit 0
    else
      count ← showFileTimes (args fl);
      if count =? 0 then fatal (FatalNoMatch (args fl))
      else mret tt.

(** The exit status of the process, when it ends. *)
Definition exitCode {A} (o : outcome A) : option Z :=
  match o with
  | Normal _ => Some 0
  | Exit c => Some c
  | Panicked => Some 2
  | Diverged => None
  end.

End Program.

Arguments World FS : clear implicits.

(** ** flag.Parse

    Package flag on the four flags [main] defines: the boolean [v] and the
    strings [a], [m] and [b], with the error handling [ExitOnError] of the
    command line. *)

Module flag.

(** The values of the flags and the arguments that are left. *)
Record FlagSet : Type := mkFlagSet {
  f_v : bool;
  f_a : string;
  f_m : string;
  f_b : string;
  f_args : list string
}.

Definition setArgs (f : FlagSet) (rest : list string) : FlagSet :=
  mkFlagSet (f_v f) (f_a f) (f_m f) (f_b f) rest.

(** [strconv.ParseBool] *)
Definition ParseBool (str : string) : option bool :=
  if existsb (String.eqb str) ["1"; "t"; "T"; "TRUE"; "true"; "True"]%string
  then Some true
  else if existsb (String.eqb str) ["0"; "f"; "F"; "FALSE"; "false"; "False"]%string
  then Some false
  else None.

(** The name of a flag and the value that follows its first equals sign;
    an equals sign cannot be the first byte of the name. *)
Fixpoint cutAtEquals (s : string) : string * option string :=
  match s with
  | EmptyString => (EmptyString, None)
  | String c rest =>
      if Ascii.eqb c "="%char then (EmptyString, Some rest)
      else let '(name, value) := cutAtEquals rest in (String c name, value)
  end.

Definition nameAndValue (name : string) : string * option string :=
  match name with
  | EmptyString => (EmptyString, None)
  | String c rest =>
      let '(name, value) := cutAtEquals rest in (String c name, value)
  end.

(** How [Parse] ends: the flags are parsed, help was asked for, or an
    argument is in error. *)
Inductive parsed : Type :=
| Parsed (f : FlagSet)
| ErrHelp
| Failed (e : FlagError).

(** How [parseOne] ends: a flag was seen, the flags are over, help was
    asked for, or the argument is in error. *)
Inductive step : Type :=
| Seen (f : FlagSet)
| Over (f : FlagSet)
| Help
| Fail (e : FlagError).

(** A flag with its value, if it has one; [rest] are the arguments after
    the flag. *)
Definition setFlag (f : FlagSet) (name : string) (value : option string)
    (rest : list string) : step :=
  if String.eqb name "v" then
    match value with
    | Some value =>
        match ParseBool value with
        | Some b => Seen (mkFlagSet b (f_a f) (f_m f) (f_b f) rest)
        | None => Fail (InvalidBoolean value name)
        end
    | None => Seen (mkFlagSet true (f_a f) (f_m f) (f_b f) rest)
    end
  else if existsb (String.eqb name) ["a"; "m"; "b"]%string then
    let store value rest :=
      if String.eqb name "a" then mkFlagSet (f_v f) value (f_m f) (f_b f) rest
      else if String.eqb name "m" then mkFlagSet (f_v f) (f_a f) value (f_b f) rest
      else mkFlagSet (f_v f) (f_a f) (f_m f) value rest in
    match value with
    | Some value => Seen (store value rest)
    | None =>
        match rest with
        | value :: rest => Seen (store value rest)
        | [] => Fail (FlagNeedsArgument name)
        end
    end
  else if String.eqb name "help" || String.eqb name "h" then Help
  else Fail (FlagNotDefined name).

(** [parseOne]: the first argument, when it is a flag. *)
Definition parseOne (f : FlagSet) : step :=
  match f_args f with
  | [] => Over f
  | s :: rest =>
      match s with
      | String "-" (String c tail) =>
          let twoMinuses := Ascii.eqb c "-"%char in
          if twoMinuses && String.eqb tail EmptyString
          then Over (setArgs f rest)                    (* "--" ends the flags *)
          else
            let name := if twoMinuses then tail else String c tail in
            match name with
            | EmptyString => Fail (BadFlagSyntax s)
            | String n _ =>
                if Ascii.eqb n "-"%char || Ascii.eqb n "="%char
                then Fail (BadFlagSyntax s)
                else
                  let '(name, value) := nameAndValue name in
                  setFlag f name value rest
            end
      | _ => Over f                (* shorter than two bytes, or no minus *)
      end
  end.

(** The loop of [Parse]; every flag that is seen takes an argument away,
    so that as many turns as there are arguments, and one, are enough. *)
Fixpoint parseLoop (fuel : nat) (f : FlagSet) : result parsed :=
  match fuel with
  | O => OutOfFuel
  | S fuel' =>
      match parseOne f with
      | Seen f' => parseLoop fuel' f'
      | Over f' => Ok (Parsed f')
      | Help => Ok ErrHelp
      | Fail e => Ok (Failed e)
      end
  end.

Definition Parse (arguments : list string) : result parsed :=
  parseLoop (S (length arguments))
            (mkFlagSet false EmptyString EmptyString EmptyString arguments).

End flag.

(** ** The process from its command line

    [main] from its first line: the flags are defined and parsed, then
    [main] goes on with their values.  A command line [flag.Parse] cannot
    parse ends the process with status 2 after the message and the usage;
    [-h] and [-help] end it with status 0 after the usage. *)

Section Process.

Context {FS : Type} `{!OS FS}.

Definition process (osArgs : list string) : M unit :=
  r ← liftResult (flag.Parse osArgs);
  match r with
  | flag.Parsed f =>
      main (mkFlags (flag.f_v f) (flag.f_a f) (flag.f_m f) (flag.f_b f)
                    (flag.f_args f))
  | flag.ErrHelp => emit ErrUsage ;; exit 0
  | flag.Failed e => emit (ErrFlag e) ;; emit ErrUsage ;; exit 2
  end.

End Process.

(** ** A file table to run the program on

    A small instance of [OS]: a table from paths to entries, and a table of
    the patterns whose expansion is not the pattern itself.  [Chtimes]
    stores the instants it is given, and, as [os.Chtimes] does, leaves a
    time as it is when it is given the zero instant for it. *)

Module Table.

Record Entry : Type := mkEntry {
  e_size : int64;
  e_stat : bool;                 (* os.Stat succeeds *)
  e_times : Timespec;            (* the times the file system keeps *)
  e_readable : bool;             (* times.Stat succeeds *)
  e_writable : bool              (* os.Chtimes succeeds *)
}.

Record FS : Type := mkFS {
  entries : gmap string Entry;
  globs : gmap string (option (list string))
}.

Definition tGlob (t : FS) (pattern : string) : option (list string) :=
  match globs t !! pattern with
  | Some r => r
  | None => if decide (is_Some (entries t !! pattern)) then Some [pattern] else Some []
  end.

Definition tStat (t : FS) (file : string) : option FileInfo :=
  e ← entries t !! file;
  if e_stat e then Some (mkFileInfo (e_size e)) else None.

Definition tTimesStat (t : FS) (file : string) : option Timespec :=
  e ← entries t !! file;
  if e_readable e then Some (e_times e) else None.

Definition setTimes (atime mtime : Time) (ts : Timespec) : Timespec :=
  mkTimespec (if IsZero atime then AccessTime ts else atime)
             (if IsZero mtime then ModTime ts else mtime)
             (HasChangeTime ts) (ChangeTime ts)
             (HasBirthTime ts) (BirthTime ts).

Definition tChtimes (t : FS) (file : string) (atime mtime : Time) : option FS :=
  e ← entries t !! file;
  if e_writable e then
    let e' := mkEntry (e_size e) (e_stat e) (setTimes atime mtime (e_times e))
                      (e_readable e) (e_writable e) in
    Some (mkFS (<[file := e']> (entries t)) (globs t))
  else None.

Definition os (l : Location) : OS FS :=
  {| Glob := tGlob; Stat := tStat; timesStat := tTimesStat;
     Chtimes := tChtimes; Local := l |}.

End Table.

(** ** Definitions that follow the words of the specification *)

Module Spec.

(** "Grouped in threes from the right with comma separators", on the
    digits listed from the right: three digits, and a comma when more
    digits follow. *)
Fixpoint groupRev (rds : list ascii) : list ascii :=
  match rds with
  | a :: b :: c :: ((_ :: _) as rest) => a :: b :: c :: ","%char :: groupRev rest
  | _ => rds
  end.

Definition groupThousands (ds : list ascii) : list ascii :=
  rev (groupRev (rev ds)).

(** The number a list of decimal digits denotes. *)
Definition valueOf (ds : list ascii) : Z :=
  fold_left (fun acc c => acc * 10 + digitVal c) ds 0.

(** [ds] is the decimal representation of [u]: digits only, denoting [u],
    without a leading zero unless it is the single digit of zero. *)
Definition decimalOf (u : Z) (ds : list ascii) : Prop :=
  Forall (fun c => isDigitByte c = true) ds /\
  valueOf ds = u /\
  ds <> [] /\
  (forall rest, ds = "0"%char :: rest -> rest = []).

(** The grouped text of an integer: a minus sign for a negative number,
    then the grouped digits of its absolute value. *)
Definition grouped (n : Z) (ds : list ascii) : string :=
  let body := string_of_list_ascii (groupThousands ds) in
  if n <? 0 then String "-" body else body.

(** *** The codec *)

(** The number written in the [n] bytes of [s] from position [pos]. *)
Definition numAt (s : string) (pos n : nat) : Z :=
  valueOf (list_ascii_of_string (String.substring pos n s)).

(** The components of a text laid out as YYYYMMDD.HHMMSS. *)
Definition yearOf (s : string) : Z := numAt s 0 4.
Definition monthOf (s : string) : Z := numAt s 4 2.
Definition dayOf (s : string) : Z := numAt s 6 2.
Definition hourOf (s : string) : Z := numAt s 9 2.
Definition minuteOf (s : string) : Z := numAt s 11 2.
Definition secondOf (s : string) : Z := numAt s 13 2.

(** The Gregorian calendar. *)
Definition leapYear (y : Z) : bool :=
  (y mod 4 =? 0) && (negb (y mod 100 =? 0) || (y mod 400 =? 0)).

Definition daysInMonth (y m : Z) : Z :=
  if m =? 2 then (if leapYear y then 29 else 28)
  else if (m =? 4) || (m =? 6) || (m =? 9) || (m =? 11) then 30
  else 31.

(** A valid calendar date and time of day. *)
Definition validCalendar (y mo d h mi sec : Z) : bool :=
  (1 <=? mo) && (mo <=? 12) && (1 <=? d) && (d <=? daysInMonth y mo) &&
  (0 <=? h) && (h <? 24) && (0 <=? mi) && (mi <? 60) &&
  (0 <=? sec) && (sec <? 60).

Definition validComponents (s : string) : bool :=
  validCalendar (yearOf s) (monthOf s) (dayOf s)
                (hourOf s) (minuteOf s) (secondOf s).

(** A fractional second: a period or a comma, then one or more digits. *)
Definition isFraction (s : string) : bool :=
  match s with
  | String c (String d rest) =>
      commaOrPeriod c && isDigitByte d
      && forallb isDigitByte (list_ascii_of_string rest)
  | _ => false
  end.

(** The first 15 bytes of a text, and what follows them. *)
Definition stem (s : string) : string := String.substring 0 15 s.
Definition afterStem (s : string) : string := dropBytes 15 s.

(** The texts [createDate] accepts: the fixed structure with valid
    components, alone or followed by a fractional second. *)
Definition accepted (s : string) : bool :=
  validDT (stem s) && validComponents s
  && (String.eqb (afterStem s) EmptyString || isFraction (afterStem s)).

(** The components of an instant, read on the wall clock of its location,
    are those of the text. *)
Definition componentsKept (dt : string) (t : Time) : Prop :=
  Year t = yearOf dt /\ Month t = monthOf dt /\ Day t = dayOf dt /\
  Hour t = hourOf dt /\ Minute t = minuteOf dt /\ Second t = secondOf dt.

(** The offset of a location at an instant, and the seconds the wall clock
    of the location of an instant shows at it. *)
Definition offsetAt (l : Location) (sec : Z) : Z := fst (fst (lookup l sec)).

Definition wallClock (t : Time) : Z := unixSec t + offsetAt (loc t) (unixSec t).

(** The seconds of the reading of a text: those of the instant of its
    components in UTC. *)
Definition readingOf (dt : string) : Z :=
  unixSec (Date (yearOf dt) (monthOf dt) (dayOf dt)
                (hourOf dt) (minuteOf dt) (secondOf dt) 0 UTC).

(** The reading of the text exists in the location [l] at the instant
    [time.Date] selects for it: the wall clock of [l] shows it there.  A
    reading that a transition of [l] skips has no such instant. *)
Definition readingExists (l : Location) (dt : string) : Prop :=
  wallClock (Date (yearOf dt) (monthOf dt) (dayOf dt)
                  (hourOf dt) (minuteOf dt) (secondOf dt) 0 l)
  = readingOf dt.

(** Some instant shows the reading [W] on the wall clock of [l]. *)
Definition shown (l : Location) (W : Z) : Prop :=
  exists u, u + offsetAt l u = W.

(** The length of a day, in seconds. *)
Definition dayLength : Z := 86400.

(** A table of transitions is regular when every offset is less than a
    day and the transitions are more than two days apart, from each other
    and from the beginning of time. *)
Fixpoint regularFrom (start : Z) (trans : list (Z * Z)) : Prop :=
  match trans with
  | [] => True
  | (when, offset) :: rest =>
      start + 2 * dayLength < when /\
      - dayLength < offset < dayLength /\
      regularFrom when rest
  end.

Definition regularLocation (l : Location) : Prop :=
  - dayLength < zone0 l < dayLength /\ regularFrom alpha (tx l).

(** *** The path resolver *)

Section Resolver.
Context {FS : Type} `{!OS FS}.

(** What one pattern contributes: all matches when there are some; the
    pattern itself when nothing matches and an entry exists at that
    path; nothing for a malformed pattern. *)
Definition resolveOne (t : FS) (pattern : string) : list string :=
  match Glob t pattern with
  | None => []
  | Some [] =>
      match Stat t pattern with
      | Some _ => [pattern]
      | None => []
      end
  | Some matches => matches
  end.

(** The concatenation of the per-pattern results in input order. *)
Definition resolve (t : FS) (patterns : list string) : list string :=
  flat_map (resolveOne t) patterns.

(** Malformed patterns are logged. *)
Definition globLogs (t : FS) (patterns : list string) : list Event :=
  flat_map (fun p => match Glob t p with
                     | None => [LogGlobError p]
                     | Some _ => []
                     end) patterns.

(** *** The reporter *)

Definition statOk (t : FS) (file : string) : bool :=
  match Stat t file with Some _ => true | None => false end.

(** The time lines of a file, in the order birth, change, modify,
    access; birth and change only when the file system has them. *)
Definition timeLines (t : FS) (file : string) : list Event :=
  match timesStat t file with
  | Some ts =>
      (if HasBirthTime ts then [OutBtime (BirthTime ts)] else []) ++
      (if HasChangeTime ts then [OutCtime (ChangeTime ts)] else []) ++
      [OutMtime (ModTime ts); OutAtime (AccessTime ts)]
  | None =>
      [LogGetFileTimesError file; OutMtime zeroTime; OutAtime zeroTime]
  end.

(** What the reporter does for one target: the name line, then either
    the log line of the failed stat, or size, time lines and a blank
    line. *)
Definition fileEvents (t : FS) (file : string) : list Event :=
  OutName file ::
  match Stat t file with
  | None => [LogLstatError file]
  | Some fi =>
      OutSize (grouped (Size fi) (strconv.digits (Z.abs (Size fi)))) ::
      timeLines t file ++ [OutBlank]
  end.

(** The targets the reporter counts. *)
Definition countStatOk (t : FS) (files : list string) : Z :=
  Z.of_nat (length (filter (fun f => statOk t f = true) files)).

(** *** The writer *)

(** The pair (access, modify) a mode asks for, given the new instant
    and the current times of the file. *)
Definition pairFor (op : string) (newInstant : Time) (current : Timespec)
  : Time * Time :=
  if decide (op = OpAccess) then (newInstant, ModTime current)
  else if decide (op = OpModify) then (AccessTime current, newInstant)
  else (newInstant, newInstant).

Definition validOp (op : string) : Prop :=
  op = OpAccess \/ op = OpModify \/ op = OpBoth.

(** *** The command line *)

Definition given (flag : string) : bool := negb (String.eqb flag EmptyString).

(** Display mode: files are named and no time-setting flag is given. *)
Definition displayMode (fl : Flags) : Prop :=
  argsVersion fl = false /\ args fl <> [] /\
  given (argsAccess fl) = false /\ given (argsModify fl) = false /\
  given (argsBoth fl) = false.

(** Mutate mode: files are named and a time-setting flag is given. *)
Definition mutateMode (fl : Flags) : Prop :=
  argsVersion fl = false /\ args fl <> [] /\
  (given (argsAccess fl) = true \/ given (argsModify fl) = true \/
   given (argsBoth fl) = true).

(** The timestamp text of the invocation. *)
Definition timestampText (fl : Flags) : string :=
  if given (argsBoth fl) then argsBoth fl
  else if given (argsModify fl) then argsModify fl
  else argsAccess fl.

(** A timestamp text is malformed when it does not have the fixed
    structure or when the codec refuses it. *)
Definition malformed (dt : string) : Prop :=
  validDT dt = false \/ exists e, createDate dt = Failed e.

End Resolver.

(** Standard output and the calls of [os.Chtimes] in a trace. *)
Definition isStdout (e : Event) : bool :=
  match e with
  | OutName _ | OutSize _ | OutBtime _ | OutCtime _ | OutMtime _
  | OutAtime _ | OutBlank => true
  | _ => false
  end.

Definition stdoutOf (evs : list Event) : list Event :=
  filter (fun e => isStdout e = true) evs.

Definition isChtimes (e : Event) : bool :=
  match e with
  | CallChtimes _ _ _ _ => true
  | _ => false
  end.

Definition chtimesOf (evs : list Event) : list Event :=
  filter (fun e => isChtimes e = true) evs.

(** *** The calls of the writer *)

Section Calls.
Context {FS : Type} `{!OS FS}.

(** A call of [os.Chtimes]: the state of the file system it is made in,
    the target, the two instants and whether it succeeded. *)
Record Call : Type := mkCall {
  c_state : FS;
  c_file : string;
  c_atime : Time;
  c_mtime : Time;
  c_ok : bool
}.

Definition callEvent (c : Call) : Event :=
  CallChtimes (c_file c) (c_atime c) (c_mtime c) (c_ok c).

(** The calls are made one after the other from the state [t0] and leave
    the state [tf]: each call is made in the state the call before it has
    left, a call that succeeds leaves the state [os.Chtimes] returns, and a
    call that fails leaves the state it was made in. *)
Fixpoint chained (t0 : FS) (calls : list Call) (tf : FS) : Prop :=
  match calls with
  | [] => tf = t0
  | c :: rest =>
      c_state c = t0 /\
      if c_ok c
      then exists t', Chtimes t0 (c_file c) (c_atime c) (c_mtime c) = Some t' /\
                      chained t' rest tf
      else Chtimes t0 (c_file c) (c_atime c) (c_mtime c) = None /\
           chained t0 rest tf
  end.

End Calls.

Arguments Call FS : clear implicits.

(** *** The command line as it is given *)

(** What the command line gives: for each time-setting flag nothing, or its
    text, which may be empty ([-a ""]); whether the version is asked for; the
    file arguments. *)
Record Invocation : Type := mkInvocation {
  inv_version : bool;
  inv_access : option string;
  inv_modify : option string;
  inv_both : option string;
  inv_files : list string
}.

(** What [flag.Parse] leaves in the variables of [main]: the text of a flag
    that is given, and the default, the empty text, of a flag that is
    not. *)
Definition flagsOf (i : Invocation) : Flags :=
  mkFlags (inv_version i)
          (default EmptyString (inv_access i))
          (default EmptyString (inv_modify i))
          (default EmptyString (inv_both i))
          (inv_files i).

(** The texts of the time-setting flags that are given. *)
Definition timeFlagTexts (i : Invocation) : list string :=
  omap id [inv_access i; inv_modify i; inv_both i].

End Spec.

(** ** Concrete inputs *)

Module Examples.

Definition tAccess : Time := mkTime 1600000000 0 UTC.
Definition tModify : Time := mkTime 1500000000 0 UTC.
Definition tChange : Time := mkTime 1550000000 0 UTC.
Definition tBirth : Time := mkTime 1400000000 0 UTC.
Definition tNew : Time := mkTime 1617028225 0 UTC.

Definition times0 : Timespec :=
  mkTimespec tAccess tModify true tChange true tBirth.

(** A regular file. *)
Definition regular : Table.Entry :=
  Table.mkEntry (mkInt64 1234567 I) true times0 true true.

(** A symbolic link to nothing: [filepath.Glob] lists it, [os.Stat]
    fails on it. *)
Definition dangling : Table.Entry :=
  Table.mkEntry (mkInt64 0 I) false times0 false false.

(** A file whose times cannot be read although they can be set. *)
Definition unreadable : Table.Entry :=
  Table.mkEntry (mkInt64 5 I) true times0 false true.

Definition table : Table.FS :=
  Table.mkFS
    (list_to_map [("a.txt"%string, regular); ("link"%string, dangling);
                  ("[x].txt"%string, regular); ("odd"%string, unreadable)])
    (list_to_map [("link"%string, Some ["link"%string]);
                  ("[x].txt"%string, Some []);
                  ("*.pdf"%string, Some [])]).

Definition world0 : World Table.FS := mkWorld table [].

(** The file table with UTC as the local time zone. *)
Definition osUTC : OS Table.FS := Table.os UTC.

(** The eastern United States around the transitions of 2021: standard
    time, daylight time from 2021-03-14 07:00:00 UTC, standard time again
    from 2021-11-07 06:00:00 UTC. *)
Definition newYork : Location :=
  mkLocation (-18000) [(1615705200, -14400); (1636264800, -18000)].

(** The file table with that zone as the local time zone. *)
Definition osNewYork : OS Table.FS := Table.os newYork.

Definition displayFlags (files : list string) : Flags :=
  mkFlags false EmptyString EmptyString EmptyString files.

Definition accessFlags (dt : string) (files : list string) : Flags :=
  mkFlags false dt EmptyString EmptyString files.

End Examples.

(** ** The claims that do not hold, as the specification states them *)

Module AsStated.

(** C2 as stated: every text of the fixed structure with valid components
    is parsed into an instant that has these components in the local time
    zone. *)
Definition parse_keeps_components : Prop :=
  forall (FS : Type) (H : OS FS) (dt : string),
    validDT dt = true -> Spec.validComponents dt = true ->
    exists t, createDate dt = Parsed t /\ Spec.componentsKept dt t.

(** C3 as stated: every text that violates the fixed structure, or whose
    components are not a valid date and time, is refused by the codec. *)
Definition parse_rejects_all_malformed : Prop :=
  forall (FS : Type) (H : OS FS) (dt : string),
    validDT dt = false \/ Spec.validComponents dt = false ->
    exists e, createDate dt = Failed e.

(** C5 as stated: a target whose stat fails emits no output of its own;
    the other targets emit their lines. *)
Definition report_skips_silently : Prop :=
  forall (FS : Type) (H : OS FS) (t : FS) (args : list string),
    Spec.stdoutOf (trace (snd (showFileTimes args (mkWorld t []))))
    = flat_map (fun f => if Spec.statOk t f
                         then Spec.stdoutOf (Spec.fileEvents t f)
                         else [])
               (Spec.resolve t args).

(** C4 as stated: the spec enters mutate mode when a time-setting flag is
    given; whenever the text of a flag that is given is malformed, the
    process fails fatally, and no file is touched. *)
Definition malformed_timestamp_is_fatal : Prop :=
  forall (FS : Type) (H : OS FS) (i : Spec.Invocation) (dt : string)
         (w : World FS),
    Spec.inv_version i = false -> Spec.inv_files i <> [] ->
    dt ∈ Spec.timeFlagTexts i ->
    Spec.malformed dt ->
    exists evs : list Event,
      main (Spec.flagsOf i) w = (Exit 1, mkWorld (fs w) (trace w ++ evs)).


End AsStated.

(** ** Definitions used by the proofs only *)

(** The position of a year in the cycles of 400, 100 and 4 years that
    start at the absolute epoch. *)
Record cycles (year q a b c : Z) : Prop := mkCycles {
  cy_eq : year - absoluteZeroYear = 400 * q + 100 * a + 4 * b + c;
  cy_q : 0 <= q;
  cy_a : 0 <= a <= 3;
  cy_b : 0 <= b <= 24;
  cy_c : 0 <= c <= 3
}.

(** The offset [Date] subtracts from the reading [W] in the location [l]. *)
Definition chosenOffset (l : Location) (W : Z) : Z :=
  let '(offset, start, end_) := lookup l W in
  if offset =? 0 then 0
  else if (W - offset <? start) || (end_ <=? W - offset)
       then fst (fst (lookup l (W - offset)))
       else offset.

(** The day of the year [Date] computes, counted from zero. *)
Definition ydayOf (year month day : Z) : Z :=
  daysBeforeAt (month - 1)
  + (if isLeap year && (3 <=? month) then 1 else 0) + (day - 1).

(** The seconds since the absolute epoch [Date] computes from a date and a
    time of day in range. *)
Definition absSeconds (year month day hour min sec : Z) : Z :=
  (daysSinceEpoch year + ydayOf year month day) * secondsPerDay
  + (hour * secondsPerHour + min * secondsPerMinute + sec).

(** The end of [absDate]: month and day of a day of the year. *)
Definition monthDay (leap : bool) (yday : Z) : Z * Z :=
  let day := yday in
  if leap && (day =? 31 + 29 - 1) then (2, 29)
  else
    let day := if leap && (31 + 29 - 1 <? day) then day - 1 else day in
    let month := Z.quot day 31 in
    let end_ := daysBeforeAt (month + 1) in
    let '(month, begin) :=
      if end_ <=? day then (month + 1, end_) else (month, daysBeforeAt month) in
    let month := month + 1 in
    let day := day - begin + 1 in
    (month, day).

(** Every month and day of a year goes through [monthDay] unchanged. *)
Definition monthDayCheck (leap : bool) : bool :=
  forallb (fun m =>
    forallb (fun d =>
      let yday := daysBeforeAt (m - 1)
                  + (if leap && (3 <=? m) then 1 else 0) + (d - 1) in
      let '(m', d') := monthDay leap yday in
      (m' =? m) && (d' =? d))
      (map Z.of_nat (seq 1 (Z.to_nat (if (m =? 2) && leap then 29
                                      else daysBeforeAt m - daysBeforeAt (m - 1))))))
    (map Z.of_nat (seq 1 12)).

(** The text made of fourteen bytes laid out as YYYYMMDD.HHMMSS, and what
    follows it. *)
Definition layoutText (y0 y1 y2 y3 m0 m1 d0 d1 h0 h1 i0 i1 s0 s1 : ascii)
    (rest : string) : string :=
  String y0 (String y1 (String y2 (String y3 (String m0 (String m1
  (String d0 (String d1 (String "." (String h0 (String h1 (String i0
  (String i1 (String s0 (String s1 rest)))))))))))))).

(** The number two digit bytes denote. *)
Definition two (c0 c1 : ascii) : Z := digitVal c0 * 10 + digitVal c1.

(** The number four digit bytes denote. *)
Definition year4 (c0 c1 c2 c3 : ascii) : Z :=
  ((digitVal c0 * 10 + digitVal c1) * 10 + digitVal c2) * 10 + digitVal c3.

(** What indexing the empty FileTimeSet yields for every key. *)
Definition zeroTimes : Timespec :=
  mkTimespec zeroTime zeroTime false zeroTime false zeroTime.

(** The map [getFileTimes] builds from a successful [times.Stat]. *)
Definition fileTimeSet (t : Timespec) : gmap string Time :=
  let fileTimes : gmap string Time := ∅ in
  let fileTimes := <["a"%string := AccessTime t]> fileTimes in
  let fileTimes := <["m"%string := ModTime t]> fileTimes in
  let fileTimes :=
    if HasChangeTime t then <["c"%string := ChangeTime t]> fileTimes
    else fileTimes in
  if HasBirthTime t then <["b"%string := BirthTime t]> fileTimes
  else fileTimes.

(** [Spec.groupRev] with the count of digits since the last comma made
    explicit, as the loop of the source keeps it. *)
Fixpoint groupRevK (k : nat) (rds : list ascii) : list ascii :=
  match rds with
  | [] => []
  | d :: rest =>
      d :: match rest with
           | [] => []
           | _ :: _ =>
               if (S k =? 3)%nat then ","%char :: groupRevK 0 rest
               else groupRevK (S k) rest
           end
  end.

(** ** Observations on traces and texts *)

(** The files of the calls of [os.Chtimes] in a trace, in order. *)
Definition chtimesFiles (evs : list Event) : list string :=
  flat_map (fun e => match e with
                     | CallChtimes file _ _ _ => [file]
                     | _ => []
                     end) evs.

(** The names on the name lines of a trace, in order. *)
Definition namesOf (evs : list Event) : list string :=
  flat_map (fun e => match e with
                     | OutName file => [file]
                     | _ => []
                     end) evs.

Definition isOutSize (e : Event) : bool :=
  match e with OutSize _ => true | _ => false end.

Definition isOutBlank (e : Event) : bool :=
  match e with OutBlank => true | _ => false end.

Definition isLogChtimesError (e : Event) : bool :=
  match e with LogChtimesError _ => true | _ => false end.

(** How many events of a trace satisfy a test. *)
Definition countOf (p : Event -> bool) (evs : list Event) : Z :=
  Z.of_nat (length (filter (fun e => p e = true) evs)).

(** A text without its commas. *)
Definition removeCommas (s : string) : string :=
  string_of_list_ascii
    (filter (fun c => c <> ","%char) (list_ascii_of_string s)).

(** The number of time-setting flags of an invocation: [wantChange] in
    [main]. *)
Definition wantChange (fl : Flags) : Z :=
  Z.b2z (Spec.given (argsAccess fl)) + Z.b2z (Spec.given (argsModify fl))
  + Z.b2z (Spec.given (argsBoth fl)).

(** The mode [main] hands to [setFileTime]: that of the last flag given, in
    the order access, modify, both. *)
Definition flagOp (fl : Flags) : string :=
  if Spec.given (argsBoth fl) then OpBoth
  else if Spec.given (argsModify fl) then OpModify
  else OpAccess.

(** ** More concrete inputs *)

Module Cases.

(** A directory with a file whose name reads as a pattern that matches
    another file, and a file whose name is a malformed pattern. *)
Definition table : Table.FS :=
  Table.mkFS
    (list_to_map [("[x].txt"%string, Examples.regular);
                  ("x.txt"%string, Examples.regular);
                  ("["%string, Examples.regular)])
    (list_to_map [("["%string, None);
                  ("[x].txt"%string, Some ["x.txt"%string]);
                  ("*.txt"%string, Some ["[x].txt"%string; "x.txt"%string])]).

Definition world : World Table.FS := mkWorld table [].

Definition modifyFlags (dt : string) (files : list string) : Flags :=
  mkFlags false EmptyString dt EmptyString files.

Definition bothFlags (a b : string) (files : list string) : Flags :=
  mkFlags false a EmptyString b files.

End Cases.

(** ** The codec of version 1.0.1

    [convertStr] and [createDate] as they were before [createDate] was
    written with [time.ParseInLocation]. *)

Module V1.

(** How a call ends: with a value, with the fatal message of
    [convertStr] and exit status 1, or with the panic of a slice out of
    range. *)
Inductive ending (A : Type) : Type :=
| Value (a : A)
| FatalInvalid (location s : string)
| SlicePanic.
Arguments Value {A} a.
Arguments FatalInvalid {A} location s.
Arguments SlicePanic {A}.

#[global] Instance ending_bind : MBind ending := fun A B f r =>
  match r with
  | Value a => f a
  | FatalInvalid location s => FatalInvalid location s
  | SlicePanic => SlicePanic
  end.

(** [s[lo:hi]] on a string: panics unless [lo <= hi <= len(s)]. *)
Definition slice (s : string) (lo hi : nat) : ending string :=
  if (lo <=? hi)%nat && (hi <=? String.length s)%nat
  then Value (String.substring lo (hi - lo) s)
  else SlicePanic.

(** The digit loop of [strconv.Atoi]: [ch -= '0'] on a byte, then the
    test [ch > 9]. *)
Fixpoint atoiDigits (s : string) (n : Z) : option Z :=
  match s with
  | EmptyString => Some n
  | String ch rest =>
      let ch := (Z.of_nat (nat_of_ascii ch) - 48) mod 256 in
      if 9 <? ch then None else atoiDigits rest (n * 10 + ch)
  end.

(** [strconv.Atoi]: an optional sign, then one or more decimal digits;
    [None] is its error.  Texts of up to 18 bytes take the fast path of the
    library, which cannot overflow; longer ones go through [ParseInt],
    which also refuses the numbers outside of int64. *)
Definition Atoi (s : string) : option Z :=
  match s with
  | EmptyString => None
  | String c rest =>
      let neg := Ascii.eqb c "-" in
      let body := if neg || Ascii.eqb c "+" then rest else s in
      match body with
      | EmptyString => None
      | _ =>
          n ← atoiDigits body 0;
          let n := if neg then - n else n in
          if inInt64 n then Some n else None
      end
  end.

Definition convertStr (location s : string) : ending Z :=
  match Atoi s with
  | Some i => Value i
  | None => FatalInvalid location s
  end.

Section Codec.
Context {FS : Type} `{!OS FS}.

Definition createDate (dt : string) : ending Time :=
  year ← (s ← slice dt 0 4; convertStr "year" s);
  month ← (s ← slice dt 4 6; convertStr "month" s);
  day ← (s ← slice dt 6 8; convertStr "day" s);
  hour ← (s ← slice dt 9 11; convertStr "hour" s);
  minute ← (s ← slice dt 11 13; convertStr "minute" s);
  second ← (s ← slice dt 13 15; convertStr "second" s);
  Value (Date year month day hour minute second 0 Local).

End Codec.

End V1.

(** * Proofs *)

(** ** FormatWithCommas *)

Section FormatWithCommasProofs.

Import Spec.

Lemma groupRevK_groupRev_aux (n : nat) :
  forall rds, (length rds <= n)%nat -> groupRevK 0 rds = groupRev rds.
Proof.
  induction n as [n IH] using lt_wf_ind. intros rds Hlen.
  destruct rds as [|a [|b [|c [|d rest]]]]; try reflexivity.
  change (groupRevK 0 (a :: b :: c :: d :: rest))
    with (a :: b :: c :: ","%char :: groupRevK 0 (d :: rest)).
  change (groupRev (a :: b :: c :: d :: rest))
    with (a :: b :: c :: ","%char :: groupRev (d :: rest)).
  do 4 f_equal.
  apply (IH (length (d :: rest))); cbn [length] in *; lia.
Qed.

Lemma groupRevK_groupRev rds : groupRevK 0 rds = groupRev rds.
Proof. by apply (groupRevK_groupRev_aux (length rds)). Qed.

Lemma groupRevK_cons2 k d e rest :
  groupRevK k (d :: e :: rest) =
  d :: (if (S k =? 3)%nat then ","%char :: groupRevK 0 (e :: rest)
        else groupRevK (S k) (e :: rest)).
Proof. reflexivity. Qed.

Lemma groupRevK_length rds :
  forall k, (k < 3)%nat -> rds <> [] ->
  length (groupRevK k rds) = (length rds + (length rds - 1 + k) / 3)%nat.
Proof.
  induction rds as [|d rest IH]; intros k Hk Hne; [done|].
  destruct rest as [|e rest'].
  - cbn. destruct k as [|[|[|?]]]; try lia; reflexivity.
  - rewrite groupRevK_cons2. destruct (Nat.eqb_spec (S k) 3) as [E|E].
    + cbn [length]. rewrite IH by (lia || done). cbn [length].
      assert (k = 2)%nat as -> by lia.
      replace (S (S (length rest')) - 1 + 2)%nat with (1 * 3 + (S (length rest') - 1 + 0))%nat by lia.
      rewrite Nat.div_add_l by lia. lia.
    + cbn [length]. rewrite IH by (lia || done). cbn [length].
      replace (S (S (length rest')) - 1 + k)%nat with (S (length rest') - 1 + S k)%nat by lia.
      lia.
Qed.

Lemma get_lookup s : forall n, String.get n s = list_ascii_of_string s !! n.
Proof.
  induction s as [|c s IH]; intros [|n]; cbn; auto.
Qed.

Lemma index_lookup ds (i : nat) :
  index (string_of_list_ascii ds) (Z.of_nat i) = ds !! i.
Proof.
  unfold index. destruct (Z.ltb_spec (Z.of_nat i) 0) as [?|_]; [lia|].
  by rewrite get_lookup, list_ascii_of_string_of_list_ascii, Nat2Z.id.
Qed.

Lemma store_insert (out : list ascii) (j : nat) c :
  (j < length out)%nat -> store out (Z.of_nat j) c = Some (<[j := c]> out).
Proof.
  intros Hj. unfold store.
  destruct (Z.leb_spec 0 (Z.of_nat j)); [|lia].
  destruct (Z.ltb_spec (Z.of_nat j) (Z.of_nat (length out))); [|lia].
  by rewrite Nat2Z.id.
Qed.

(** The loop writes, from the right, the grouped digits [0..i] of the
    input into the [length w] bytes that end at [j], and leaves the rest
    of the output as it is. *)
Lemma commaLoop_spec (ds : list ascii) :
  forall (i k j : nat) (out : list ascii) (base fuel : nat),
    (i < length ds)%nat -> (k < 3)%nat -> (i < fuel)%nat ->
    (j + 1 = base + length (groupRevK k (rev (take (S i) ds))))%nat ->
    (j < length out)%nat ->
    commaLoop fuel (string_of_list_ascii ds) (Z.of_nat i) (Z.of_nat j) (Z.of_nat k) out
    = Ok (string_of_list_ascii
            (take base out ++ rev (groupRevK k (rev (take (S i) ds)))
               ++ drop (j + 1) out)).
Proof.
  induction i as [|i IH]; intros k j out base fuel Hi Hk Hfuel Hj Hout;
    (destruct fuel as [|fuel]; [lia|]);
    destruct (lookup_lt_is_Some_2 ds _ Hi) as [d Hd];
    cbn [commaLoop]; rewrite index_lookup, Hd; cbn [ofOption mbind result_bind];
    rewrite store_insert by done; cbn [ofOption mbind result_bind].
  - rewrite (take_S_r _ _ _ Hd), take_0 in *. cbn in Hj. cbn [app rev groupRevK].
    assert (j = base) as -> by lia.
    cbn [Z.of_nat Z.eqb]. do 2 f_equal.
    rewrite insert_take_drop by done. by rewrite Nat.add_1_r.
  - rewrite (take_S_r _ _ _ Hd) in *. rewrite rev_unit in *.
    assert (Hrest : length (rev (take (S i) ds)) = S i).
    { rewrite length_rev, length_take. lia. }
    destruct (rev (take (S i) ds)) as [|e rest] eqn:Erest; [done|].
    assert (Hpos : forall k', (1 <= length (groupRevK k' (e :: rest)))%nat).
    { intros k'. cbn [groupRevK length]. lia. }
    rewrite groupRevK_cons2 in *.
    destruct (Z.eqb_spec (Z.of_nat (S i)) 0) as [?|_]; [lia|].
    replace (Z.of_nat (S i) - 1) with (Z.of_nat i) by lia.
    revert Hj. destruct (Nat.eqb_spec (S k) 3) as [E|E]; intros Hj.
    + destruct (Z.eqb_spec (Z.of_nat k + 1) 3) as [_|?]; [|lia].
      cbn [length] in Hj. specialize (Hpos 0%nat).
      assert (Z.of_nat j - 1 = Z.of_nat (j - 1)) as -> by lia.
      rewrite store_insert by (rewrite length_insert; lia).
      cbn [ofOption mbind result_bind].
      assert (Z.of_nat (j - 1) - 1 = Z.of_nat (j - 2)) as -> by lia.
      change 0 with (Z.of_nat 0).
      rewrite (IH 0%nat (j - 2)%nat _ base) by (rewrite ?length_insert; cbn [length]; lia).
      do 2 f_equal.
      rewrite !take_insert_ge by lia. f_equal.
      cbn [rev]. rewrite <- !app_assoc. f_equal. cbn [app].
      replace (j - 2 + 1)%nat with (j - 1)%nat by lia.
      destruct (lookup_lt_is_Some_2 out (j - 1)%nat ltac:(lia)) as [a Ha].
      destruct (lookup_lt_is_Some_2 out j ltac:(lia)) as [b Hb].
      rewrite drop_insert_ge, drop_insert_ge by lia.
      rewrite (drop_S out a (j - 1)) by done.
      replace (S (j - 1)) with j by lia.
      rewrite (drop_S out b j) by done.
      replace (j - 1 - (j - 1))%nat with 0%nat by lia.
      replace (j - (j - 1))%nat with 1%nat by lia.
      cbn. by rewrite Nat.add_1_r.
    + destruct (Z.eqb_spec (Z.of_nat k + 1) 3) as [?|_]; [lia|].
      cbn [length] in Hj. specialize (Hpos (S k)).
      assert (Z.of_nat j - 1 = Z.of_nat (j - 1)) as -> by lia.
      assert (Z.of_nat k + 1 = Z.of_nat (S k)) as -> by lia.
      rewrite (IH (S k) (j - 1)%nat _ base) by (rewrite ?length_insert; cbn [length] in *; lia).
      do 2 f_equal.
      rewrite !take_insert_ge by (cbn [length] in *; lia). f_equal.
      cbn [rev]. rewrite <- !app_assoc. f_equal. cbn [app].
      replace (j - 1 + 1)%nat with j by (cbn [length] in *; lia).
      destruct (lookup_lt_is_Some_2 out j ltac:(lia)) as [b Hb].
      rewrite drop_insert_ge by lia.
      rewrite (drop_S out b j) by done.
      replace (j - j)%nat with 0%nat by lia.
      cbn. by rewrite Nat.add_1_r.
Qed.

Lemma digit_cases (d : Z) :
  0 <= d < 10 ->
  isDigitByte (digitByte d) = true /\ digitVal (digitByte d) = d /\
  (digitByte d = "0"%char -> d = 0).
Proof.
  intros Hd.
  assert (d = 0 \/ d = 1 \/ d = 2 \/ d = 3 \/ d = 4 \/ d = 5 \/ d = 6 \/
          d = 7 \/ d = 8 \/ d = 9) as Hc by lia.
  repeat destruct Hc as [->|Hc]; try subst d; repeat split; done.
Qed.

Lemma valueOf_snoc ds c : valueOf (ds ++ [c]) = valueOf ds * 10 + digitVal c.
Proof. unfold valueOf. by rewrite fold_left_app. Qed.

Lemma formatBits_spec (fuel : nat) :
  forall u acc, 0 <= u < 10 ^ Z.of_nat fuel -> (0 < fuel)%nat ->
  exists ds, strconv.formatBits fuel u acc = ds ++ acc /\ decimalOf u ds.
Proof.
  induction fuel as [|fuel IH]; intros u acc Hu Hfuel; [lia|].
  cbn [strconv.formatBits]. destruct (Z.leb_spec 10 u) as [Hge|Hlt].
  - assert (Hq : 0 <= u / 10 < 10 ^ Z.of_nat fuel).
    { rewrite Nat2Z.inj_succ, Z.pow_succ_r in Hu by lia.
      split; [apply Z.div_pos; lia|apply Z.div_lt_upper_bound; lia]. }
    assert (Hfuel' : (0 < fuel)%nat).
    { destruct fuel; [|lia]. cbn in Hq. assert (u / 10 = 0) by lia.
      assert (u < 10) by (apply Z.div_small_iff in H; lia). lia. }
    destruct (IH (u / 10) (digitByte (u - u / 10 * 10) :: acc) Hq Hfuel')
      as (ds & -> & Hall & Hval & Hne & Hlead).
    assert (Hr : 0 <= u - u / 10 * 10 < 10).
    { pose proof (Z.mod_pos_bound u 10 ltac:(lia)) as Hm.
      rewrite Z.mod_eq in Hm by lia. lia. }
    destruct (digit_cases _ Hr) as (Hd1 & Hd2 & _).
    exists (ds ++ [digitByte (u - u / 10 * 10)]). split; [by rewrite <- app_assoc|].
    repeat split.
    + apply Forall_app; split; [done|]. by constructor.
    + rewrite valueOf_snoc, Hval, Hd2. lia.
    + by destruct ds.
    + intros rest Hrest. destruct ds as [|c ds]; [done|].
      injection Hrest as -> _. specialize (Hlead ds eq_refl). subst ds.
      change (valueOf ["0"%char]) with 0 in Hval.
      assert (1 <= u / 10) by (apply Z.div_le_lower_bound; lia). lia.
  - destruct (digit_cases u ltac:(lia)) as (Hd1 & Hd2 & Hd3).
    exists [digitByte u]. split; [done|]. repeat split.
    + by constructor.
    + cbn. lia.
    + done.
    + intros rest Hrest. by injection Hrest.
Qed.

Lemma digits_decimalOf u : 0 <= u < 10 ^ 20 -> decimalOf u (strconv.digits u).
Proof.
  intros Hu. destruct (formatBits_spec 20 u [] ltac:(cbn; lia) ltac:(lia))
    as (ds & E & H).
  unfold strconv.digits. by rewrite E, app_nil_r.
Qed.

Lemma length_string_of_list_ascii l :
  String.length (string_of_list_ascii l) = length l.
Proof. induction l; cbn; congruence. Qed.

Lemma sliceFrom_1 c s : sliceFrom (String c s) 1 = s.
Proof.
  unfold sliceFrom. change (Z.to_nat 1) with 1%nat.
  cbn [String.length Nat.sub substring]. rewrite Nat.sub_0_r.
  induction s as [|c' s IH]; cbn; [done|]. by rewrite IH.
Qed.

Lemma commaLoop_whole (ds pre : list ascii) :
  ds <> [] ->
  let out := pre ++ replicate (length ds + (length ds - 1) / 3) zero in
  commaLoop (S (Z.to_nat (len (string_of_list_ascii ds))))
    (string_of_list_ascii ds) (len (string_of_list_ascii ds) - 1)
    (Z.of_nat (length out) - 1) 0 out
  = Ok (string_of_list_ascii (pre ++ groupThousands ds)).
Proof.
  intros Hne out. unfold len. rewrite length_string_of_list_ascii, Nat2Z.id.
  assert (Hlen : (0 < length ds)%nat) by (destruct ds; cbn; [done|lia]).
  assert (Hrev : rev ds <> []).
  { intros E. apply (f_equal (@length _)) in E. rewrite length_rev in E. cbn in E. lia. }
  assert (Hout : length out = (length pre + (length ds + (length ds - 1) / 3))%nat).
  { unfold out. by rewrite length_app, length_replicate. }
  assert (Z.of_nat (length ds) - 1 = Z.of_nat (length ds - 1)) as -> by lia.
  assert (Z.of_nat (length out) - 1 = Z.of_nat (length out - 1)) as -> by lia.
  change 0 with (Z.of_nat 0).
  assert (Htake : take (S (length ds - 1)) ds = ds) by (apply take_ge; lia).
  rewrite (commaLoop_spec ds _ _ _ _ (length pre)); rewrite ?Htake; try lia.
  - do 2 f_equal. unfold out at 1. rewrite take_app_length.
    rewrite drop_ge by lia. rewrite app_nil_r.
    unfold groupThousands. by rewrite groupRevK_groupRev.
  - rewrite groupRevK_length, length_rev by (lia || done). rewrite Nat.add_0_r. lia.
Qed.

Lemma commas_count (L : nat) (extra : Z) :
  (0 < L)%nat -> 0 <= extra ->
  Z.to_nat (Z.of_nat L + extra + Z.quot (Z.of_nat L - 1) 3)
  = (Z.to_nat extra + (L + (L - 1) / 3))%nat.
Proof.
  intros HL He. rewrite Z.quot_div_nonneg by lia.
  assert (Z.of_nat L - 1 = Z.of_nat (L - 1)) as -> by lia.
  change 3 with (Z.of_nat 3). rewrite <- (Nat2Z.inj_div (L - 1) 3). lia.
Qed.

Lemma len_cons c l :
  len (String c (string_of_list_ascii l)) = Z.of_nat (S (length l)).
Proof. unfold len. cbn. by rewrite length_string_of_list_ascii. Qed.

Lemma len_string l : len (string_of_list_ascii l) = Z.of_nat (length l).
Proof. unfold len. by rewrite length_string_of_list_ascii. Qed.

Lemma int64_range (n : int64) : - 2 ^ 63 <= n < 2 ^ 63.
Proof.
  destruct n as [n Hn]. cbn. unfold inInt64 in Hn.
  apply Is_true_true, andb_true_iff in Hn. lia.
Qed.

Lemma FormatWithCommas_grouped_digits (n : int64) :
  FormatWithCommas n = Ok (grouped n (strconv.digits (Z.abs n))).
Proof.
  pose proof (int64_range n) as Hn. unfold FormatWithCommas, strconv.FormatInt, grouped.
  destruct (Z.ltb_spec n 0) as [Hneg|Hpos].
  - rewrite Z.abs_neq by lia. set (ds := strconv.digits (- n)).
    destruct (digits_decimalOf (- n) ltac:(lia)) as (_ & _ & Hne & _). fold ds in Hne.
    assert (HL : (0 < length ds)%nat) by (destruct ds; cbn; [done|lia]).
    cbv zeta. rewrite !len_cons. unfold makeBytes.
    replace (Z.of_nat (S (length ds)) + Z.quot (Z.of_nat (S (length ds)) - 1 - 1) 3)
      with (Z.of_nat (length ds) + 1 + Z.quot (Z.of_nat (length ds) - 1) 3)
      by (f_equal; [|f_equal]; lia).
    rewrite commas_count by lia. change (Z.to_nat 1) with 1%nat.
    cbn [Nat.add replicate].
    set (R := replicate (length ds + (length ds - 1) / 3) zero).
    assert (Hs : store (zero :: R) 0 "-" = Some ("-"%char :: R)).
    { apply (store_insert (zero :: R) 0). cbn [length]. lia. }
    rewrite Hs. cbn [ofOption mbind result_bind]. rewrite sliceFrom_1.
    exact (commaLoop_whole ds ["-"%char] Hne).
  - rewrite Z.abs_eq by lia. set (ds := strconv.digits n).
    destruct (digits_decimalOf n ltac:(lia)) as (_ & _ & Hne & _). fold ds in Hne.
    assert (HL : (0 < length ds)%nat) by (destruct ds; cbn; [done|lia]).
    cbv zeta. rewrite !len_string. unfold makeBytes.
    replace (Z.of_nat (length ds) + Z.quot (Z.of_nat (length ds) - 1) 3)
      with (Z.of_nat (length ds) + 0 + Z.quot (Z.of_nat (length ds) - 1) 3) by lia.
    rewrite commas_count by lia. change (Z.to_nat 0) with 0%nat.
    cbn [Nat.add mbind result_bind].
    exact (commaLoop_whole ds [] Hne).
Qed.

End FormatWithCommasProofs.

(** C9.  For every int64 [n], [FormatWithCommas n] returns normally, and
    its text is the decimal digits of the absolute value of [n], grouped in
    threes from the right with commas, after a minus sign when [n] is
    negative (no comma follows the sign).  In particular 0, 999, 1000,
    1234567890 and -1234567 give the texts of the specification. *)
Theorem FormatWithCommas_correct :
  (forall n : int64,
     FormatWithCommas n = Ok (Spec.grouped n (strconv.digits (Z.abs n))) /\
     Spec.decimalOf (Z.abs n) (strconv.digits (Z.abs n))) /\
  FormatWithCommas (mkInt64 0 I) = Ok "0"%string /\
  FormatWithCommas (mkInt64 999 I) = Ok "999"%string /\
  FormatWithCommas (mkInt64 1000 I) = Ok "1,000"%string /\
  FormatWithCommas (mkInt64 1234567890 I) = Ok "1,234,567,890"%string /\
  FormatWithCommas (mkInt64 (-1234567) I) = Ok "-1,234,567"%string.
Proof.
  split; [|repeat split; reflexivity].
  intros n. split; [apply FormatWithCommas_grouped_digits|].
  pose proof (int64_range n). apply digits_decimalOf. lia.
Qed.

(** ** The program on an arbitrary operating system *)

Section ProgramProofs.

Context {FS : Type} `{!OS FS}.
Import Spec.

Ltac run :=
  unfold mbind, M_bind, mret, M_ret, callGlob, callStat, callTimesStat,
    fatal, emit, exit, liftResult;
  cbn [fs trace fst snd].

Ltac finish :=
  f_equal;
  first [ f_equal; lia
        | f_equal; rewrite <- ?app_assoc; cbn [app]; done ].

Lemma world_eta (w : World FS) : mkWorld (fs w) (trace w) = w.
Proof. by destruct w. Qed.

(** *** expandGlobs *)

Lemma expandGlobsLoop_run (args : list string) :
  forall (acc : list string) (w : World FS),
    expandGlobsLoop args acc w
    = (Normal (acc ++ resolve (fs w) args),
       mkWorld (fs w) (trace w ++ globLogs (fs w) args)).
Proof.
  induction args as [|glob rest IH]; intros acc w; cbn [expandGlobsLoop].
  - cbn. run. by rewrite !app_nil_r, world_eta.
  - cbn [resolve globLogs flat_map]. unfold resolveOne. run.
    destruct (Glob (fs w) glob) as [[|g globbed]|] eqn:EG.
    + cbn [length Nat.ltb Nat.leb]. run.
      destruct (Stat (fs w) glob) as [fi|] eqn:ES; rewrite IH; cbn [fs trace];
        by rewrite <- ?app_assoc.
    + cbn [length Nat.ltb Nat.leb]. rewrite IH. by rewrite <- ?app_assoc.
    + rewrite IH. cbn [fs trace]. by rewrite <- ?app_assoc.
Qed.

Lemma expandGlobs_run (args : list string) (w : World FS) :
  expandGlobs args w
  = (Normal (resolve (fs w) args),
     mkWorld (fs w) (trace w ++ globLogs (fs w) args)).
Proof. unfold expandGlobs. by rewrite expandGlobsLoop_run. Qed.

(** *** getFileTimes *)

Lemma getFileTimes_run (file : string) (w : World FS) :
  getFileTimes file w =
  match timesStat (fs w) file with
  | Some t => (Normal (fileTimeSet t), w)
  | None => (Normal ∅, mkWorld (fs w) (trace w ++ [LogGetFileTimesError file]))
  end.
Proof.
  unfold getFileTimes. run. destruct (timesStat (fs w) file) as [t|]; [|done].
  unfold fileTimeSet. by destruct (HasChangeTime t), (HasBirthTime t).
Qed.

Lemma fileTimeSet_lookup (t : Timespec) :
  fileTimeSet t !! "a"%string = Some (AccessTime t) /\
  fileTimeSet t !! "m"%string = Some (ModTime t) /\
  fileTimeSet t !! "c"%string
    = (if HasChangeTime t then Some (ChangeTime t) else None) /\
  fileTimeSet t !! "b"%string
    = (if HasBirthTime t then Some (BirthTime t) else None) /\
  (forall k, is_Some (fileTimeSet t !! k) ->
             k = "a"%string \/ k = "m"%string \/ k = "c"%string \/ k = "b"%string).
Proof.
  unfold fileTimeSet.
  destruct (HasChangeTime t), (HasBirthTime t); repeat split;
    try (by simplify_map_eq);
    intros k [x Hk];
    repeat (apply lookup_insert_Some in Hk as [[<- _]|[_ Hk]]; [by eauto|]);
    by rewrite lookup_empty in Hk.
Qed.

(** C7.  The FileTimeSet [getFileTimes] returns is empty when the
    metadata query failed; otherwise it holds the access and the modify
    time under the keys [a] and [m], holds the key [c] (the change time)
    exactly when [HasChangeTime] says so and the key [b] (the birth time)
    exactly when [HasBirthTime] says so, and holds no other key.  The file
    system is left as it was. *)
Theorem getFileTimes_mandatory_keys (file : string) (w : World FS) :
  exists (m : gmap string Time) (w' : World FS),
    getFileTimes file w = (Normal m, w') /\ fs w' = fs w /\
    ((timesStat (fs w) file = None /\ m = ∅) \/
     (exists t, timesStat (fs w) file = Some t /\
        m !! "a"%string = Some (AccessTime t) /\
        m !! "m"%string = Some (ModTime t) /\
        (is_Some (m !! "c"%string) <-> HasChangeTime t = true) /\
        (is_Some (m !! "b"%string) <-> HasBirthTime t = true) /\
        (forall x, m !! "c"%string = Some x -> x = ChangeTime t) /\
        (forall x, m !! "b"%string = Some x -> x = BirthTime t) /\
        (forall k, is_Some (m !! k) ->
           k = "a"%string \/ k = "m"%string \/ k = "c"%string \/ k = "b"%string))).
Proof.
  rewrite getFileTimes_run. destruct (timesStat (fs w) file) as [t|] eqn:E.
  - exists (fileTimeSet t), w. split; [done|]. split; [done|]. right. exists t.
    destruct (fileTimeSet_lookup t) as (Ha & Hm & Hc & Hb & Hk).
    rewrite Ha, Hm, Hc, Hb. repeat split; try done.
    + destruct (HasChangeTime t); [done|]. by intros [? ?].
    + destruct (HasChangeTime t); [by eauto|done].
    + destruct (HasBirthTime t); [done|]. by intros [? ?].
    + destruct (HasBirthTime t); [by eauto|done].
    + destruct (HasChangeTime t); congruence.
    + destruct (HasBirthTime t); congruence.
  - eexists _, _. split; [done|]. split; [done|]. by left.
Qed.

(** *** showFileTimes *)

Lemma countStatOk_cons (t : FS) (file : string) (rest : list string) :
  countStatOk t (file :: rest)
  = (if statOk t file then 1 else 0) + countStatOk t rest.
Proof.
  unfold countStatOk.
  destruct (statOk t file) eqn:E;
    [rewrite filter_cons_True by done|rewrite filter_cons_False by congruence];
    rewrite ?length_cons; lia.
Qed.

Lemma showFileTimesLoop_run (files : list string) :
  forall (count : Z) (w : World FS),
    showFileTimesLoop files count w
    = (Normal (count + countStatOk (fs w) files),
       mkWorld (fs w) (trace w ++ flat_map (fileEvents (fs w)) files)).
Proof.
  induction files as [|file rest IH]; intros count w; cbn [showFileTimesLoop].
  - run. unfold countStatOk. cbn. by rewrite Z.add_0_r, app_nil_r, world_eta.
  - run. rewrite countStatOk_cons. cbn [flat_map]. unfold fileEvents at 1, statOk.
    destruct (Stat (fs w) file) as [fi|] eqn:ES.
    + rewrite FormatWithCommas_grouped_digits. rewrite getFileTimes_run.
      cbn [fs trace]. unfold timeLines.
      destruct (timesStat (fs w) file) as [t|] eqn:ET.
      * destruct (fileTimeSet_lookup t) as (Ha & Hm & Hc & Hb & _).
        unfold mapIndex, emitIfFound. rewrite Ha, Hm, Hc, Hb.
        destruct (HasBirthTime t), (HasChangeTime t); run; rewrite IH; cbn [fs trace];
          finish.
      * unfold mapIndex, emitIfFound. rewrite !lookup_empty.
        run. rewrite IH; cbn [fs trace].
        finish.
    + rewrite IH. cbn [fs trace].
      finish.
Qed.

Lemma showFileTimes_run (args : list string) (w : World FS) :
  showFileTimes args w
  = (Normal (countStatOk (fs w) (resolve (fs w) args)),
     mkWorld (fs w)
       (trace w ++ globLogs (fs w) args
          ++ flat_map (fileEvents (fs w)) (resolve (fs w) args))).
Proof.
  unfold showFileTimes. run. rewrite expandGlobs_run, showFileTimesLoop_run.
  cbn [fs trace]. by rewrite <- app_assoc.
Qed.

(** *** setFileTime *)

Lemma globLogs_no_chtimes (t : FS) (l : list string) :
  Forall (fun e => isChtimes e = false) (globLogs t l).
Proof.
  unfold globLogs. induction l as [|p l IH]; cbn [flat_map]; [constructor|].
  apply Forall_app; split; [|done]. destruct (Glob t p); repeat constructor.
Qed.

Lemma fileEvents_no_chtimes (t : FS) (l : list string) :
  Forall (fun e => isChtimes e = false) (flat_map (fileEvents t) l).
Proof.
  induction l as [|f l IH]; cbn [flat_map]; [constructor|].
  apply Forall_app; split; [|done]. unfold fileEvents, timeLines.
  destruct (Stat t f); [|repeat constructor].
  destruct (timesStat t f) as [ts|]; [|repeat constructor].
  destruct (HasBirthTime ts), (HasChangeTime ts); repeat constructor.
Qed.

Lemma pairFor_access n c : pairFor OpAccess n c = (n, ModTime c).
Proof. reflexivity. Qed.
Lemma pairFor_modify n c : pairFor OpModify n c = (AccessTime c, n).
Proof. reflexivity. Qed.
Lemma pairFor_both n c : pairFor OpBoth n c = (n, n).
Proof. reflexivity. Qed.

Lemma setFileTimeBody_run (newTime : Time) (op file : string) (w : World FS) :
  validOp op ->
  let cur := timesStat (fs w) file in
  let pr := pairFor op newTime (default zeroTimes cur) in
  let logs := match cur with
              | None => [LogGetFileTimesError file]
              | Some _ => []
              end in
  setFileTimeBody newTime op file w =
  match Chtimes (fs w) file (fst pr) (snd pr) with
  | Some t' =>
      (Normal tt,
       mkWorld t' (trace w ++ logs ++
                   CallChtimes file (fst pr) (snd pr) true ::
                   globLogs t' [file] ++ flat_map (fileEvents t') (resolve t' [file])))
  | None =>
      (Normal tt,
       mkWorld (fs w) (trace w ++ logs ++
                       [CallChtimes file (fst pr) (snd pr) false;
                        LogChtimesError file]))
  end.
Proof.
  intros Hop. cbv zeta. unfold setFileTimeBody. run. rewrite getFileTimes_run.
  destruct (timesStat (fs w) file) as [t|] eqn:ET; cbn [from_option id fs trace].
  - destruct (fileTimeSet_lookup t) as (Ha & Hm & _).
    unfold mapIndex. rewrite Ha, Hm. cbn [from_option id].
    destruct Hop as [-> | [-> | ->]]; cbn [String.eqb Ascii.eqb Bool.eqb OpModify OpAccess OpBoth];
      rewrite ?pairFor_access, ?pairFor_modify, ?pairFor_both;
      cbn [fst snd]; unfold callChtimes;
      match goal with |- context [Chtimes ?a ?b ?c ?d] => destruct (Chtimes a b c d) end;
      cbn [fs trace]; run; rewrite ?showFileTimes_run; cbn [fs trace];
      finish.
  - unfold mapIndex. rewrite !lookup_empty. cbn [from_option id].
    destruct Hop as [-> | [-> | ->]]; cbn [String.eqb Ascii.eqb Bool.eqb OpModify OpAccess OpBoth];
      rewrite ?pairFor_access, ?pairFor_modify, ?pairFor_both;
      cbn [fst snd zeroTimes AccessTime ModTime]; unfold callChtimes; cbn [fs trace];
      match goal with |- context [Chtimes ?a ?b ?c ?d] => destruct (Chtimes a b c d) end;
      cbn [fs trace]; run; rewrite ?showFileTimes_run; cbn [fs trace];
      finish.
Qed.

Lemma setFileTime_parse_failure
    (args : list string) (dt op : string) (e : ParseError) (w : World FS) :
  createDate dt = Failed e ->
  setFileTime args dt op w
  = (Exit 1, mkWorld (fs w) (trace w ++ [FatalParseDate dt e])).
Proof. intros E. unfold setFileTime. rewrite E. by run. Qed.

Lemma setFileTime_parsed
    (args : list string) (dt op : string) (newTime : Time) (w : World FS) :
  createDate dt = Parsed newTime ->
  setFileTime args dt op w
  = setFileTimeLoop newTime op (resolve (fs w) args)
      (mkWorld (fs w) (trace w ++ globLogs (fs w) args)).
Proof. intros E. unfold setFileTime. rewrite E. run. by rewrite expandGlobs_run. Qed.

Lemma chtimesOf_app (a b : list Event) :
  chtimesOf (a ++ b) = chtimesOf a ++ chtimesOf b.
Proof. unfold chtimesOf. apply filter_app. Qed.

Lemma chtimesOf_none (evs : list Event) :
  Forall (fun e => isChtimes e = false) evs -> chtimesOf evs = [].
Proof.
  unfold chtimesOf. induction 1 as [|e evs He _ IH]; [done|].
  by rewrite filter_cons_False by congruence.
Qed.

(** The loop of [setFileTime] under a mode it knows: it returns, and the
    calls of [os.Chtimes] it makes are one for each file of its list, in
    order, each with the pair the mode asks for given what [times.Stat]
    returns in the state the call is made in. *)
Lemma setFileTimeLoop_steps (newTime : Time) (op : string) (files : list string) :
  validOp op ->
  forall w : World FS,
  exists (evs : list Event) (calls : list (Call FS)) (tf : FS),
    setFileTimeLoop newTime op files w
    = (Normal tt, mkWorld tf (trace w ++ evs)) /\
    chtimesOf evs = map callEvent calls /\
    map c_file calls = files /\
    chained (fs w) calls tf /\
    Forall (fun c =>
              (c_atime c, c_mtime c)
              = pairFor op newTime
                  (default zeroTimes (timesStat (c_state c) (c_file c))))
           calls.
Proof.
  intros Hop. induction files as [|file files IH]; intros w.
  - exists [], [], (fs w). cbn [setFileTimeLoop]. run.
    rewrite app_nil_r, world_eta. by split_and!.
  - cbn [setFileTimeLoop]. run.
    pose proof (setFileTimeBody_run newTime op file w Hop) as Hrun.
    cbv zeta in Hrun. rewrite Hrun. clear Hrun.
    set (cur := timesStat (fs w) file).
    set (pr := pairFor op newTime (default zeroTimes cur)).
    set (logs := match cur with
                 | Some _ => []
                 | None => [LogGetFileTimesError file]
                 end).
    assert (Hlogs : chtimesOf logs = []).
    { unfold logs. by destruct cur. }
    assert (Hpr : pr = (fst pr, snd pr)) by by destruct pr.
    destruct (Chtimes (fs w) file (fst pr) (snd pr)) as [t1|] eqn:EC.
    + match goal with |- context [setFileTimeLoop _ _ _ ?w1] =>
        destruct (IH w1) as (evs & calls & tf & -> & Hevs & Hfiles & Hch & Hall)
      end.
      cbn [fs trace] in *.
      eexists _, (mkCall (fs w) file (fst pr) (snd pr) true :: calls), tf.
      rewrite <- app_assoc. split; [reflexivity|].
      split_and!.
      * rewrite !chtimesOf_app, Hlogs.
        change (CallChtimes file (fst pr) (snd pr) true :: ?l)
          with ([CallChtimes file (fst pr) (snd pr) true] ++ l).
        rewrite !chtimesOf_app, Hevs.
        rewrite (chtimesOf_none _ (globLogs_no_chtimes t1 [file])).
        rewrite (chtimesOf_none _ (fileEvents_no_chtimes t1 (resolve t1 [file]))).
        reflexivity.
      * cbn [map c_file]. by rewrite Hfiles.
      * cbn [chained c_state c_ok c_file c_atime c_mtime].
        split; [done|]. by exists t1.
      * constructor; [|done]. cbn [c_atime c_mtime c_state c_file]. by rewrite <- Hpr.
    + match goal with |- context [setFileTimeLoop _ _ _ ?w1] =>
        destruct (IH w1) as (evs & calls & tf & -> & Hevs & Hfiles & Hch & Hall)
      end.
      cbn [fs trace] in *.
      eexists _, (mkCall (fs w) file (fst pr) (snd pr) false :: calls), tf.
      rewrite <- app_assoc. split; [reflexivity|].
      split_and!.
      * rewrite !chtimesOf_app, Hlogs, Hevs. reflexivity.
      * cbn [map c_file]. by rewrite Hfiles.
      * cbn [chained c_state c_ok c_file c_atime c_mtime]. by split.
      * constructor; [|done]. cbn [c_atime c_mtime c_state c_file]. by rewrite <- Hpr.
Qed.

Lemma setFileTime_steps
    (args : list string) (dt op : string) (newTime : Time) (w : World FS) :
  validOp op ->
  createDate dt = Parsed newTime ->
  exists (evs : list Event) (calls : list (Call FS)) (tf : FS),
    setFileTime args dt op w = (Normal tt, mkWorld tf (trace w ++ evs)) /\
    chtimesOf evs = map callEvent calls /\
    map c_file calls = resolve (fs w) args /\
    chained (fs w) calls tf /\
    Forall (fun c =>
              (c_atime c, c_mtime c)
              = pairFor op newTime
                  (default zeroTimes (timesStat (c_state c) (c_file c))))
           calls.
Proof.
  intros Hop Hdt. rewrite (setFileTime_parsed _ _ _ _ _ Hdt).
  match goal with |- context [setFileTimeLoop _ _ ?files ?w1] =>
    destruct (setFileTimeLoop_steps newTime op files Hop w1)
      as (evs & calls & tf & -> & Hevs & Hfiles & Hch & Hall) end.
  cbn [fs trace] in *. eexists _, calls, tf. rewrite <- app_assoc.
  split; [reflexivity|]. split_and!; try done.
  rewrite chtimesOf_app, Hevs.
  by rewrite (chtimesOf_none _ (globLogs_no_chtimes (fs w) args)).
Qed.

(** C1.  With a mode it knows and a text that is parsed, [setFileTime]
    returns, and the calls of [os.Chtimes] it makes are exactly one for
    every target [expandGlobs] resolves, in that order, made one after the
    other.  For every target whose current times [cur] were read
    successfully in the state its call is made in, the call carries the
    pair the mode determines: (new instant, current modify time) for
    access-only, (current access time, new instant) for modify-only, (new
    instant, new instant) for both; the field the mode does not name is
    given the current value of the file. *)
Theorem setFileTime_writes_pair
    (args : list string) (dt op : string) (newTime : Time) (w : World FS) :
  validOp op ->
  createDate dt = Parsed newTime ->
  exists (w' : World FS) (r : list string) (evs : list Event)
         (calls : list (Call FS)),
    setFileTime args dt op w = (Normal tt, w') /\
    fst (expandGlobs args w) = Normal r /\
    trace w' = trace w ++ evs /\
    chtimesOf evs = map callEvent calls /\
    map c_file calls = r /\
    chained (fs w) calls (fs w') /\
    Forall (fun c =>
              forall cur : Timespec,
                timesStat (c_state c) (c_file c) = Some cur ->
                (op = OpAccess ->
                 c_atime c = newTime /\ c_mtime c = ModTime cur) /\
                (op = OpModify ->
                 c_atime c = AccessTime cur /\ c_mtime c = newTime) /\
                (op = OpBoth -> c_atime c = newTime /\ c_mtime c = newTime))
           calls.
Proof.
  intros Hop Hdt.
  destruct (setFileTime_steps args dt op newTime w Hop Hdt)
    as (evs & calls & tf & Hrun & Hevs & Hfiles & Hch & Hall).
  eexists _, _, evs, calls. split; [exact Hrun|]. rewrite expandGlobs_run.
  cbn [fst fs trace]. split_and!; try done.
  eapply Forall_impl; [exact Hall|]. intros c Hc. cbv beta in Hc |- *.
  intros cur Hcur. rewrite Hcur in Hc. cbn [from_option id] in Hc.
  split_and!; intros ->;
    rewrite ?pairFor_access, ?pairFor_modify, ?pairFor_both in Hc;
    by injection Hc as -> ->.
Qed.


(** *** main *)

Lemma given_len (s : string) : (0 <? len s) = given s.
Proof. by destruct s. Qed.

Lemma args_nonempty (l : list string) : l <> [] -> (length l =? 0)%nat = false.
Proof. by destruct l. Qed.

Lemma main_display (fl : Flags) (w : World FS) :
  displayMode fl ->
  main fl w =
  (count ← showFileTimes (args fl);
   if count =? 0 then fatal (FatalNoMatch (args fl)) else mret tt) w.
Proof.
  intros (Hv & Hargs & Ea & Em & Eb).
  unfold main. by rewrite Hv, (args_nonempty _ Hargs), !given_len, Ea, Em, Eb.
Qed.

(** C4 (amended).  In mutate mode entered by a time-setting flag with a
    text that is not empty, a malformed timestamp text is fatal before any
    file is touched: [main] ends with exit status 1, the file system is
    the one it started with, and the only thing the process did is write the
    fatal message; no target was resolved and [os.Chtimes] was not
    called.  [setFileTime] itself parses the text once, before it
    resolves any target, and a parse failure ends the process there.  A
    time-setting flag given with the empty text is not seen by [main]: when
    every time-setting flag that is given carries the empty text, [main]
    runs display mode; it then fails only when no file is inspected, and
    it never calls [os.Chtimes]. *)
Theorem main_malformed_timestamp_fatal (w : World FS) :
  (forall fl : Flags,
     mutateMode fl ->
     malformed (timestampText fl) ->
     exists e : Event,
       main fl w = (Exit 1, mkWorld (fs w) (trace w ++ [e])) /\
       isChtimes e = false /\
       (e = FatalExclusive \/
        e = FatalInvalidTimeStamp (timestampText fl) \/
        exists err, e = FatalParseDate (timestampText fl) err)) /\
  (forall (args : list string) (dt op : string) (err : ParseError),
     createDate dt = Failed err ->
     setFileTime args dt op w
     = (Exit 1, mkWorld (fs w) (trace w ++ [FatalParseDate dt err]))) /\
  (forall i : Invocation,
     inv_version i = false -> inv_files i <> [] ->
     (forall dt, dt ∈ timeFlagTexts i -> dt = EmptyString) ->
     exists evs : list Event,
       main (flagsOf i) w
       = (count ← showFileTimes (inv_files i);
          if count =? 0 then fatal (FatalNoMatch (inv_files i)) else mret tt) w /\
       snd (main (flagsOf i) w) = mkWorld (fs w) (trace w ++ evs) /\
       chtimesOf evs = []).
Proof.
  split_and!.
  - intros fl (Hv & Hargs & Hflag) Hmal.
    unfold main. rewrite Hv, (args_nonempty _ Hargs), !given_len.
    unfold timestampText in *. revert Hmal Hflag.
    destruct (given (argsAccess fl)) eqn:Ea, (given (argsModify fl)) eqn:Em,
      (given (argsBoth fl)) eqn:Eb; intros Hmal Hflag;
      repeat match goal with
             | |- context [Z.ltb ?a ?b] =>
                 let v := eval vm_compute in (Z.ltb a b) in
                 change (Z.ltb a b) with v
             end;
      try (eexists; split; [by run|]; split; [done|]; by left).
    + destruct (validDT (argsAccess fl)) eqn:Ev; cbn [negb].
      * destruct Hmal as [?|[err Herr]]; [congruence|].
        run. rewrite (setFileTime_parse_failure _ _ _ _ _ Herr).
        eexists; split; [done|]. split; [done|]. right; right. by exists err.
      * eexists; split; [by run|]. split; [done|]. right; by left.
    + destruct (validDT (argsModify fl)) eqn:Ev; cbn [negb].
      * destruct Hmal as [?|[err Herr]]; [congruence|].
        run. rewrite (setFileTime_parse_failure _ _ _ _ _ Herr).
        eexists; split; [done|]. split; [done|]. right; right. by exists err.
      * eexists; split; [by run|]. split; [done|]. right; by left.
    + destruct (validDT (argsBoth fl)) eqn:Ev; cbn [negb].
      * destruct Hmal as [?|[err Herr]]; [congruence|].
        run. rewrite (setFileTime_parse_failure _ _ _ _ _ Herr).
        eexists; split; [done|]. split; [done|]. right; right. by exists err.
      * eexists; split; [by run|]. split; [done|]. right; by left.
    + destruct Hflag as [?|[?|?]]; congruence.
  - intros args dt op err E. by apply setFileTime_parse_failure.
  - intros i Hv Hargs Hempty.
    assert (Hd : displayMode (flagsOf i)).
    { unfold displayMode, flagsOf, timeFlagTexts in *.
      cbn [argsVersion args argsAccess argsModify argsBoth].
      destruct (inv_access i) as [a|], (inv_modify i) as [m|],
        (inv_both i) as [b|]; cbn in Hempty; cbn [from_option id];
        rewrite ?(Hempty a), ?(Hempty m), ?(Hempty b) by set_solver;
        by split_and!. }
    rewrite (main_display _ _ Hd). cbn [flagsOf args].
    set (files := inv_files i). run. rewrite showFileTimes_run.
    set (evs := globLogs (fs w) files
                ++ flat_map (fileEvents (fs w)) (resolve (fs w) files)).
    assert (Hc : chtimesOf evs = []).
    { unfold evs. rewrite chtimesOf_app.
      rewrite (chtimesOf_none _ (globLogs_no_chtimes (fs w) files)).
      by rewrite (chtimesOf_none _ (fileEvents_no_chtimes (fs w) _)). }
    destruct (_ =? 0); run.
    + exists (evs ++ [FatalNoMatch files]). split; [done|].
      split; [by rewrite <- app_assoc|]. by rewrite chtimesOf_app, Hc.
    + exists evs. by split_and!.
Qed.

(** C8.  [showFileTimes] returns the number of resolved targets whose
    stat succeeded.  In display mode the process ends with exit status 1,
    after the fatal message that nothing matched, when that number is
    zero, and with exit status 0 when it is not. *)
Theorem showFileTimes_count_decides_exit (fl : Flags) (w : World FS) :
  displayMode fl ->
  let n := countStatOk (fs w) (resolve (fs w) (args fl)) in
  fst (showFileTimes (args fl) w) = Normal n /\
  exitCode (fst (main fl w)) = Some (if n =? 0 then 1 else 0) /\
  (n = 0 -> exists evs,
     trace (snd (main fl w)) = trace w ++ evs ++ [FatalNoMatch (args fl)]) /\
  (n <> 0 -> fst (main fl w) = Normal tt).
Proof.
  intros Hd n. rewrite (main_display _ _ Hd). run. rewrite showFileTimes_run.
  fold n. cbn [fst snd]. split; [done|].
  destruct (Z.eqb_spec n 0) as [E|E]; cbn [fst snd exitCode fs trace].
  - split; [done|]. split; [|done]. intros _. eexists. run. cbn [snd trace].
    by rewrite <- app_assoc.
  - split; [done|]. split; [done|]. done.
Qed.

(** C6.  When the expansion of a pattern yields no match, [expandGlobs]
    treats the pattern as a literal path: the pattern contributes itself
    to the result exactly when an entry exists at that path ([os.Stat]
    succeeds) and nothing otherwise, whatever patterns stand before and
    after it; such a pattern alone resolves to that one file when it
    names an existing file. *)
Theorem expandGlobs_literal_fallback (pattern : string) (w : World FS) :
  Glob (fs w) pattern = Some [] ->
  (forall before after : list string,
     fst (expandGlobs (before ++ pattern :: after) w)
     = Normal (resolve (fs w) before
               ++ (if statOk (fs w) pattern then [pattern] else [])
               ++ resolve (fs w) after)) /\
  (statOk (fs w) pattern = true ->
     fst (expandGlobs [pattern] w) = Normal [pattern]) /\
  (statOk (fs w) pattern = false ->
     fst (expandGlobs [pattern] w) = Normal []).
Proof.
  intros HG.
  assert (Hone : resolveOne (fs w) pattern
                 = if statOk (fs w) pattern then [pattern] else []).
  { unfold resolveOne, statOk. rewrite HG. by destruct (Stat (fs w) pattern). }
  split_and!.
  - intros before after. rewrite expandGlobs_run. cbn [fst]. unfold resolve.
    rewrite flat_map_app. cbn [flat_map]. by rewrite Hone.
  - intros E. rewrite expandGlobs_run. cbn [fst resolve flat_map].
    by rewrite Hone, E.
  - intros E. rewrite expandGlobs_run. cbn [fst resolve flat_map].
    by rewrite Hone, E.
Qed.

(** C5 (amended).  For every resolved target, in order, the reporter
    first prints the name line and then attempts a stat.  When the stat
    fails the target is logged and skipped: apart from its name line
    nothing is printed for it, and it is not counted.  When the stat
    succeeds the reporter prints name, size, then the time lines in the
    order birth, change, modify, access, leaving out birth and change when
    the FileTimeSet does not hold them, then a blank line. *)
Theorem showFileTimes_report (args : list string) (w : World FS) :
  (exists w' : World FS,
     showFileTimes args w
     = (Normal (countStatOk (fs w) (resolve (fs w) args)), w') /\
     fs w' = fs w /\
     trace w' = trace w ++ globLogs (fs w) args
                  ++ flat_map (fileEvents (fs w)) (resolve (fs w) args)) /\
  (forall file : string,
     Stat (fs w) file = None ->
     fileEvents (fs w) file = [OutName file; LogLstatError file] /\
     countStatOk (fs w) [file] = 0) /\
  (forall (file : string) (fi : FileInfo),
     Stat (fs w) file = Some fi ->
     countStatOk (fs w) [file] = 1 /\
     exists (size : string) (m : gmap string Time),
       FormatWithCommas (Size fi) = Ok size /\
       fst (getFileTimes file w) = Normal m /\
       stdoutOf (fileEvents (fs w) file)
       = OutName file :: OutSize size ::
         match m !! "b"%string with Some b => [OutBtime b] | None => [] end ++
         match m !! "c"%string with Some c => [OutCtime c] | None => [] end ++
         [OutMtime (mapIndex m "m"); OutAtime (mapIndex m "a"); OutBlank]).
Proof.
  split_and!.
  - eexists. rewrite showFileTimes_run. split; [reflexivity|]. by split.
  - intros file E. rewrite countStatOk_cons. unfold fileEvents, statOk.
    by rewrite E.
  - intros file fi E. rewrite countStatOk_cons. unfold statOk. rewrite E.
    split; [done|].
    rewrite getFileTimes_run. unfold fileEvents, timeLines, mapIndex. rewrite E.
    destruct (timesStat (fs w) file) as [t|]; cbn [fst]; eexists _, _;
      (split; [apply FormatWithCommas_grouped_digits|]); (split; [reflexivity|]).
    + destruct (fileTimeSet_lookup t) as (-> & -> & -> & -> & _).
      by destruct (HasBirthTime t), (HasChangeTime t).
    + by rewrite !lookup_empty.
Qed.

End ProgramProofs.

(** ** The codec *)

Section CodecProofs.

Import Spec.

(** *** Bytes and digits *)

Lemma substring_full (s : string) : String.substring 0 (String.length s) s = s.
Proof. induction s as [|c s IH]; cbn; [done|]. by rewrite IH. Qed.

Lemma substring_four (c0 c1 c2 c3 : ascii) (v : string) :
  String.substring 0 4 (String c0 (String c1 (String c2 (String c3 v))))
  = String c0 (String c1 (String c2 (String c3 EmptyString))).
Proof. cbn. by destruct v. Qed.

Lemma dropBytes_0 (s : string) : dropBytes 0 s = s.
Proof. unfold dropBytes. rewrite Nat.sub_0_r. apply substring_full. Qed.

Lemma dropBytes_cons (n : nat) (c : ascii) (s : string) :
  dropBytes (S n) (String c s) = dropBytes n s.
Proof. reflexivity. Qed.

Lemma isDigit_0 (c : ascii) (s : string) : isDigit (String c s) 0 = isDigitByte c.
Proof. reflexivity. Qed.

Lemma isDigit_S (c : ascii) (s : string) (n : nat) :
  isDigit (String c s) (S n) = isDigit s n.
Proof. reflexivity. Qed.

Lemma digitVal_range (c : ascii) : isDigitByte c = true -> 0 <= digitVal c <= 9.
Proof.
  unfold isDigitByte, digitVal. intros H.
  apply andb_true_iff in H as [H1 H2].
  apply Nat.leb_le in H1. apply Nat.leb_le in H2. lia.
Qed.

Lemma digit_not_sign (c : ascii) (s : string) :
  isDigitByte c = true ->
  atoi (String c s) =
  match leadingInt (String c s) 0 with
  | Some (q, EmptyString) => Some (wrap64 q)
  | _ => None
  end.
Proof.
  destruct c as [[] [] [] [] [] [] [] []]; intros H; try discriminate H; reflexivity.
Qed.

Lemma digit_not_separator (c : ascii) :
  isDigitByte c = true -> commaOrPeriod c = false /\ Ascii.eqb c "." = false.
Proof.
  destruct c as [[] [] [] [] [] [] [] []]; intros H; try discriminate H; by split.
Qed.

Lemma separator_not_digit (c : ascii) :
  commaOrPeriod c = true -> isDigitByte c = false.
Proof.
  destruct (isDigitByte c) eqn:E; [|done].
  destruct (digit_not_separator c E) as [-> _]. done.
Qed.

Lemma leadingInt_nil (x : Z) : leadingInt EmptyString x = Some (x, EmptyString).
Proof. reflexivity. Qed.

Lemma leadingInt_digit (c : ascii) (s : string) (x : Z) :
  isDigitByte c = true -> 0 <= x < 10 ^ 17 ->
  leadingInt (String c s) x = leadingInt s (x * 10 + digitVal c).
Proof.
  intros Hc Hx. pose proof (digitVal_range c Hc) as Hd.
  cbn [leadingInt]. rewrite Hc.
  destruct (Z.ltb_spec (2 ^ 63 / 10) x) as [H|_];
    [change (2 ^ 63 / 10) with 922337203685477580 in H; lia|].
  unfold wrapU64. rewrite Z.mod_small by lia.
  destruct (Z.ltb_spec (2 ^ 63) (x * 10 + digitVal c)) as [H|_]; [lia|done].
Qed.

Lemma leadingInt_stop (c : ascii) (s : string) (x : Z) :
  isDigitByte c = false -> leadingInt (String c s) x = Some (x, String c s).
Proof. intros Hc. cbn [leadingInt]. by rewrite Hc. Qed.

(** *** The field parsers *)

Lemma getnum_fixed_inv (v v' : string) (n : Z) :
  getnum v true = Some (n, v') ->
  exists c0 c1,
    v = String c0 (String c1 v') /\ isDigitByte c0 = true /\
    isDigitByte c1 = true /\ n = digitVal c0 * 10 + digitVal c1.
Proof.
  unfold getnum. destruct v as [|c0 [|c1 v]].
  - cbn. discriminate.
  - rewrite isDigit_0. destruct (isDigitByte c0); cbn; discriminate.
  - rewrite isDigit_0, isDigit_S, isDigit_0.
    destruct (isDigitByte c0) eqn:E0; cbn [negb]; [|discriminate].
    destruct (isDigitByte c1) eqn:E1; cbn [negb]; [|discriminate].
    rewrite !dropBytes_cons, dropBytes_0. cbn [byteAt String.get].
    intros [= <- <-]. by exists c0, c1.
Qed.

Lemma getnum_two_digits (c0 c1 : ascii) (v : string) (fixed : bool) :
  isDigitByte c0 = true -> isDigitByte c1 = true ->
  getnum (String c0 (String c1 v)) fixed
  = Some (digitVal c0 * 10 + digitVal c1, v).
Proof.
  intros E0 E1. unfold getnum. rewrite isDigit_0, isDigit_S, isDigit_0, E0, E1.
  cbn [negb]. by rewrite !dropBytes_cons, dropBytes_0.
Qed.

(** A number of one digit is followed by no digit. *)
Lemma getnum_free_inv (v v' : string) (n : Z) :
  getnum v false = Some (n, v') ->
  (exists c0 c1,
     v = String c0 (String c1 v') /\ isDigitByte c0 = true /\
     isDigitByte c1 = true /\ n = digitVal c0 * 10 + digitVal c1) \/
  isDigit v' 0 = false.
Proof.
  unfold getnum. destruct v as [|c0 v].
  - cbn. discriminate.
  - rewrite isDigit_0, isDigit_S.
    destruct (isDigitByte c0) eqn:E0; cbn [negb]; [|discriminate].
    destruct (isDigit v 0) eqn:E1; cbn [negb].
    + destruct v as [|c1 v]; [discriminate E1|]. rewrite isDigit_0 in E1.
      rewrite !dropBytes_cons, dropBytes_0. cbn [byteAt String.get].
      intros [= <- <-]. left. by exists c0, c1.
    + rewrite dropBytes_cons, dropBytes_0. intros [= _ <-]. by right.
Qed.

Lemma getnum_needs_digit (v : string) (fixed : bool) :
  isDigit v 0 = false -> getnum v fixed = None.
Proof. intros E. unfold getnum. by rewrite E. Qed.

Lemma atoi_four_digits (c0 c1 c2 c3 : ascii) :
  isDigitByte c0 = true -> isDigitByte c1 = true ->
  isDigitByte c2 = true -> isDigitByte c3 = true ->
  atoi (String c0 (String c1 (String c2 (String c3 EmptyString))))
  = Some (year4 c0 c1 c2 c3).
Proof.
  intros E0 E1 E2 E3.
  pose proof (digitVal_range _ E0). pose proof (digitVal_range _ E1).
  pose proof (digitVal_range _ E2). pose proof (digitVal_range _ E3).
  rewrite digit_not_sign by done.
  rewrite !leadingInt_digit by (done || lia). rewrite leadingInt_nil.
  unfold wrap64, year4. f_equal. rewrite Z.mod_small by lia. lia.
Qed.

Lemma atoi_four_inv (c0 c1 c2 c3 : ascii) (y : Z) :
  isDigitByte c0 = true ->
  atoi (String c0 (String c1 (String c2 (String c3 EmptyString)))) = Some y ->
  isDigitByte c1 = true /\ isDigitByte c2 = true /\ isDigitByte c3 = true.
Proof.
  intros E0. pose proof (digitVal_range _ E0).
  rewrite digit_not_sign by done. rewrite leadingInt_digit by (done || lia).
  destruct (isDigitByte c1) eqn:E1;
    [|rewrite leadingInt_stop by done; discriminate].
  pose proof (digitVal_range _ E1). rewrite leadingInt_digit by (done || lia).
  destruct (isDigitByte c2) eqn:E2;
    [|rewrite leadingInt_stop by done; discriminate].
  pose proof (digitVal_range _ E2). rewrite leadingInt_digit by (done || lia).
  destruct (isDigitByte c3) eqn:E3;
    [|rewrite leadingInt_stop by done; discriminate].
  done.
Qed.

Lemma parseYear_inv (v v' : string) (f f' : fields) :
  parseField stdLongYear v f = Parsed (v', f') ->
  exists c0 c1 c2 c3,
    v = String c0 (String c1 (String c2 (String c3 v'))) /\
    isDigitByte c0 = true /\ isDigitByte c1 = true /\
    isDigitByte c2 = true /\ isDigitByte c3 = true /\
    f' = mkFields (year4 c0 c1 c2 c3) (f_month f) (f_day f)
                  (f_hour f) (f_min f) (f_sec f) (f_nsec f).
Proof.
  unfold parseField.
  destruct v as [|c0 [|c1 [|c2 [|c3 v]]]]; try (cbn; discriminate).
  cbn [String.length Nat.ltb Nat.leb].
  rewrite isDigit_0. destruct (isDigitByte c0) eqn:E0; cbn [negb orb]; [|discriminate].
  rewrite substring_four.
  destruct (atoi _) as [y|] eqn:Ey; [|discriminate].
  destruct (atoi_four_inv _ _ _ _ _ E0 Ey) as (E1 & E2 & E3).
  rewrite atoi_four_digits in Ey by done. injection Ey as <-.
  rewrite !dropBytes_cons, dropBytes_0. intros [= <- <-].
  by exists c0, c1, c2, c3.
Qed.

Lemma parseYear_digits (c0 c1 c2 c3 : ascii) (v : string) (f : fields) :
  isDigitByte c0 = true -> isDigitByte c1 = true ->
  isDigitByte c2 = true -> isDigitByte c3 = true ->
  parseField stdLongYear (String c0 (String c1 (String c2 (String c3 v)))) f
  = Parsed (v, mkFields (year4 c0 c1 c2 c3) (f_month f) (f_day f)
                        (f_hour f) (f_min f) (f_sec f) (f_nsec f)).
Proof.
  intros E0 E1 E2 E3. unfold parseField.
  cbn [String.length Nat.ltb Nat.leb].
  rewrite isDigit_0, E0. cbn [negb orb].
  rewrite substring_four.
  rewrite atoi_four_digits by done. by rewrite !dropBytes_cons, dropBytes_0.
Qed.

Lemma substring_0_0 (s : string) : String.substring 0 0 s = EmptyString.
Proof. by destruct s. Qed.

Lemma dropBytes_countDigits (r : string) :
  dropBytes (countDigits r) r = EmptyString ->
  forallb isDigitByte (list_ascii_of_string r) = true.
Proof.
  induction r as [|c r IH]; [done|]. cbn [countDigits list_ascii_of_string forallb].
  destruct (isDigitByte c) eqn:E.
  - rewrite dropBytes_cons. intros H. by rewrite IH.
  - rewrite dropBytes_0. discriminate.
Qed.

Lemma parseSecond_end (v : string) (f f' : fields) :
  parseField stdZeroSecond v f = Parsed (EmptyString, f') ->
  exists c0 c1 rest ns,
    v = String c0 (String c1 rest) /\
    isDigitByte c0 = true /\ isDigitByte c1 = true /\ two c0 c1 < 60 /\
    (rest = EmptyString \/ isFraction rest = true) /\
    (rest = EmptyString -> ns = f_nsec f) /\
    f' = mkFields (f_year f) (f_month f) (f_day f) (f_hour f) (f_min f)
                  (two c0 c1) ns.
Proof.
  unfold parseField.
  destruct (getnum v true) as [[sec v1]|] eqn:E;
    cbn [ofGetnum mbind parseResult_bind]; [|discriminate].
  apply getnum_fixed_inv in E as (c0 & c1 & -> & E0 & E1 & ->). fold (two c0 c1).
  destruct (Z.ltb_spec (two c0 c1) 0) as [?|_]; cbn [orb]; [discriminate|].
  destruct (Z.leb_spec 60 (two c0 c1)) as [?|Hlt]; [discriminate|].
  destruct v1 as [|c [|d r]].
  - cbn. intros [= <-]. exists c0, c1, EmptyString, (f_nsec f). by split_and!; auto.
  - cbn. discriminate.
  - cbn [String.length Nat.leb andb byteAt String.get].
    rewrite isDigit_S, isDigit_0.
    destruct (commaOrPeriod c) eqn:Ec; cbn [andb]; [|discriminate].
    destruct (isDigitByte d) eqn:Ed; cbn [andb]; [|discriminate].
    rewrite !dropBytes_cons, dropBytes_0.
    destruct (parseNanoseconds _ _) as [ns|] eqn:En;
      cbn [mbind parseResult_bind]; [|discriminate].
    cbn [Nat.add]. rewrite !dropBytes_cons. cbn [f_year f_month f_day f_hour f_min f_sec].
    intros [= Hrest <-]. apply dropBytes_countDigits in Hrest.
    exists c0, c1, (String c (String d r)), ns. split_and!; try done.
    right. cbn [isFraction]. by rewrite Ec, Ed, Hrest.
Qed.

Lemma parseSecond_digits (c0 c1 : ascii) (f : fields) :
  isDigitByte c0 = true -> isDigitByte c1 = true -> two c0 c1 < 60 ->
  parseField stdZeroSecond (String c0 (String c1 EmptyString)) f
  = Parsed (EmptyString,
            mkFields (f_year f) (f_month f) (f_day f) (f_hour f) (f_min f)
                     (two c0 c1) (f_nsec f)).
Proof.
  intros E0 E1 Hlt. pose proof (digitVal_range _ E0). pose proof (digitVal_range _ E1).
  unfold two in *. unfold parseField. rewrite getnum_two_digits by done.
  cbn [ofGetnum mbind parseResult_bind].
  destruct (Z.ltb_spec (digitVal c0 * 10 + digitVal c1) 0) as [?|_]; [lia|].
  destruct (Z.leb_spec 60 (digitVal c0 * 10 + digitVal c1)) as [?|_]; [lia|].
  reflexivity.
Qed.

Lemma parseMonth_inv (v v' : string) (f f' : fields) :
  parseField stdZeroMonth v f = Parsed (v', f') ->
  exists c0 c1,
    v = String c0 (String c1 v') /\ isDigitByte c0 = true /\
    isDigitByte c1 = true /\ 1 <= two c0 c1 <= 12 /\
    f' = mkFields (f_year f) (two c0 c1) (f_day f) (f_hour f) (f_min f)
                  (f_sec f) (f_nsec f).
Proof.
  unfold parseField.
  destruct (getnum v true) as [[n v1]|] eqn:E;
    cbn [ofGetnum mbind parseResult_bind]; [|discriminate].
  apply getnum_fixed_inv in E as (c0 & c1 & -> & E0 & E1 & ->). fold (two c0 c1).
  destruct (Z.leb_spec (two c0 c1) 0) as [?|?]; cbn [orb]; [discriminate|].
  destruct (Z.ltb_spec 12 (two c0 c1)) as [?|?]; [discriminate|].
  intros [= <- <-]. exists c0, c1. split_and!; try done; lia.
Qed.

Lemma parseDay_inv (v v' : string) (f f' : fields) :
  parseField stdZeroDay v f = Parsed (v', f') ->
  exists c0 c1,
    v = String c0 (String c1 v') /\ isDigitByte c0 = true /\
    isDigitByte c1 = true /\
    f' = mkFields (f_year f) (f_month f) (two c0 c1) (f_hour f) (f_min f)
                  (f_sec f) (f_nsec f).
Proof.
  unfold parseField.
  destruct (getnum v true) as [[n v1]|] eqn:E;
    cbn [ofGetnum mbind parseResult_bind]; [|discriminate].
  apply getnum_fixed_inv in E as (c0 & c1 & -> & E0 & E1 & ->). fold (two c0 c1).
  intros [= <- <-]. by exists c0, c1.
Qed.

Lemma parseHour_inv (v v' : string) (f f' : fields) :
  parseField stdHour v f = Parsed (v', f') ->
  (exists c0 c1,
     v = String c0 (String c1 v') /\ isDigitByte c0 = true /\
     isDigitByte c1 = true /\ two c0 c1 < 24 /\
     f' = mkFields (f_year f) (f_month f) (f_day f) (two c0 c1) (f_min f)
                   (f_sec f) (f_nsec f)) \/
  isDigit v' 0 = false.
Proof.
  unfold parseField.
  destruct (getnum v false) as [[n v1]|] eqn:E;
    cbn [ofGetnum mbind parseResult_bind]; [|discriminate].
  destruct (Z.ltb_spec n 0) as [?|?]; cbn [orb]; [discriminate|].
  destruct (Z.leb_spec 24 n) as [?|?]; [discriminate|].
  intros [= <- <-].
  apply getnum_free_inv in E as [(c0 & c1 & -> & E0 & E1 & ->)|E]; [|by right].
  left. exists c0, c1. by split_and!.
Qed.

Lemma parseMinute_inv (v v' : string) (f f' : fields) :
  parseField stdZeroMinute v f = Parsed (v', f') ->
  exists c0 c1,
    v = String c0 (String c1 v') /\ isDigitByte c0 = true /\
    isDigitByte c1 = true /\ two c0 c1 < 60 /\
    f' = mkFields (f_year f) (f_month f) (f_day f) (f_hour f) (two c0 c1)
                  (f_sec f) (f_nsec f).
Proof.
  unfold parseField.
  destruct (getnum v true) as [[n v1]|] eqn:E;
    cbn [ofGetnum mbind parseResult_bind]; [|discriminate].
  apply getnum_fixed_inv in E as (c0 & c1 & -> & E0 & E1 & ->). fold (two c0 c1).
  destruct (Z.ltb_spec (two c0 c1) 0) as [?|?]; cbn [orb]; [discriminate|].
  destruct (Z.leb_spec 60 (two c0 c1)) as [?|?]; [discriminate|].
  intros [= <- <-]. exists c0, c1. by split_and!.
Qed.

Lemma parseMinute_needs_digit (v : string) (f : fields) :
  isDigit v 0 = false -> parseField stdZeroMinute v f = Failed errBad.
Proof. intros E. unfold parseField. by rewrite (getnum_needs_digit _ _ E). Qed.

(** *** The loop over the chunks *)

Ltac head_field v v' f' E :=
  match goal with
  | |- context [parseField ?s v ?f] =>
      destruct (parseField s v f) as [[v' f']|] eqn:E;
      cbn [mbind parseResult_bind]; [|discriminate]
  end.

Lemma parseChunks_inv (dt : string) (f : fields) :
  parseChunks layoutChunks dt (mkFields 0 (-1) (-1) 0 0 0 0) = Parsed f ->
  exists y0 y1 y2 y3 m0 m1 d0 d1 h0 h1 i0 i1 s0 s1 rest ns,
    dt = layoutText y0 y1 y2 y3 m0 m1 d0 d1 h0 h1 i0 i1 s0 s1 rest /\
    Forall (fun c => isDigitByte c = true)
           [y0; y1; y2; y3; m0; m1; d0; d1; h0; h1; i0; i1; s0; s1] /\
    1 <= two m0 m1 <= 12 /\ two h0 h1 < 24 /\ two i0 i1 < 60 /\ two s0 s1 < 60 /\
    (rest = EmptyString \/ isFraction rest = true) /\
    (rest = EmptyString -> ns = 0) /\
    f = mkFields (year4 y0 y1 y2 y3) (two m0 m1) (two d0 d1)
                 (two h0 h1) (two i0 i1) (two s0 s1) ns.
Proof.
  unfold layoutChunks. cbn [parseChunks skip].
  head_field dt v1 f1 E.
  apply parseYear_inv in E as (y0 & y1 & y2 & y3 & -> & Ey0 & Ey1 & Ey2 & Ey3 & ->).
  head_field v1 v2 f2 E.
  apply parseMonth_inv in E as (m0 & m1 & -> & Em0 & Em1 & Hm & ->).
  head_field v2 v3 f3 E.
  apply parseDay_inv in E as (d0 & d1 & -> & Ed0 & Ed1 & ->).
  destruct v3 as [|p v3]; [discriminate|].
  destruct (Ascii.eqb_spec p ".") as [->|?]; [|discriminate].
  head_field v3 v4 f4 E.
  apply parseHour_inv in E as [(h0 & h1 & -> & Eh0 & Eh1 & Hh & ->)|E];
    [|rewrite (parseMinute_needs_digit _ _ E); discriminate].
  head_field v4 v5 f5 E.
  apply parseMinute_inv in E as (i0 & i1 & -> & Ei0 & Ei1 & Hi & ->).
  head_field v5 v6 f6 E.
  destruct v6 as [|? ?]; [|discriminate]. intros [= <-].
  apply parseSecond_end in E as (s0 & s1 & rest & ns & -> & Es0 & Es1 & Hs & Hrest & Hns & ->).
  cbn [f_year f_month f_day f_hour f_min f_sec f_nsec] in *.
  exists y0, y1, y2, y3, m0, m1, d0, d1, h0, h1, i0, i1, s0, s1, rest, ns.
  split_and!; try done; try lia. by repeat constructor.
Qed.

(** *** The texts the codec accepts *)

Lemma daysIn_daysInMonth (m y : Z) :
  1 <= m <= 12 -> 0 <= y -> daysIn m y = daysInMonth y m.
Proof.
  intros Hm Hy. unfold daysIn, daysInMonth, isLeap, leapYear.
  rewrite !Z.rem_mod_nonneg by lia.
  assert (m = 1 \/ m = 2 \/ m = 3 \/ m = 4 \/ m = 5 \/ m = 6 \/ m = 7 \/
          m = 8 \/ m = 9 \/ m = 10 \/ m = 11 \/ m = 12) as Hc by lia.
  repeat destruct Hc as [->|Hc]; try subst m; cbn [Z.eqb andb orb]; try reflexivity;
    by destruct ((y mod 4 =? 0) && (negb (y mod 100 =? 0) || (y mod 400 =? 0))).
Qed.

Lemma year4_range (c0 c1 c2 c3 : ascii) :
  isDigitByte c0 = true -> isDigitByte c1 = true ->
  isDigitByte c2 = true -> isDigitByte c3 = true ->
  0 <= year4 c0 c1 c2 c3 <= 9999.
Proof.
  intros E0 E1 E2 E3.
  pose proof (digitVal_range _ E0). pose proof (digitVal_range _ E1).
  pose proof (digitVal_range _ E2). pose proof (digitVal_range _ E3).
  unfold year4. lia.
Qed.

Lemma two_range (c0 c1 : ascii) :
  isDigitByte c0 = true -> isDigitByte c1 = true -> 0 <= two c0 c1 <= 99.
Proof.
  intros E0 E1.
  pose proof (digitVal_range _ E0). pose proof (digitVal_range _ E1).
  unfold two. lia.
Qed.

Section Layout.

Variables (y0 y1 y2 y3 m0 m1 d0 d1 h0 h1 i0 i1 s0 s1 : ascii) (rest : string).

Local Abbreviation dt := (layoutText y0 y1 y2 y3 m0 m1 d0 d1 h0 h1 i0 i1 s0 s1 rest).

Lemma layout_components :
  yearOf dt = year4 y0 y1 y2 y3 /\ monthOf dt = two m0 m1 /\
  dayOf dt = two d0 d1 /\ hourOf dt = two h0 h1 /\
  minuteOf dt = two i0 i1 /\ secondOf dt = two s0 s1.
Proof.
  unfold yearOf, monthOf, dayOf, hourOf, minuteOf, secondOf, numAt, layoutText.
  cbn [substring]. rewrite substring_0_0.
  unfold valueOf, year4, two. cbn [list_ascii_of_string fold_left].
  split_and!; lia.
Qed.

Lemma layout_stem :
  stem dt = layoutText y0 y1 y2 y3 m0 m1 d0 d1 h0 h1 i0 i1 s0 s1 EmptyString.
Proof. unfold stem, layoutText. cbn [substring]. by rewrite substring_0_0. Qed.

Lemma layout_afterStem : afterStem dt = rest.
Proof. unfold afterStem, layoutText. by rewrite !dropBytes_cons, dropBytes_0. Qed.

Lemma layout_validDT :
  Forall (fun c => isDigitByte c = true)
         [y0; y1; y2; y3; m0; m1; d0; d1; h0; h1; i0; i1; s0; s1] ->
  validDT (layoutText y0 y1 y2 y3 m0 m1 d0 d1 h0 h1 i0 i1 s0 s1 EmptyString) = true.
Proof.
  intros H. repeat (apply Forall_cons_1 in H as [? H]).
  unfold validDT, layoutText. cbn [matchDigits].
  repeat match goal with E : isDigitByte _ = true |- _ => rewrite E; clear E end.
  cbn [matchDigits].
  repeat match goal with E : isDigitByte _ = true |- _ => rewrite E; clear E end.
  reflexivity.
Qed.

End Layout.

Lemma stem_afterStem (n : nat) :
  forall s, s = (String.substring 0 n s ++ dropBytes n s)%string.
Proof.
  induction n as [|n IH]; intros s.
  - by rewrite substring_0_0, dropBytes_0.
  - destruct s as [|c s]; [done|]. rewrite dropBytes_cons.
    change (String c s = String c (substring 0 n s ++ dropBytes n s)%string).
    f_equal. apply IH.
Qed.

Lemma append_empty_r (s : string) : (s ++ EmptyString)%string = s.
Proof.
  induction s as [|c s IH]; [done|].
  change (String c (s ++ EmptyString)%string = String c s). by f_equal.
Qed.

Lemma validDT_inv (dt : string) :
  validDT dt = true ->
  exists y0 y1 y2 y3 m0 m1 d0 d1 h0 h1 i0 i1 s0 s1,
    dt = layoutText y0 y1 y2 y3 m0 m1 d0 d1 h0 h1 i0 i1 s0 s1 EmptyString /\
    Forall (fun c => isDigitByte c = true)
           [y0; y1; y2; y3; m0; m1; d0; d1; h0; h1; i0; i1; s0; s1].
Proof.
  unfold validDT.
  destruct dt as [|y0 [|y1 [|y2 [|y3 [|m0 [|m1 [|d0 [|d1 dt]]]]]]]];
    cbn [matchDigits];
    repeat match goal with
           | |- context [isDigitByte ?c] =>
               let E := fresh "E" in
               destruct (isDigitByte c) eqn:E; [|discriminate]
           end; try discriminate.
  destruct dt as [|p dt]; [discriminate|].
  destruct (Ascii.eqb_spec p ".") as [->|Hp].
  - destruct dt as [|h0 [|h1 [|i0 [|i1 [|s0 [|s1 dt]]]]]];
      cbn [matchDigits];
      repeat match goal with
             | |- context [isDigitByte ?c] =>
                 let E := fresh "E" in
                 destruct (isDigitByte c) eqn:E; [|discriminate]
             end; try discriminate.
    destruct dt; [|discriminate]. intros _.
    exists y0, y1, y2, y3, m0, m1, d0, d1, h0, h1, i0, i1, s0, s1.
    split; [done|]. by repeat constructor.
  - destruct p as [[] [] [] [] [] [] [] []]; try discriminate. by destruct Hp.
Qed.

(** The texts [createDate] parses are the accepted ones, and the instant
    is the one [Date] makes of their components. *)
Lemma createDate_parsed_inv {FS : Type} `{!OS FS} (dt : string) (t : Time) :
  createDate dt = Parsed t ->
  accepted dt = true /\
  exists ns,
    t = Date (yearOf dt) (monthOf dt) (dayOf dt)
             (hourOf dt) (minuteOf dt) (secondOf dt) ns Local /\
    (afterStem dt = EmptyString -> ns = 0).
Proof.
  unfold createDate, ParseInLocation.
  destruct (parseChunks layoutChunks dt _) as [f|] eqn:E;
    cbn [mbind parseResult_bind]; [|discriminate].
  apply parseChunks_inv in E
    as (y0 & y1 & y2 & y3 & m0 & m1 & d0 & d1 & h0 & h1 & i0 & i1 & s0 & s1
        & rest & ns & -> & Hdig & Hm & Hh & Hi & Hs & Hrest & Hns & ->).
  cbn [f_year f_month f_day f_hour f_min f_sec f_nsec].
  pose proof Hdig as Hdig'.
  repeat (apply Forall_cons_1 in Hdig' as [? Hdig']).
  assert (Hy := year4_range y0 y1 y2 y3 ltac:(done) ltac:(done) ltac:(done) ltac:(done)).
  assert (Hd := two_range d0 d1 ltac:(done) ltac:(done)).
  assert (Hh' := two_range h0 h1 ltac:(done) ltac:(done)).
  assert (Hi' := two_range i0 i1 ltac:(done) ltac:(done)).
  assert (Hs' := two_range s0 s1 ltac:(done) ltac:(done)).
  destruct (Z.ltb_spec (two m0 m1) 0) as [?|_]; [lia|].
  destruct (Z.ltb_spec (two d0 d1) 0) as [?|_]; [lia|].
  destruct (Z.ltb_spec (two d0 d1) 1) as [?|Hd1]; cbn [orb]; [discriminate|].
  destruct (Z.ltb_spec (daysIn (two m0 m1) (year4 y0 y1 y2 y3)) (two d0 d1))
    as [?|Hd2]; [discriminate|].
  intros [= <-].
  destruct (layout_components y0 y1 y2 y3 m0 m1 d0 d1 h0 h1 i0 i1 s0 s1 rest)
    as (Ey & Em & Ed & Eh & Ei & Es).
  split.
  - unfold accepted, validComponents, validCalendar.
    rewrite layout_stem, layout_validDT, layout_afterStem by done.
    rewrite Ey, Em, Ed, Eh, Ei, Es.
    rewrite daysIn_daysInMonth in Hd2 by lia.
    repeat match goal with
           | |- context [Z.leb ?a ?b] =>
               destruct (Z.leb_spec a b); [|lia]
           | |- context [Z.ltb ?a ?b] =>
               destruct (Z.ltb_spec a b); [|lia]
           end.
    cbn [andb]. destruct Hrest as [-> | ->]; [done|]. by rewrite orb_true_r.
  - exists ns. rewrite Ey, Em, Ed, Eh, Ei, Es, layout_afterStem. done.
Qed.

Lemma validDT_stem (dt : string) :
  validDT (stem dt) = true -> afterStem dt = EmptyString -> validDT dt = true.
Proof.
  intros Hv Hrest. rewrite (stem_afterStem 15 dt). fold (stem dt) (afterStem dt).
  by rewrite Hrest, append_empty_r.
Qed.

(** C3 (amended).  [createDate] fails, and produces no instant, on every
    text that is not accepted: on every text whose components are not a
    valid calendar date and time of day (month 13 or 0, day 32, February
    30, hour 25), and on every text that violates the fixed structure in
    another way than by a fractional second (a period or a comma, then one
    or more digits) after its fifteenth byte. *)
Theorem createDate_rejects {FS : Type} `{!OS FS} (dt : string) :
  (accepted dt = false -> exists e, createDate dt = Failed e) /\
  (validComponents dt = false -> exists e, createDate dt = Failed e) /\
  (validDT dt = false -> isFraction (afterStem dt) = false ->
   exists e, createDate dt = Failed e).
Proof.
  assert (Hacc : accepted dt = false -> exists e, createDate dt = Failed e).
  { intros Hacc. destruct (createDate dt) as [t|e] eqn:E; [|by exists e].
    apply createDate_parsed_inv in E as [E _]. congruence. }
  split_and!; [done| |].
  - intros Hc. apply Hacc. unfold accepted. rewrite Hc. by rewrite andb_false_r.
  - intros Hv Hf. apply Hacc. unfold accepted. rewrite Hf, orb_false_r.
    destruct (validDT (stem dt)) eqn:Es; [|done].
    destruct (String.eqb_spec (afterStem dt) EmptyString) as [Hr|_];
      [|by rewrite andb_false_r].
    rewrite (validDT_stem dt Es Hr) in Hv. discriminate.
Qed.

(** *** Texts of the fixed structure *)

Lemma parseMonth_digits (c0 c1 : ascii) (v : string) (f : fields) :
  isDigitByte c0 = true -> isDigitByte c1 = true -> 1 <= two c0 c1 <= 12 ->
  parseField stdZeroMonth (String c0 (String c1 v)) f
  = Parsed (v, mkFields (f_year f) (two c0 c1) (f_day f) (f_hour f) (f_min f)
                        (f_sec f) (f_nsec f)).
Proof.
  intros E0 E1 H. unfold parseField. rewrite getnum_two_digits by done.
  cbn [ofGetnum mbind parseResult_bind]. fold (two c0 c1).
  destruct (Z.leb_spec (two c0 c1) 0) as [?|_]; [lia|].
  destruct (Z.ltb_spec 12 (two c0 c1)) as [?|_]; [lia|]. reflexivity.
Qed.

Lemma parseDay_digits (c0 c1 : ascii) (v : string) (f : fields) :
  isDigitByte c0 = true -> isDigitByte c1 = true ->
  parseField stdZeroDay (String c0 (String c1 v)) f
  = Parsed (v, mkFields (f_year f) (f_month f) (two c0 c1) (f_hour f) (f_min f)
                        (f_sec f) (f_nsec f)).
Proof.
  intros E0 E1. unfold parseField. by rewrite getnum_two_digits by done.
Qed.

Lemma parseHour_digits (c0 c1 : ascii) (v : string) (f : fields) :
  isDigitByte c0 = true -> isDigitByte c1 = true -> two c0 c1 < 24 ->
  parseField stdHour (String c0 (String c1 v)) f
  = Parsed (v, mkFields (f_year f) (f_month f) (f_day f) (two c0 c1) (f_min f)
                        (f_sec f) (f_nsec f)).
Proof.
  intros E0 E1 H. pose proof (two_range c0 c1 E0 E1).
  unfold parseField. rewrite getnum_two_digits by done.
  cbn [ofGetnum mbind parseResult_bind]. fold (two c0 c1).
  destruct (Z.ltb_spec (two c0 c1) 0) as [?|_]; [lia|].
  destruct (Z.leb_spec 24 (two c0 c1)) as [?|_]; [lia|]. reflexivity.
Qed.

Lemma parseMinute_digits (c0 c1 : ascii) (v : string) (f : fields) :
  isDigitByte c0 = true -> isDigitByte c1 = true -> two c0 c1 < 60 ->
  parseField stdZeroMinute (String c0 (String c1 v)) f
  = Parsed (v, mkFields (f_year f) (f_month f) (f_day f) (f_hour f) (two c0 c1)
                        (f_sec f) (f_nsec f)).
Proof.
  intros E0 E1 H. pose proof (two_range c0 c1 E0 E1).
  unfold parseField. rewrite getnum_two_digits by done.
  cbn [ofGetnum mbind parseResult_bind]. fold (two c0 c1).
  destruct (Z.ltb_spec (two c0 c1) 0) as [?|_]; [lia|].
  destruct (Z.leb_spec 60 (two c0 c1)) as [?|_]; [lia|]. reflexivity.
Qed.

(** A text of the fixed structure with valid components is parsed, into
    the instant [Date] makes of its components. *)
Lemma createDate_parses {FS : Type} `{!OS FS} (dt : string) :
  validDT dt = true -> validComponents dt = true ->
  createDate dt
  = Parsed (Date (yearOf dt) (monthOf dt) (dayOf dt)
                 (hourOf dt) (minuteOf dt) (secondOf dt) 0 Local).
Proof.
  intros Hv Hc.
  apply validDT_inv in Hv
    as (y0 & y1 & y2 & y3 & m0 & m1 & d0 & d1 & h0 & h1 & i0 & i1 & s0 & s1
        & -> & Hdig).
  destruct (layout_components y0 y1 y2 y3 m0 m1 d0 d1 h0 h1 i0 i1 s0 s1 EmptyString)
    as (Ey & Em & Ed & Eh & Ei & Es).
  unfold validComponents, validCalendar in Hc. rewrite Ey, Em, Ed, Eh, Ei, Es in *.
  repeat (apply Forall_cons_1 in Hdig as [? Hdig]).
  assert (Hy := year4_range y0 y1 y2 y3 ltac:(done) ltac:(done) ltac:(done) ltac:(done)).
  repeat (apply andb_true_iff in Hc as [Hc ?]).
  repeat match goal with
         | H : Z.leb _ _ = true |- _ => apply Z.leb_le in H
         | H : Z.ltb _ _ = true |- _ => apply Z.ltb_lt in H
         end.
  unfold createDate, ParseInLocation, layoutChunks, layoutText.
  cbn [parseChunks skip].
  rewrite parseYear_digits by done. cbn [mbind parseResult_bind].
  rewrite parseMonth_digits by (done || lia). cbn [mbind parseResult_bind].
  rewrite parseDay_digits by done. cbn [mbind parseResult_bind].
  change (Ascii.eqb "." ".") with true. cbn iota.
  rewrite parseHour_digits by (done || lia). cbn [mbind parseResult_bind].
  rewrite parseMinute_digits by (done || lia). cbn [mbind parseResult_bind].
  rewrite parseSecond_digits by (done || lia). cbn [mbind parseResult_bind].
  cbn [f_year f_month f_day f_hour f_min f_sec f_nsec].
  destruct (Z.ltb_spec (two m0 m1) 0) as [?|_]; [lia|].
  destruct (Z.ltb_spec (two d0 d1) 0) as [?|_]; [lia|].
  destruct (Z.ltb_spec (two d0 d1) 1) as [?|_]; [lia|]. cbn [orb].
  rewrite daysIn_daysInMonth by lia.
  destruct (Z.ltb_spec (daysInMonth (year4 y0 y1 y2 y3) (two m0 m1)) (two d0 d1))
    as [?|_]; [lia|]. reflexivity.
Qed.

End CodecProofs.

(** ** The calendar *)

Section CalendarProofs.

Import Spec.

Lemma div_known (b q r : Z) : 0 <= r < b -> (b * q + r) / b = q.
Proof. intros H. symmetry. by apply (Z.div_unique_pos _ _ q r). Qed.

Lemma mod_known (b q r : Z) : 0 <= r < b -> (b * q + r) mod b = r.
Proof. intros H. symmetry. by apply (Z.mod_unique_pos _ _ q r). Qed.

Lemma div_bounds (a b : Z) : 0 < b -> b * (a / b) <= a < b * (a / b) + b.
Proof.
  intros Hb. pose proof (Z.mul_div_le a b Hb).
  pose proof (Z.mul_succ_div_gt a b Hb). lia.
Qed.

Lemma wrapU64_small (z : Z) : 0 <= z < 2 ^ 64 -> wrapU64 z = z.
Proof. intros H. unfold wrapU64. by apply Z.mod_small. Qed.

Lemma wrap64_small (z : Z) : - 2 ^ 63 <= z < 2 ^ 63 -> wrap64 z = z.
Proof. intros H. unfold wrap64. rewrite Z.mod_small by lia. lia. Qed.

Lemma wrap64_add (a b : Z) : wrap64 (wrap64 a + b) = wrap64 (a + b).
Proof.
  unfold wrap64. f_equal.
  replace ((a + 2 ^ 63) mod 2 ^ 64 - 2 ^ 63 + b + 2 ^ 63)
    with ((a + 2 ^ 63) mod 2 ^ 64 + b) by lia.
  rewrite Zplus_mod_idemp_l. f_equal. lia.
Qed.

Lemma wrapU64_wrap64_add (a b : Z) : wrapU64 (wrap64 a + b) = wrapU64 (a + b).
Proof.
  unfold wrapU64, wrap64.
  replace ((a + 2 ^ 63) mod 2 ^ 64 - 2 ^ 63 + b)
    with ((a + 2 ^ 63) mod 2 ^ 64 + (b - 2 ^ 63)) by lia.
  rewrite Zplus_mod_idemp_l. f_equal. lia.
Qed.

Lemma norm_id (hi lo base : Z) : 0 <= lo < base -> norm hi lo base = (hi, lo).
Proof.
  intros H. unfold norm.
  destruct (Z.ltb_spec lo 0) as [?|_]; [lia|].
  destruct (Z.leb_spec base lo) as [?|_]; [lia|]. reflexivity.
Qed.

(** *** Years *)

Lemma cycles_exist (year : Z) :
  0 <= year <= 9999 -> exists q a b c, cycles year q a b c.
Proof.
  intros Hy. set (Y := year - absoluteZeroYear).
  assert (0 <= Y) by (unfold Y, absoluteZeroYear; lia).
  pose proof (div_bounds Y 400 ltac:(lia)) as H400.
  set (q := Y / 400) in *.
  pose proof (div_bounds (Y - 400 * q) 100 ltac:(lia)) as H100.
  set (a := (Y - 400 * q) / 100) in *.
  pose proof (div_bounds (Y - 400 * q - 100 * a) 4 ltac:(lia)) as H4.
  set (b := (Y - 400 * q - 100 * a) / 4) in *.
  exists q, a, b, (Y - 400 * q - 100 * a - 4 * b).
  constructor; fold Y; lia.
Qed.

Lemma daysSinceEpoch_cycles (year q a b c : Z) :
  0 <= year <= 9999 -> cycles year q a b c ->
  daysSinceEpoch year
  = daysPer400Years * q + daysPer100Years * a + daysPer4Years * b + 365 * c.
Proof.
  intros Hy [Heq Hq Ha Hb Hc]. unfold daysSinceEpoch, absoluteZeroYear in *.
  rewrite wrapU64_small by lia. rewrite Heq.
  replace (400 * q + 100 * a + 4 * b + c) with (400 * q + (100 * a + 4 * b + c)) by lia.
  rewrite div_known by lia.
  replace (400 * q + (100 * a + 4 * b + c) - 400 * q) with (100 * a + (4 * b + c)) by lia.
  rewrite div_known by lia.
  replace (100 * a + (4 * b + c) - 100 * a) with (4 * b + c) by lia.
  rewrite div_known by lia. lia.
Qed.

Lemma isLeap_cycles (year q a b c : Z) :
  0 <= year <= 9999 -> cycles year q a b c ->
  isLeap year = (c =? 3) && (negb (b =? 24) || (a =? 3)).
Proof.
  intros Hy [Heq Hq Ha Hb Hc]. unfold isLeap, absoluteZeroYear in *.
  rewrite !Z.rem_mod_nonneg by lia.
  assert (E4 : year mod 4 = (c + 1) mod 4).
  { replace year with ((c + 1) + (100 * q + 25 * a + b - 73069255600) * 4) by lia.
    apply Z_mod_plus_full. }
  assert (E100 : year mod 100 = (4 * b + c + 1) mod 100).
  { replace year with ((4 * b + c + 1) + (4 * q + a - 2922770224) * 100) by lia.
    apply Z_mod_plus_full. }
  assert (E400 : year mod 400 = (100 * a + 4 * b + c + 1) mod 400).
  { replace year with ((100 * a + 4 * b + c + 1) + (q - 730692556) * 400) by lia.
    apply Z_mod_plus_full. }
  rewrite E4, E100, E400.
  assert (c = 0 \/ c = 1 \/ c = 2 \/ c = 3) as Hc' by lia.
  destruct (Z.eqb_spec c 3) as [->|Hc3].
  - change ((3 + 1) mod 4 =? 0) with true. cbn [andb].
    destruct (Z.eqb_spec b 24) as [->|Hb24]; cbn [negb orb].
    + change ((4 * 24 + 3 + 1) mod 100 =? 0) with true. cbn [negb orb].
      assert (a = 0 \/ a = 1 \/ a = 2 \/ a = 3) as Ha' by lia.
      destruct Ha' as [-> | [-> | [-> | ->]]]; reflexivity.
    + replace ((4 * b + 3 + 1) mod 100 =? 0) with false; [done|].
      symmetry. apply Z.eqb_neq. rewrite Z.mod_small by lia. lia.
  - destruct Hc' as [-> | [-> | [-> | ->]]]; try done.
Qed.

Lemma shiftr_small (n : Z) : 0 <= n <= 3 -> n - Z.shiftr n 2 = n.
Proof.
  intros H. assert (n = 0 \/ n = 1 \/ n = 2 \/ n = 3) as Hn by lia.
  destruct Hn as [-> | [-> | [-> | ->]]]; reflexivity.
Qed.

(** [absDate] undoes [daysSinceEpoch]: the year and the day of the year. *)
Lemma absDate_cycles (year q a b c yd sod : Z) :
  0 <= year <= 9999 -> cycles year q a b c ->
  0 <= yd < 365 + (if isLeap year then 1 else 0) ->
  0 <= sod < secondsPerDay ->
  absDate ((daysSinceEpoch year + yd) * secondsPerDay + sod)
  = let '(m, d) := monthDay (isLeap year) yd in (year, m, d, yd).
Proof.
  intros Hy Hcy Hyd Hsod.
  rewrite (daysSinceEpoch_cycles _ _ _ _ _ Hy Hcy).
  rewrite (isLeap_cycles _ _ _ _ _ Hy Hcy) in Hyd.
  pose proof Hcy as [Heq Hq Ha Hb Hc].
  unfold absDate. cbv zeta.
  set (D := daysPer400Years * q + daysPer100Years * a + daysPer4Years * b
            + 365 * c + yd).
  replace ((D * secondsPerDay + sod) / secondsPerDay) with D
    by (rewrite (Z.mul_comm D); symmetry; by apply div_known).
  unfold daysPer400Years, daysPer100Years, daysPer4Years, secondsPerDay,
    secondsPerHour, secondsPerMinute in *.
  assert (Hleap : 0 <= yd <= 364 \/ (yd = 365 /\ c = 3 /\ (b <> 24 \/ a = 3))).
  { destruct (Z.eqb_spec c 3); destruct (Z.eqb_spec b 24); destruct (Z.eqb_spec a 3);
      cbn [andb orb negb] in Hyd; lia. }
  replace (D / (365 * 400 + 97)) with q
    by (symmetry; unfold D;
        replace ((365 * 400 + 97) * q + (365 * 100 + 24) * a + (365 * 4 + 1) * b
                 + 365 * c + yd)
          with ((365 * 400 + 97) * q
                + ((365 * 100 + 24) * a + (365 * 4 + 1) * b + 365 * c + yd)) by lia;
        apply div_known; lia).
  replace ((D - (365 * 400 + 97) * q) / (365 * 100 + 24)
           - Z.shiftr ((D - (365 * 400 + 97) * q) / (365 * 100 + 24)) 2) with a.
  2:{ unfold D.
      replace ((365 * 400 + 97) * q + (365 * 100 + 24) * a + (365 * 4 + 1) * b
               + 365 * c + yd - (365 * 400 + 97) * q)
        with ((365 * 100 + 24) * a + ((365 * 4 + 1) * b + 365 * c + yd)) by lia.
      destruct (Z.eq_dec ((365 * 4 + 1) * b + 365 * c + yd) (365 * 100 + 24)) as [E|E].
      - rewrite E. assert (a = 3) as -> by lia. reflexivity.
      - rewrite div_known by lia. symmetry. apply shiftr_small. lia. }
  replace ((D - (365 * 400 + 97) * q - (365 * 100 + 24) * a) / (365 * 4 + 1)) with b
    by (symmetry; unfold D;
        replace ((365 * 400 + 97) * q + (365 * 100 + 24) * a + (365 * 4 + 1) * b
                 + 365 * c + yd - (365 * 400 + 97) * q - (365 * 100 + 24) * a)
          with ((365 * 4 + 1) * b + (365 * c + yd)) by lia;
        apply div_known; lia).
  replace ((D - (365 * 400 + 97) * q - (365 * 100 + 24) * a - (365 * 4 + 1) * b) / 365
           - Z.shiftr ((D - (365 * 400 + 97) * q - (365 * 100 + 24) * a
                        - (365 * 4 + 1) * b) / 365) 2) with c.
  2:{ unfold D.
      replace ((365 * 400 + 97) * q + (365 * 100 + 24) * a + (365 * 4 + 1) * b
               + 365 * c + yd - (365 * 400 + 97) * q - (365 * 100 + 24) * a
               - (365 * 4 + 1) * b)
        with (365 * c + yd) by lia.
      destruct (Z.eq_dec yd 365) as [E|E].
      - rewrite E. assert (c = 3) as -> by lia. reflexivity.
      - rewrite div_known by lia. symmetry. apply shiftr_small. lia. }
  replace (wrap64 (wrap64 (400 * q + 100 * a + 4 * b + c) + absoluteZeroYear))
    with year
    by (rewrite wrap64_add, wrap64_small; unfold absoluteZeroYear in *; lia).
  replace (D - (365 * 400 + 97) * q - (365 * 100 + 24) * a - (365 * 4 + 1) * b
           - 365 * c) with yd by (unfold D; lia).
  unfold monthDay. cbv zeta.
  destruct (isLeap year && (yd =? 31 + 29 - 1)); [reflexivity|].
  match goal with
  | |- context [if ?cnd then (_ + 1, _) else _] => destruct cnd
  end; reflexivity.
Qed.

(** *** Months and days *)

Lemma monthDayCheck_ok (leap : bool) : monthDayCheck leap = true.
Proof. destruct leap; vm_compute; reflexivity. Qed.

Lemma in_range_list (n : nat) (z : Z) :
  1 <= z <= Z.of_nat n -> In z (map Z.of_nat (seq 1 n)).
Proof.
  intros H. apply in_map_iff. exists (Z.to_nat z). split; [lia|].
  apply in_seq. lia.
Qed.

Lemma monthDay_ydayOf (year month day : Z) :
  1 <= month <= 12 -> 1 <= day <= daysIn month year ->
  monthDay (isLeap year) (ydayOf year month day) = (month, day).
Proof.
  intros Hm Hd. pose proof (monthDayCheck_ok (isLeap year)) as H.
  unfold monthDayCheck in H. rewrite forallb_forall in H.
  specialize (H month (in_range_list 12 month Hm)).
  rewrite forallb_forall in H. unfold daysIn in Hd.
  specialize (H day). unfold ydayOf.
  destruct (monthDay _ _) as [m' d'].
  assert (Hin : (m' =? month) && (d' =? day) = true).
  { apply H. apply in_range_list.
    set (n := if (month =? 2) && isLeap year then 29
              else daysBeforeAt month - daysBeforeAt (month - 1)) in *.
    clearbody n. lia. }
  apply andb_true_iff in Hin as [Hm' Hd'].
  apply Z.eqb_eq in Hm'. apply Z.eqb_eq in Hd'. by subst.
Qed.

Lemma ydayOf_range (year month day : Z) :
  1 <= month <= 12 -> 1 <= day <= daysIn month year ->
  0 <= ydayOf year month day < 365 + (if isLeap year then 1 else 0).
Proof.
  intros Hm Hd. unfold ydayOf, daysIn in *.
  assert (month = 1 \/ month = 2 \/ month = 3 \/ month = 4 \/ month = 5 \/
          month = 6 \/ month = 7 \/ month = 8 \/ month = 9 \/ month = 10 \/
          month = 11 \/ month = 12) as Hc by lia.
  repeat destruct Hc as [->|Hc]; try subst month;
    repeat match goal with
           | H : context [daysBeforeAt ?k] |- _ =>
               let v := eval vm_compute in (daysBeforeAt k) in
               change (daysBeforeAt k) with v in H
           | |- context [daysBeforeAt ?k] =>
               let v := eval vm_compute in (daysBeforeAt k) in
               change (daysBeforeAt k) with v
           end;
    destruct (isLeap year); cbn [Z.eqb Z.leb Z.compare Pos.compare Pos.compare_cont
                                 Pos.eqb andb] in Hd |- *; lia.
Qed.

(** *** Date *)

Lemma unixToAbsolute_eq : unixToInternal + internalToAbsolute = 9223372028715321600.
Proof. reflexivity. Qed.

Lemma absoluteToUnix_eq : absoluteToInternal + internalToUnix = - 9223372028715321600.
Proof. reflexivity. Qed.

Lemma absSeconds_bounds (year month day hour min sec : Z) :
  0 <= year <= 9999 -> 1 <= month <= 12 -> 1 <= day <= daysIn month year ->
  0 <= hour < 24 -> 0 <= min < 60 -> 0 <= sec < 60 ->
  0 <= daysSinceEpoch year /\
  0 <= ydayOf year month day < 366 /\
  (daysSinceEpoch year + 366) * secondsPerDay < 2 ^ 64 /\
  - 2 ^ 62 <= absSeconds year month day hour min sec
              - (unixToInternal + internalToAbsolute) < 2 ^ 62.
Proof.
  intros Hy Hm Hd Hh Hi Hs.
  destruct (cycles_exist year Hy) as (q & a & b & c & Hcy).
  pose proof (ydayOf_range year month day Hm Hd) as Hyd.
  assert (0 <= ydayOf year month day < 366) by (destruct (isLeap year); lia).
  unfold absSeconds. rewrite (daysSinceEpoch_cycles _ _ _ _ _ Hy Hcy).
  destruct Hcy as [Heq Hq Ha Hb Hc]. rewrite unixToAbsolute_eq.
  unfold daysPer400Years, daysPer100Years, daysPer4Years, secondsPerDay,
    secondsPerHour, secondsPerMinute, absoluteZeroYear in *.
  set (yd := ydayOf year month day) in *. clearbody yd.
  split_and!; lia.
Qed.

Lemma daysBeforeAt_range (month : Z) :
  1 <= month <= 12 -> 0 <= daysBeforeAt (month - 1) <= 334.
Proof.
  intros Hm.
  assert (month = 1 \/ month = 2 \/ month = 3 \/ month = 4 \/ month = 5 \/
          month = 6 \/ month = 7 \/ month = 8 \/ month = 9 \/ month = 10 \/
          month = 11 \/ month = 12) as Hc by lia.
  repeat destruct Hc as [->|Hc]; try subst month; vm_compute; split; discriminate.
Qed.

Lemma daysIn_range (month year : Z) :
  1 <= month <= 12 -> 28 <= daysIn month year <= 31.
Proof.
  intros Hm. unfold daysIn.
  assert (month = 1 \/ month = 2 \/ month = 3 \/ month = 4 \/ month = 5 \/
          month = 6 \/ month = 7 \/ month = 8 \/ month = 9 \/ month = 10 \/
          month = 11 \/ month = 12) as Hc by lia.
  repeat destruct Hc as [->|Hc]; try subst month; destruct (isLeap year);
    vm_compute; split; discriminate.
Qed.

Lemma lookup_no_transition (l : Location) (sec : Z) :
  tx l = [] -> lookup l sec = (zone0 l, alpha, omega).
Proof. intros E. unfold lookup. by rewrite E. Qed.

(** For a date and a time of day in range, [Date] returns the requested
    wall-clock reading minus the offset it has chosen. *)
Lemma Date_chosen (year month day hour min sec ns : Z) (l : Location) :
  0 <= year <= 9999 -> 1 <= month <= 12 -> 1 <= day <= daysIn month year ->
  0 <= hour < 24 -> 0 <= min < 60 -> 0 <= sec < 60 -> 0 <= ns < 1000000000 ->
  let W := absSeconds year month day hour min sec
           - (unixToInternal + internalToAbsolute) in
  Date year month day hour min sec ns l = mkTime (W - chosenOffset l W) ns l.
Proof.
  intros Hy Hm Hd Hh Hi Hs Hns W0.
  destruct (absSeconds_bounds year month day hour min sec Hy Hm Hd Hh Hi Hs)
    as (HD & Hyd & HA & HW).
  pose proof (daysBeforeAt_range month Hm) as HB.
  pose proof (daysIn_range month year Hm) as HI.
  unfold Date.
  rewrite (norm_id year (month - 1) 12) by lia.
  rewrite (norm_id sec ns 1000000000) by lia.
  rewrite (norm_id min sec 60) by lia.
  rewrite (norm_id hour min 60) by lia.
  rewrite (norm_id day hour 24) by lia.
  cbv beta iota zeta. rewrite !Z.sub_add.
  set (W := absSeconds year month day hour min sec
            - (unixToInternal + internalToAbsolute)) in *.
  match goal with
  | |- context [lookup l ?u] => assert (EW : u = W); [|rewrite !EW]
  end.
  { rewrite wrap64_add. unfold W, absSeconds, ydayOf in *.
    rewrite unixToAbsolute_eq, absoluteToUnix_eq in *.
    unfold secondsPerDay, secondsPerHour, secondsPerMinute in *.
    rewrite (wrapU64_small (daysSinceEpoch year + daysBeforeAt (month - 1))) by lia.
    rewrite (wrapU64_small (day - 1)) by lia.
    rewrite (wrapU64_small (hour * (60 * 60) + min * 60 + sec)) by lia.
    destruct (isLeap year && (3 <=? month));
      rewrite ?(wrapU64_small (daysSinceEpoch year + daysBeforeAt (month - 1) + 1)) by lia;
      repeat match goal with
             | |- context [wrapU64 ?z] =>
                 lazymatch z with
                 | context [wrapU64 _] => fail
                 | _ => rewrite (wrapU64_small z) by lia
                 end
             end;
      rewrite wrap64_small by lia; lia. }
  unfold W0. fold W. unfold chosenOffset.
  destruct (lookup l W) as [[offset start] end_] eqn:EL.
  destruct (offset =? 0) eqn:E0; [by rewrite Z.sub_0_r|].
  by destruct ((W - offset <? start) || (end_ <=? W - offset)).
Qed.

Lemma chosenOffset_no_transition (l : Location) (W : Z) :
  tx l = [] -> chosenOffset l W = zone0 l.
Proof.
  intros Etx. unfold chosenOffset. rewrite !(lookup_no_transition _ _ Etx).
  destruct (Z.eqb_spec (zone0 l) 0) as [->|_]; [done|].
  by destruct ((W - zone0 l <? alpha) || (omega <=? W - zone0 l)).
Qed.

Lemma Date_in_range (year month day hour min sec ns : Z) (l : Location) :
  0 <= year <= 9999 -> 1 <= month <= 12 -> 1 <= day <= daysIn month year ->
  0 <= hour < 24 -> 0 <= min < 60 -> 0 <= sec < 60 -> 0 <= ns < 1000000000 ->
  exists off,
    Date year month day hour min sec ns l
    = mkTime (absSeconds year month day hour min sec
              - (unixToInternal + internalToAbsolute) - off) ns l /\
    (tx l = [] -> off = zone0 l).
Proof.
  intros Hy Hm Hd Hh Hi Hs Hns. eexists. split.
  - by apply Date_chosen.
  - apply chosenOffset_no_transition.
Qed.

(** *** Reading an instant back *)

Lemma fields_of_absSeconds (year month day hour min sec : Z) :
  0 <= year <= 9999 -> 1 <= month <= 12 -> 1 <= day <= daysIn month year ->
  0 <= hour < 24 -> 0 <= min < 60 -> 0 <= sec < 60 ->
  let A := absSeconds year month day hour min sec in
  absDate A = (year, month, day, ydayOf year month day) /\
  Z.quot (A mod secondsPerDay) secondsPerHour = hour /\
  Z.quot (A mod secondsPerHour) secondsPerMinute = min /\
  A mod secondsPerMinute = sec.
Proof.
  intros Hy Hm Hd Hh Hi Hs A.
  destruct (cycles_exist year Hy) as (q & a & b & c & Hcy).
  pose proof (ydayOf_range year month day Hm Hd) as Hyd.
  destruct (absSeconds_bounds year month day hour min sec Hy Hm Hd Hh Hi Hs)
    as (HD & _ & _ & _).
  split_and!.
  - unfold A, absSeconds.
    rewrite (absDate_cycles year q a b c) by
      (done || unfold secondsPerDay, secondsPerHour, secondsPerMinute; lia).
    by rewrite monthDay_ydayOf.
  - unfold A, absSeconds, secondsPerDay, secondsPerHour, secondsPerMinute.
    set (D := daysSinceEpoch year + ydayOf year month day). clearbody D.
    replace (D * (24 * (60 * 60)) + (hour * (60 * 60) + min * 60 + sec))
      with (24 * (60 * 60) * D + (hour * (60 * 60) + min * 60 + sec)) by lia.
    rewrite mod_known by lia. rewrite Z.quot_div_nonneg by lia.
    replace (hour * (60 * 60) + min * 60 + sec)
      with (60 * 60 * hour + (min * 60 + sec)) by lia.
    apply div_known. lia.
  - unfold A, absSeconds, secondsPerDay, secondsPerHour, secondsPerMinute.
    set (D := daysSinceEpoch year + ydayOf year month day). clearbody D.
    replace (D * (24 * (60 * 60)) + (hour * (60 * 60) + min * 60 + sec))
      with (60 * 60 * (24 * D + hour) + (min * 60 + sec)) by lia.
    rewrite mod_known by lia. rewrite Z.quot_div_nonneg by lia.
    replace (min * 60 + sec) with (60 * min + sec) by lia.
    apply div_known. lia.
  - unfold A, absSeconds, secondsPerDay, secondsPerHour, secondsPerMinute.
    set (D := daysSinceEpoch year + ydayOf year month day). clearbody D.
    replace (D * (24 * (60 * 60)) + (hour * (60 * 60) + min * 60 + sec))
      with (60 * (1440 * D + 60 * hour + min) + sec) by lia.
    apply mod_known. lia.
Qed.

(** The instant [Date] returns has the requested components on the wall
    clock of its location whenever that wall clock shows the requested
    reading at it. *)
Lemma Date_components (year month day hour min sec : Z) (l : Location) :
  0 <= year <= 9999 -> 1 <= month <= 12 -> 1 <= day <= daysIn month year ->
  0 <= hour < 24 -> 0 <= min < 60 -> 0 <= sec < 60 ->
  wallClock (Date year month day hour min sec 0 l)
  = unixSec (Date year month day hour min sec 0 UTC) ->
  let t := Date year month day hour min sec 0 l in
  loc t = l /\
  Year t = year /\ Month t = month /\ Day t = day /\
  Hour t = hour /\ Minute t = min /\ Second t = sec.
Proof.
  intros Hy Hm Hd Hh Hi Hs Hwall t.
  destruct (Date_in_range year month day hour min sec 0 l Hy Hm Hd Hh Hi Hs
              ltac:(lia)) as (off & Et & _).
  destruct (Date_in_range year month day hour min sec 0 UTC Hy Hm Hd Hh Hi Hs
              ltac:(lia)) as (off0 & Eu & Hoff0).
  specialize (Hoff0 eq_refl). cbn [zone0 UTC] in Hoff0. subst off0.
  rewrite Eu in Hwall. cbn [unixSec] in Hwall. rewrite Z.sub_0_r in Hwall.
  destruct (absSeconds_bounds year month day hour min sec Hy Hm Hd Hh Hi Hs)
    as (HD & Hyd & HA & HW).
  destruct (fields_of_absSeconds year month day hour min sec Hy Hm Hd Hh Hi Hs)
    as (Hdate & Hhour & Hmin & Hsec).
  assert (Eabs : abs t = absSeconds year month day hour min sec).
  { unfold abs. fold (offsetAt (loc t) (unixSec t)). fold (wallClock t).
    unfold t. rewrite Hwall. rewrite wrapU64_small.
    - lia.
    - unfold absSeconds in *. rewrite unixToAbsolute_eq in *.
      unfold secondsPerDay, secondsPerHour, secondsPerMinute in *. lia. }
  split; [unfold t; by rewrite Et|].
  unfold Year, Month, Day, Hour, Minute, Second. rewrite Eabs, Hdate.
  by split_and!.
Qed.

Lemma readingExists_no_transition (l : Location) (year month day hour min sec : Z) :
  0 <= year <= 9999 -> 1 <= month <= 12 -> 1 <= day <= daysIn month year ->
  0 <= hour < 24 -> 0 <= min < 60 -> 0 <= sec < 60 ->
  tx l = [] ->
  wallClock (Date year month day hour min sec 0 l)
  = unixSec (Date year month day hour min sec 0 UTC).
Proof.
  intros Hy Hm Hd Hh Hi Hs Etx.
  destruct (Date_in_range year month day hour min sec 0 l Hy Hm Hd Hh Hi Hs
              ltac:(lia)) as (off & Et & Hoff).
  destruct (Date_in_range year month day hour min sec 0 UTC Hy Hm Hd Hh Hi Hs
              ltac:(lia)) as (off0 & Eu & Hoff0).
  specialize (Hoff0 eq_refl). specialize (Hoff Etx). cbn [zone0 UTC] in Hoff0.
  subst off off0. rewrite Et, Eu. unfold wallClock, offsetAt. cbn [unixSec loc].
  rewrite (lookup_no_transition _ _ Etx). cbn [fst]. lia.
Qed.

(** In a regular table every offset is less than a day. *)
Lemma lookupFrom_offset_bound (trans : list (Z * Z)) :
  forall off start x,
    - dayLength < off < dayLength -> regularFrom start trans ->
    - dayLength < fst (fst (lookupFrom off start trans x)) < dayLength.
Proof.
  induction trans as [|[when o'] rest IH]; intros off start x Hoff Hr.
  - exact Hoff.
  - destruct Hr as (_ & Ho' & Hrest). cbn [lookupFrom].
    destruct (x <? when); [exact Hoff|]. by apply IH.
Qed.

(** In a regular table the two days around a reading hold one transition at
    most: the lookup is the same all over them, or it changes once. *)
Lemma lookupFrom_local (trans : list (Z * Z)) :
  forall off start W,
    regularFrom start trans -> - dayLength < off < dayLength ->
    start <= W - dayLength ->
    (exists o s e,
        - dayLength < o < dayLength /\
        forall x, W - dayLength <= x <= W + dayLength ->
                  lookupFrom off start trans x = (o, s, e)) \/
    (exists w ob sb oa ea,
        - dayLength < ob < dayLength /\ - dayLength < oa < dayLength /\
        forall x, W - dayLength <= x <= W + dayLength ->
                  lookupFrom off start trans x
                  = if x <? w then (ob, sb, w) else (oa, w, ea)).
Proof.
  induction trans as [|[when o'] rest IH]; intros off start W Hr Hoff Hs.
  - left. by exists off, start, omega.
  - destruct Hr as (Hgap & Ho' & Hrest).
    destruct (Z.lt_ge_cases (W + dayLength) when) as [Hlate|Hle].
    { left. exists off, start, when. split; [exact Hoff|].
      intros x Hx. cbn [lookupFrom].
      destruct (Z.ltb_spec x when); [done|lia]. }
    destruct (Z.le_gt_cases when (W - dayLength)) as [Hearly|Hin].
    { destruct (IH o' when W Hrest Ho' Hearly)
        as [(o & s & e & Ho & Hall)|(w & ob & sb & oa & ea & Hob & Hoa & Hall)].
      - left. exists o, s, e. split; [exact Ho|].
        intros x Hx. cbn [lookupFrom].
        destruct (Z.ltb_spec x when); [lia|by apply Hall].
      - right. exists w, ob, sb, oa, ea. split_and!; [lia..|].
        intros x Hx. cbn [lookupFrom].
        destruct (Z.ltb_spec x when); [lia|by apply Hall]. }
    right. destruct rest as [|[when2 o2] rest].
    + exists when, off, start, o', omega. split_and!; [lia..|].
      intros x Hx. cbn [lookupFrom]. by destruct (x <? when).
    + destruct Hrest as (Hgap2 & _ & _).
      exists when, off, start, o', when2. split_and!; [lia..|].
      intros x Hx. cbn [lookupFrom].
      destruct (Z.ltb_spec x when); [done|].
      destruct (Z.ltb_spec x when2); [done|unfold dayLength in *; lia].
Qed.

(** In a regular location, the offset [Date] chooses for a reading that
    some instant shows is the offset in force at the instant it returns. *)
Lemma chosenOffset_consistent (l : Location) (W : Z) :
  regularLocation l -> alpha + dayLength <= W -> shown l W ->
  offsetAt l (W - chosenOffset l W) = chosenOffset l W.
Proof.
  intros [Hz Hr] HW [u Hu].
  pose proof (lookupFrom_offset_bound (tx l) (zone0 l) alpha u Hz Hr) as Hub.
  unfold chosenOffset, offsetAt, lookup in *.
  destruct (lookupFrom_local (tx l) (zone0 l) alpha W Hr Hz ltac:(lia))
    as [(o & s & e & Ho & Hall)|(w & ob & sb & oa & ea & Hob & Hoa & Hall)].
  - rewrite (Hall W) by lia.
    destruct (Z.eqb_spec o 0) as [->|_].
    + rewrite Hall by lia. done.
    + destruct ((W - o <? s) || (e <=? W - o));
        repeat (rewrite (Hall (W - o)) by lia; cbn [fst]); done.
  - assert (Hwin : W - dayLength <= u <= W + dayLength) by lia.
    rewrite (Hall u Hwin) in Hu, Hub.
    destruct (Z.ltb_spec u w); cbn [fst] in Hu, Hub;
      repeat match goal with
        | |- context [lookupFrom _ _ _ ?x] => rewrite (Hall x) by lia
        | |- context [?a <? ?b] => destruct (Z.ltb_spec a b)
        | |- context [?a <=? ?b] => destruct (Z.leb_spec a b)
        | |- context [?a =? ?b] => destruct (Z.eqb_spec a b)
        | _ => progress cbn beta iota delta [fst snd orb]
        end; lia.
Qed.

(** In a regular location a reading that some instant shows is the reading
    of the instant [Date] returns for it. *)
Lemma readingExists_regular (l : Location) (year month day hour min sec : Z) :
  0 <= year <= 9999 -> 1 <= month <= 12 -> 1 <= day <= daysIn month year ->
  0 <= hour < 24 -> 0 <= min < 60 -> 0 <= sec < 60 ->
  regularLocation l ->
  shown l (unixSec (Date year month day hour min sec 0 UTC)) ->
  wallClock (Date year month day hour min sec 0 l)
  = unixSec (Date year month day hour min sec 0 UTC).
Proof.
  intros Hy Hm Hd Hh Hi Hs Hreg.
  destruct (absSeconds_bounds year month day hour min sec Hy Hm Hd Hh Hi Hs)
    as (_ & _ & _ & HW).
  rewrite (Date_chosen year month day hour min sec 0 l Hy Hm Hd Hh Hi Hs
             ltac:(lia)).
  rewrite (Date_chosen year month day hour min sec 0 UTC Hy Hm Hd Hh Hi Hs
             ltac:(lia)).
  rewrite (chosenOffset_no_transition UTC) by reflexivity.
  cbn [zone0 UTC unixSec]. rewrite Z.sub_0_r. intros Hshown.
  unfold wallClock. cbn [unixSec loc].
  rewrite chosenOffset_consistent; [lia|exact Hreg| |exact Hshown].
  unfold alpha, dayLength. lia.
Qed.

End CalendarProofs.

(** ** The codec and the calendar together *)

Section ParseProofs.

Context {FS : Type} `{!OS FS}.
Import Spec.

Lemma validComponents_ranges (dt : string) :
  validDT dt = true -> validComponents dt = true ->
  0 <= yearOf dt <= 9999 /\ 1 <= monthOf dt <= 12 /\
  1 <= dayOf dt <= daysIn (monthOf dt) (yearOf dt) /\
  0 <= hourOf dt < 24 /\ 0 <= minuteOf dt < 60 /\ 0 <= secondOf dt < 60.
Proof.
  intros Hv Hc.
  assert (Hy : 0 <= yearOf dt <= 9999).
  { apply validDT_inv in Hv
      as (y0 & y1 & y2 & y3 & m0 & m1 & d0 & d1 & h0 & h1 & i0 & i1 & s0 & s1
          & -> & Hdig).
    destruct (layout_components y0 y1 y2 y3 m0 m1 d0 d1 h0 h1 i0 i1 s0 s1 EmptyString)
      as (-> & _).
    repeat (apply Forall_cons_1 in Hdig as [? Hdig]). by apply year4_range. }
  unfold validComponents, validCalendar in Hc.
  repeat (apply andb_true_iff in Hc as [Hc ?]).
  repeat match goal with
         | H : Z.leb _ _ = true |- _ => apply Z.leb_le in H
         | H : Z.ltb _ _ = true |- _ => apply Z.ltb_lt in H
         end.
  rewrite daysIn_daysInMonth by lia. lia.
Qed.

(** C2 (amended).  Every text of the fixed structure whose components
    form a valid calendar date and time of day is parsed by [createDate]
    into an instant in the local time zone; the year, month, day, hour,
    minute and second of that instant equal the components of the text
    whenever the reading exists in the local time zone: always in a zone
    without transitions, and in a zone with regular transitions whenever
    some instant shows the reading on its wall clock. *)
Theorem createDate_components (dt : string) :
  validDT dt = true -> validComponents dt = true ->
  exists t,
    createDate dt = Parsed t /\ loc t = Local /\
    (readingExists Local dt -> componentsKept dt t) /\
    (tx Local = [] -> componentsKept dt t) /\
    (regularLocation Local -> shown Local (readingOf dt) -> componentsKept dt t).
Proof.
  intros Hv Hc.
  destruct (validComponents_ranges dt Hv Hc) as (Hy & Hm & Hd & Hh & Hi & Hs).
  eexists. split; [by apply createDate_parses|].
  assert (Hkept : readingExists Local dt ->
                  loc (Date (yearOf dt) (monthOf dt) (dayOf dt) (hourOf dt)
                            (minuteOf dt) (secondOf dt) 0 Local) = Local /\
                  componentsKept dt (Date (yearOf dt) (monthOf dt) (dayOf dt)
                                          (hourOf dt) (minuteOf dt) (secondOf dt)
                                          0 Local)).
  { intros Hr.
    destruct (Date_components _ _ _ _ _ _ Local Hy Hm Hd Hh Hi Hs Hr)
      as (Hloc & Hfields).
    split; [exact Hloc|exact Hfields]. }
  assert (Hloc : loc (Date (yearOf dt) (monthOf dt) (dayOf dt) (hourOf dt)
                           (minuteOf dt) (secondOf dt) 0 Local) = Local).
  { destruct (Date_in_range _ _ _ _ _ _ 0 Local Hy Hm Hd Hh Hi Hs ltac:(lia))
      as (off & -> & _). reflexivity. }
  split_and!.
  - exact Hloc.
  - intros Hr. by apply Hkept.
  - intros Etx. apply Hkept. unfold readingExists, readingOf.
    by apply readingExists_no_transition.
  - intros Hreg Hshown. apply Hkept. unfold readingExists, readingOf.
    by apply readingExists_regular.
Qed.

End ParseProofs.

(** * Further properties of the program *)

(** ** The path resolver *)

Section ResolverProperties.

Context {FS : Type} `{!OS FS}.
Import Spec.

Lemma resolve_app (t : FS) (a b : list string) :
  resolve t (a ++ b) = resolve t a ++ resolve t b.
Proof. unfold resolve. apply flat_map_app. Qed.

Lemma globLogs_app (t : FS) (a b : list string) :
  globLogs t (a ++ b) = globLogs t a ++ globLogs t b.
Proof. unfold globLogs. apply flat_map_app. Qed.

(** X1.  Expanding the patterns [a ++ b] is expanding [a] and then [b]:
    both runs return, the result is the two results one after the other,
    and the process is left in the state the second run leaves. *)
Theorem expandGlobs_app (a b : list string) (w : World FS) :
  exists (r1 r2 : list string) (w1 w2 : World FS),
    expandGlobs a w = (Normal r1, w1) /\
    expandGlobs b w1 = (Normal r2, w2) /\
    expandGlobs (a ++ b) w = (Normal (r1 ++ r2), w2).
Proof.
  eexists _, _, _, _. rewrite !expandGlobs_run. split; [reflexivity|].
  cbn [fs trace]. split; [reflexivity|].
  by rewrite resolve_app, globLogs_app, app_assoc.
Qed.

(** X2.  A malformed pattern ([filepath.Glob] fails on it) is logged once
    and contributes nothing, also when an entry of that name exists: the
    literal fallback is not tried for it.  The patterns before and after it
    are expanded as if it were not there. *)
Theorem expandGlobs_malformed_pattern
    (pattern : string) (before after : list string) (w : World FS) :
  Glob (fs w) pattern = None ->
  expandGlobs [pattern] w
  = (Normal [], mkWorld (fs w) (trace w ++ [LogGlobError pattern])) /\
  fst (expandGlobs (before ++ pattern :: after) w)
  = fst (expandGlobs (before ++ after) w) /\
  fs (snd (expandGlobs (before ++ pattern :: after) w)) = fs w.
Proof.
  intros HG. rewrite !expandGlobs_run. cbn [fst snd fs].
  rewrite !resolve_app. cbn [resolve globLogs flat_map]. unfold resolveOne.
  rewrite HG. cbn [app]. rewrite ?app_nil_r. done.
Qed.

(** X3.  The matches of a pattern are taken as [filepath.Glob] lists them:
    all of them, in its order, whatever [os.Stat] returns for them, and
    without a log line; a pattern given twice contributes its matches
    twice. *)
Theorem expandGlobs_matches_verbatim
    (pattern m : string) (ms : list string) (w : World FS) :
  Glob (fs w) pattern = Some (m :: ms) ->
  expandGlobs [pattern] w = (Normal (m :: ms), w) /\
  expandGlobs [pattern; pattern] w = (Normal ((m :: ms) ++ (m :: ms)), w).
Proof.
  intros HG. rewrite !expandGlobs_run.
  cbn [resolve globLogs flat_map]. unfold resolveOne. rewrite HG.
  cbn [app]. rewrite ?app_nil_r. by destruct w.
Qed.

Lemma elem_of_resolve (t : FS) (args : list string) (f : string) :
  f ∈ resolve t args <->
  exists p, p ∈ args /\
    ((exists ms, Glob t p = Some ms /\ f ∈ ms) \/
     (Glob t p = Some [] /\ f = p /\ is_Some (Stat t p))).
Proof.
  unfold resolve. rewrite !list_elem_of_In, in_flat_map. split.
  - intros (p & Hp & Hf). exists p. rewrite list_elem_of_In. split; [done|].
    unfold resolveOne in Hf.
    destruct (Glob t p) as [[|g gs]|] eqn:EG.
    + destruct (Stat t p) eqn:ES; [|by destruct Hf].
      destruct Hf as [<-|[]]. right. by eauto.
    + left. exists (g :: gs). by rewrite list_elem_of_In.
    + by destruct Hf.
  - intros (p & Hp & Hf). exists p. rewrite list_elem_of_In in Hp.
    split; [done|]. unfold resolveOne.
    destruct Hf as [(ms & -> & Hf)|(-> & -> & [fi ->])].
    + destruct ms as [|g gs]; [by apply elem_of_nil in Hf|].
      by rewrite <- list_elem_of_In.
    + by left.
Qed.

(** X4.  [expandGlobs] returns, and a name is in its result exactly when
    it is a match of one of the patterns, or is itself a pattern that has no
    match and names an existing entry. *)
Theorem expandGlobs_elements (args : list string) (w : World FS) (f : string) :
  exists r : list string,
    fst (expandGlobs args w) = Normal r /\
    (f ∈ r <->
     exists p, p ∈ args /\
       ((exists ms, Glob (fs w) p = Some ms /\ f ∈ ms) \/
        (Glob (fs w) p = Some [] /\ f = p /\ is_Some (Stat (fs w) p)))).
Proof.
  exists (resolve (fs w) args). rewrite expandGlobs_run. split; [done|].
  apply elem_of_resolve.
Qed.

Lemma globLogs_spec (t : FS) (args : list string) :
  Forall (fun e => exists p, e = LogGlobError p /\ p ∈ args /\ Glob t p = None)
         (globLogs t args) /\
  (length (globLogs t args) <= length args)%nat.
Proof.
  unfold globLogs. induction args as [|p args [IH1 IH2]]; cbn [flat_map].
  - split; [constructor|done].
  - split.
    + apply Forall_app. split.
      * destruct (Glob t p) eqn:EG; [constructor|].
        repeat constructor. exists p. split_and!; [done| |done]. by left.
      * eapply Forall_impl; [exact IH1|].
        intros e (q & -> & Hq & HG). exists q. split_and!; [done| |done].
        by right.
    + rewrite length_app. destruct (Glob t p); cbn [length]; lia.
Qed.

Lemma globLogs_malformed (t : FS) (args : list string) :
  globLogs t args
  = map LogGlobError (filter (fun p => Glob t p = None) args).
Proof.
  unfold globLogs. induction args as [|p args IH]; [done|]. cbn [flat_map].
  rewrite IH. destruct (Glob t p) as [ms|] eqn:EG.
  - by rewrite filter_cons_False by (by rewrite EG).
  - by rewrite filter_cons_True by done.
Qed.

(** X5.  [expandGlobs] only reads: it returns, it leaves the file system
    as it was, and what it writes is exactly one log line for each
    malformed pattern among its arguments, in their order, and nothing
    else; when no argument is malformed it writes nothing. *)
Theorem expandGlobs_only_logs (args : list string) (w : World FS) :
  exists (r : list string) (logs : list Event),
    expandGlobs args w = (Normal r, mkWorld (fs w) (trace w ++ logs)) /\
    logs = map LogGlobError (filter (fun p => Glob (fs w) p = None) args) /\
    Forall (fun e => exists p, e = LogGlobError p /\ p ∈ args /\
                               Glob (fs w) p = None) logs /\
    (length logs <= length args)%nat /\
    ((forall p, p ∈ args -> Glob (fs w) p <> None) -> logs = []).
Proof.
  eexists _, _. rewrite expandGlobs_run. split; [reflexivity|].
  split; [apply globLogs_malformed|].
  destruct (globLogs_spec (fs w) args) as [H1 H2]. split_and!; [done..|].
  intros Hall. destruct (globLogs (fs w) args) as [|e logs]; [done|].
  apply Forall_cons_1 in H1 as [(p & _ & Hp & HG) _]. by destruct (Hall p Hp).
Qed.

End ResolverProperties.

(** ** FormatWithCommas *)

Section FormatWithCommasProperties.

Import Spec.

Lemma filter_rev_comm {A} (P : A -> Prop) `{!forall x, Decision (P x)} (l : list A) :
  filter P (rev l) = rev (filter P l).
Proof.
  induction l as [|x l IH]; [done|]. cbn [rev]. rewrite filter_app, IH.
  destruct (decide (P x)) as [Hx|Hx].
  - rewrite !filter_cons_True by done. by rewrite filter_nil.
  - rewrite !filter_cons_False by done. by rewrite filter_nil, app_nil_r.
Qed.

Lemma filter_groupRevK (rds : list ascii) :
  forall k, filter (fun c => c <> ","%char) (groupRevK k rds)
            = filter (fun c => c <> ","%char) rds.
Proof.
  induction rds as [|d rest IH]; intros k; [done|].
  destruct rest as [|e rest']; [done|]. rewrite groupRevK_cons2.
  assert (Hrest : filter (fun c => c <> ","%char)
                    (if (S k =? 3)%nat then ","%char :: groupRevK 0 (e :: rest')
                     else groupRevK (S k) (e :: rest'))
                  = filter (fun c => c <> ","%char) (e :: rest')).
  { destruct (S k =? 3)%nat; [|apply IH].
    rewrite filter_cons_False by (intros H; by apply H). apply IH. }
  destruct (decide (d <> ","%char)) as [Hd|Hd].
  - rewrite !(filter_cons_True _ d) by done. by rewrite Hrest.
  - rewrite !(filter_cons_False _ d) by done. by rewrite Hrest.
Qed.

Lemma filter_digits (ds : list ascii) :
  Forall (fun c => isDigitByte c = true) ds ->
  filter (fun c => c <> ","%char) ds = ds.
Proof.
  induction 1 as [|c ds Hc _ IH]; [done|].
  rewrite filter_cons_True by (intros ->; discriminate Hc). by rewrite IH.
Qed.

Lemma removeCommas_groupThousands (ds : list ascii) :
  Forall (fun c => isDigitByte c = true) ds ->
  filter (fun c => c <> ","%char) (groupThousands ds) = ds.
Proof.
  intros Hds. unfold groupThousands.
  rewrite filter_rev_comm, <- groupRevK_groupRev, filter_groupRevK.
  rewrite filter_rev_comm, rev_involutive. by apply filter_digits.
Qed.

(** X6.  Taking the commas out of the text [FormatWithCommas] returns
    gives the text of [strconv.FormatInt]: the function adds commas and
    changes nothing else, for every int64. *)
Theorem FormatWithCommas_removeCommas (n : int64) :
  exists s : string,
    FormatWithCommas n = Ok s /\ removeCommas s = strconv.FormatInt n.
Proof.
  rewrite FormatWithCommas_grouped_digits. eexists. split; [reflexivity|].
  pose proof (int64_range n) as Hn.
  destruct (digits_decimalOf (Z.abs n) ltac:(lia)) as (Hds & _).
  unfold removeCommas, grouped, strconv.FormatInt.
  destruct (Z.ltb_spec n 0) as [Hneg|Hpos].
  - rewrite Z.abs_neq in * by lia. cbn [list_ascii_of_string].
    rewrite filter_cons_True by done.
    rewrite list_ascii_of_string_of_list_ascii.
    by rewrite removeCommas_groupThousands.
  - rewrite Z.abs_eq in * by lia.
    rewrite list_ascii_of_string_of_list_ascii.
    by rewrite removeCommas_groupThousands.
Qed.

(** The number of digits [strconv.formatBits] writes. *)
Lemma formatBits_length (fuel : nat) :
  forall (u : Z) (acc : list ascii) (k : nat),
    (1 <= k <= fuel)%nat -> 0 <= u ->
    (k = 1%nat \/ 10 ^ (Z.of_nat k - 1) <= u) -> u < 10 ^ Z.of_nat k ->
    length (strconv.formatBits fuel u acc) = (length acc + k)%nat.
Proof.
  induction fuel as [|fuel IH]; intros u acc k Hk Hu Hlo Hhi; [lia|].
  cbn [strconv.formatBits]. destruct (Z.leb_spec 10 u) as [Hge|Hlt].
  - destruct k as [|[|k]]; [lia|cbn in Hhi; lia|].
    destruct Hlo as [?|Hlo]; [lia|].
    rewrite (IH _ _ (S k)).
    + cbn [length]. lia.
    + lia.
    + apply Z.div_pos; lia.
    + destruct k as [|k]; [by left|right].
      replace (Z.of_nat (S (S (S k))) - 1) with (Z.succ (Z.of_nat (S (S k)) - 1))
        in Hlo by lia.
      rewrite Z.pow_succ_r in Hlo by lia.
      apply Z.div_le_lower_bound; lia.
    + rewrite (Nat2Z.inj_succ (S k)), Z.pow_succ_r in Hhi by lia.
      apply Z.div_lt_upper_bound; lia.
  - cbn [length]. destruct k as [|[|k]]; [lia|lia|].
    destruct Hlo as [?|Hlo]; [lia|].
    assert (10 ^ 1 <= 10 ^ (Z.of_nat (S (S k)) - 1))
      by (apply Z.pow_le_mono_r; lia).
    lia.
Qed.

Lemma digits_length (u : Z) (k : nat) :
  (1 <= k <= 20)%nat -> 0 <= u ->
  (k = 1%nat \/ 10 ^ (Z.of_nat k - 1) <= u) -> u < 10 ^ Z.of_nat k ->
  length (strconv.digits u) = k.
Proof.
  intros Hk Hu Hlo Hhi. unfold strconv.digits.
  by rewrite (formatBits_length 20 u [] k).
Qed.

Lemma length_groupThousands (ds : list ascii) :
  ds <> [] ->
  length (groupThousands ds) = (length ds + (length ds - 1) / 3)%nat.
Proof.
  intros Hne. unfold groupThousands.
  rewrite length_rev, <- groupRevK_groupRev, groupRevK_length.
  - by rewrite length_rev, Nat.add_0_r.
  - lia.
  - intros E. apply (f_equal (@rev ascii)) in E. by rewrite rev_involutive in E.
Qed.

(** X7.  The length of the text: for a number of [k] decimal digits
    ([10^(k-1) <= |n| < 10^k], or [k = 1] for a single digit),
    [FormatWithCommas] returns a text of [k] digits, [(k - 1) / 3] commas
    and the minus sign of a negative number. *)
Theorem FormatWithCommas_length (n : int64) (k : nat) :
  (1 <= k)%nat ->
  (k = 1%nat \/ 10 ^ (Z.of_nat k - 1) <= Z.abs n) ->
  Z.abs n < 10 ^ Z.of_nat k ->
  exists s : string,
    FormatWithCommas n = Ok s /\
    String.length s = (k + (k - 1) / 3 + (if (n <? 0)%Z then 1 else 0))%nat.
Proof.
  intros Hk Hlo Hhi. pose proof (int64_range n) as Hn.
  assert (Hk20 : (k <= 20)%nat).
  { destruct Hlo as [->|Hlo]; [lia|].
    destruct (Nat.le_gt_cases k 20) as [?|Hgt]; [done|].
    assert (10 ^ 20 <= 10 ^ (Z.of_nat k - 1)) by (apply Z.pow_le_mono_r; lia).
    lia. }
  rewrite FormatWithCommas_grouped_digits. eexists. split; [reflexivity|].
  assert (Hlen := digits_length (Z.abs n) k ltac:(lia) ltac:(lia) Hlo Hhi).
  assert (Hne : strconv.digits (Z.abs n) <> []).
  { intros E. rewrite E in Hlen. cbn in Hlen. lia. }
  unfold grouped. destruct (n <? 0); cbn [String.length];
    rewrite length_string_of_list_ascii, length_groupThousands, Hlen by done; lia.
Qed.

Lemma digits_count (m : nat) :
  forall u, 0 <= u < 10 ^ Z.of_nat m ->
  exists k : nat, (1 <= k)%nat /\ (k <= Nat.max 1 m)%nat /\
    (k = 1%nat \/ 10 ^ (Z.of_nat k - 1) <= u) /\ u < 10 ^ Z.of_nat k.
Proof.
  induction m as [|m IH]; intros u Hu.
  - exists 1%nat. cbn in *. split_and!; [lia..|by left|lia].
  - destruct (Z.lt_ge_cases u (10 ^ Z.of_nat m)) as [Hlt|Hge].
    + destruct (IH u ltac:(lia)) as (k & H1 & H2 & H3 & H4).
      exists k. split_and!; [lia|lia|done|done].
    + exists (S m). split_and!; [lia|lia| |lia]. right.
      by replace (Z.of_nat (S m) - 1) with (Z.of_nat m) by lia.
Qed.

Lemma groupThousands_short (ds : list ascii) :
  (length ds <= 3)%nat -> groupThousands ds = ds.
Proof.
  intros Hlen. unfold groupThousands.
  assert (Hrev : (length (rev ds) <= 3)%nat) by by rewrite length_rev.
  destruct (rev ds) as [|a [|b [|c [|d rest]]]] eqn:E;
    cbn [length] in Hrev; try lia; cbn [groupRev]; by rewrite <- E, rev_involutive.
Qed.

Lemma groupThousands_long (ds : list ascii) :
  (4 <= length ds)%nat -> ","%char ∈ groupThousands ds.
Proof.
  intros Hlen. unfold groupThousands.
  assert (Hrev : (4 <= length (rev ds))%nat) by by rewrite length_rev.
  destruct (rev ds) as [|a [|b [|c [|d rest]]]]; cbn [length] in Hrev; try lia.
  cbn [groupRev]. rewrite list_elem_of_In, <- in_rev, <- list_elem_of_In.
  do 3 right. by left.
Qed.

(** X8.  A number between -999 and 999 is returned as [strconv.FormatInt]
    writes it, without a comma; the text of every other number holds a
    comma. *)
Theorem FormatWithCommas_comma_from_1000 (n : int64) :
  exists s : string,
    FormatWithCommas n = Ok s /\
    (- 1000 < n < 1000 -> s = strconv.FormatInt n) /\
    (n <= - 1000 \/ 1000 <= n -> ","%char ∈ list_ascii_of_string s).
Proof.
  rewrite FormatWithCommas_grouped_digits. eexists. split; [reflexivity|].
  pose proof (int64_range n) as Hn.
  destruct (digits_count 20 (Z.abs n) ltac:(cbn; lia)) as (k & Hk1 & Hk2 & Hlo & Hhi).
  assert (Hlen := digits_length (Z.abs n) k ltac:(lia) ltac:(lia) Hlo Hhi).
  split.
  - intros Hsmall.
    assert (Hk3 : (k <= 3)%nat).
    { destruct Hlo as [->|Hlo]; [lia|].
      destruct (Nat.le_gt_cases k 3) as [?|Hgt]; [done|].
      assert (10 ^ 3 <= 10 ^ (Z.of_nat k - 1)) by (apply Z.pow_le_mono_r; lia).
      lia. }
    unfold grouped, strconv.FormatInt.
    rewrite groupThousands_short by lia.
    destruct (Z.ltb_spec n 0); [by rewrite Z.abs_neq by lia|by rewrite Z.abs_eq by lia].
  - intros Hbig.
    assert (Hk4 : (4 <= k)%nat).
    { destruct (Nat.le_gt_cases 4 k) as [?|Hlt]; [done|].
      assert (10 ^ Z.of_nat k <= 10 ^ 3) by (apply Z.pow_le_mono_r; lia).
      lia. }
    unfold grouped.
    destruct (n <? 0); cbn [list_ascii_of_string];
      rewrite list_ascii_of_string_of_list_ascii;
      [right|]; apply groupThousands_long; lia.
Qed.

(** X9.  The text of a negative number is a minus sign followed by the
    text of its absolute value: the sign takes no part in the grouping. *)
Theorem FormatWithCommas_negative (n m : int64) :
  n < 0 -> int64_val m = - int64_val n ->
  exists s : string,
    FormatWithCommas m = Ok s /\ FormatWithCommas n = Ok (String "-" s).
Proof.
  intros Hn Hm. rewrite !FormatWithCommas_grouped_digits. eexists.
  split; [reflexivity|]. unfold grouped. rewrite Hm.
  destruct (Z.ltb_spec n 0); [|lia]. destruct (Z.ltb_spec (- n) 0); [lia|].
  by rewrite Z.abs_opp.
Qed.

(** X10.  Different numbers have different texts: the number can be read
    back from the text [FormatWithCommas] returns. *)
Theorem FormatWithCommas_injective (n m : int64) :
  FormatWithCommas n = FormatWithCommas m -> int64_val n = int64_val m.
Proof.
  rewrite !FormatWithCommas_grouped_digits. intros [= E].
  pose proof (int64_range n) as Hn. pose proof (int64_range m) as Hm.
  destruct (digits_decimalOf (Z.abs n) ltac:(lia)) as (Hdn & Hvn & Hnn & _).
  destruct (digits_decimalOf (Z.abs m) ltac:(lia)) as (Hdm & Hvm & Hnm & _).
  apply (f_equal list_ascii_of_string) in E.
  apply (f_equal (filter (fun c => c <> ","%char))) in E.
  unfold grouped in E.
  destruct (Z.ltb_spec n 0), (Z.ltb_spec m 0);
    cbn [list_ascii_of_string] in E;
    rewrite ?filter_cons_True in E by done;
    rewrite !list_ascii_of_string_of_list_ascii in E;
    rewrite !removeCommas_groupThousands in E by done.
  - injection E as E. rewrite E in Hvn. lia.
  - destruct (strconv.digits (Z.abs m)) as [|c ds]; [done|].
    injection E as <- _. by apply Forall_cons_1 in Hdm as [? _].
  - destruct (strconv.digits (Z.abs n)) as [|c ds]; [done|].
    injection E as -> _. by apply Forall_cons_1 in Hdn as [? _].
  - rewrite E in Hvn. lia.
Qed.

End FormatWithCommasProperties.

(** ** The reporter *)

Section ReporterProperties.

Context {FS : Type} `{!OS FS}.
Import Spec.

Lemma namesOf_app (a b : list Event) : namesOf (a ++ b) = namesOf a ++ namesOf b.
Proof. unfold namesOf. apply flat_map_app. Qed.

Lemma chtimesFiles_app (a b : list Event) :
  chtimesFiles (a ++ b) = chtimesFiles a ++ chtimesFiles b.
Proof. unfold chtimesFiles. apply flat_map_app. Qed.

Lemma countOf_app (p : Event -> bool) (a b : list Event) :
  countOf p (a ++ b) = countOf p a + countOf p b.
Proof. unfold countOf. rewrite filter_app, length_app. lia. Qed.

Lemma stdoutOf_app (a b : list Event) :
  stdoutOf (a ++ b) = stdoutOf a ++ stdoutOf b.
Proof. unfold stdoutOf. apply filter_app. Qed.

(** What the log lines of the malformed patterns hold. *)
Lemma globLogs_observed (t : FS) (args : list string) :
  namesOf (globLogs t args) = [] /\ chtimesFiles (globLogs t args) = [] /\
  stdoutOf (globLogs t args) = [] /\
  countOf isOutSize (globLogs t args) = 0 /\
  countOf isOutBlank (globLogs t args) = 0 /\
  countOf isLogChtimesError (globLogs t args) = 0.
Proof.
  unfold globLogs. induction args as [|p args IH]; [done|]. cbn [flat_map].
  rewrite namesOf_app, chtimesFiles_app, stdoutOf_app, !countOf_app.
  destruct IH as (-> & -> & -> & -> & -> & ->). by destruct (Glob t p).
Qed.

(** What the lines of one target hold. *)
Lemma fileEvents_observed (t : FS) (file : string) :
  namesOf (fileEvents t file) = [file] /\
  chtimesFiles (fileEvents t file) = [] /\
  countOf isOutSize (fileEvents t file) = (if statOk t file then 1 else 0) /\
  countOf isOutBlank (fileEvents t file) = (if statOk t file then 1 else 0).
Proof.
  unfold fileEvents, timeLines, statOk.
  destruct (Stat t file) as [fi|]; [|done].
  destruct (timesStat t file) as [ts|]; [|done].
  by destruct (HasBirthTime ts), (HasChangeTime ts).
Qed.

Lemma reports_observed (t : FS) (files : list string) :
  namesOf (flat_map (fileEvents t) files) = files /\
  chtimesFiles (flat_map (fileEvents t) files) = [] /\
  countOf isOutSize (flat_map (fileEvents t) files) = countStatOk t files /\
  countOf isOutBlank (flat_map (fileEvents t) files) = countStatOk t files /\
  0 <= countStatOk t files <= Z.of_nat (length files).
Proof.
  induction files as [|file files IH]; [done|]. cbn [flat_map].
  rewrite namesOf_app, chtimesFiles_app, !countOf_app, countStatOk_cons.
  destruct IH as (-> & -> & -> & -> & Hn).
  destruct (fileEvents_observed t file) as (-> & -> & -> & ->).
  cbn [length]. split_and!; [done..| |]; destruct (statOk t file); lia.
Qed.

(** X11.  The lines [showFileTimes] prints and the number it returns: one
    name line for every resolved target, in the order of [expandGlobs]; one
    size line and one blank line for every target it counts; the count is
    at most the number of resolved targets; [os.Chtimes] is never called and
    the file system is left as it was. *)
Theorem showFileTimes_count_lines (args : list string) (w : World FS) :
  exists (n : Z) (r : list string) (evs : list Event),
    showFileTimes args w = (Normal n, mkWorld (fs w) (trace w ++ evs)) /\
    fst (expandGlobs args w) = Normal r /\
    namesOf evs = r /\
    countOf isOutSize evs = n /\
    countOf isOutBlank evs = n /\
    0 <= n <= Z.of_nat (length r) /\
    chtimesFiles evs = [].
Proof.
  eexists _, _, _. rewrite showFileTimes_run, expandGlobs_run.
  split; [reflexivity|]. split; [reflexivity|].
  rewrite namesOf_app, chtimesFiles_app, !countOf_app.
  destruct (globLogs_observed (fs w) args) as (-> & -> & _ & -> & -> & _).
  destruct (reports_observed (fs w) (resolve (fs w) args))
    as (-> & -> & -> & -> & Hn).
  split_and!; (done || lia).
Qed.

Lemma countStatOk_app (t : FS) (a b : list string) :
  countStatOk t (a ++ b) = countStatOk t a + countStatOk t b.
Proof. unfold countStatOk. rewrite filter_app, length_app. lia. Qed.

(** X12.  Reporting the patterns [a ++ b] prints what reporting [a] and
    then [b] prints: standard output is the same, the counts add up, and
    the file system is the same (the log lines of malformed patterns come
    earlier in the single run). *)
Theorem showFileTimes_app (a b : list string) (w : World FS) :
  exists (n1 n2 : Z) (w1 w2 w12 : World FS),
    showFileTimes a w = (Normal n1, w1) /\
    showFileTimes b w1 = (Normal n2, w2) /\
    showFileTimes (a ++ b) w = (Normal (n1 + n2), w12) /\
    fs w12 = fs w2 /\
    stdoutOf (trace w12) = stdoutOf (trace w2).
Proof.
  eexists _, _, _, _, _. rewrite !showFileTimes_run. cbn [fs trace].
  split; [reflexivity|]. split; [reflexivity|].
  rewrite resolve_app, countStatOk_app, globLogs_app, flat_map_app.
  split; [reflexivity|]. split; [reflexivity|].
  cbn [fs trace]. rewrite !stdoutOf_app.
  destruct (globLogs_observed (fs w) a) as (_ & _ & -> & _).
  destruct (globLogs_observed (fs w) b) as (_ & _ & -> & _).
  cbn [app]. by rewrite <- !app_assoc.
Qed.

(** X13.  A target that [os.Stat] accepts and [times.Stat] refuses is
    counted and reported with the zero instant as its modify and its access
    time, after the log line of [getFileTimes]. *)
Theorem showFileTimes_unreadable_times
    (file : string) (fi : FileInfo) (w : World FS) :
  fst (expandGlobs [file] w) = Normal [file] ->
  Stat (fs w) file = Some fi ->
  timesStat (fs w) file = None ->
  exists (size : string) (logs : list Event),
    FormatWithCommas (Size fi) = Ok size /\
    snd (expandGlobs [file] w) = mkWorld (fs w) (trace w ++ logs) /\
    showFileTimes [file] w
    = (Normal 1,
       mkWorld (fs w)
         (trace w ++ logs ++
          [OutName file; OutSize size; LogGetFileTimesError file;
           OutMtime zeroTime; OutAtime zeroTime; OutBlank])).
Proof.
  rewrite showFileTimes_run, expandGlobs_run. cbn [fst snd].
  intros Hr HS HT.
  assert (Hr' : resolve (fs w) [file] = [file]) by congruence.
  rewrite Hr'. cbn [flat_map].
  unfold countStatOk, fileEvents, timeLines, statOk.
  rewrite filter_cons_True by (by rewrite HS). rewrite HS, HT.
  eexists _, _. split; [apply FormatWithCommas_grouped_digits|].
  split; [reflexivity|]. by rewrite app_nil_r.
Qed.

End ReporterProperties.

(** ** The writer *)

Section WriterProperties.

Context {FS : Type} `{!OS FS}.
Import Spec.

Ltac step :=
  unfold mbind, M_bind, mret, M_ret, callGlob, callStat, callTimesStat,
    fatal, emit, exit, liftResult;
  cbn [fs trace fst snd].

(** The loop of [setFileTime] under a mode it knows: it returns, and it
    calls [os.Chtimes] once for every file of its list, in order. *)
Lemma setFileTimeLoop_calls (newTime : Time) (op : string) (files : list string) :
  validOp op ->
  forall w : World FS,
  exists (evs : list Event) (t' : FS),
    setFileTimeLoop newTime op files w
    = (Normal tt, mkWorld t' (trace w ++ evs)) /\
    chtimesFiles evs = files.
Proof.
  intros Hop. induction files as [|file files IH]; intros w.
  - exists [], (fs w). cbn [setFileTimeLoop]. step.
    by rewrite app_nil_r, world_eta.
  - cbn [setFileTimeLoop]. step.
    pose proof (setFileTimeBody_run newTime op file w Hop) as Hrun.
    cbv zeta in Hrun. rewrite Hrun. clear Hrun.
    set (pr := pairFor op newTime _).
    set (logs := match timesStat (fs w) file with
                 | Some _ => []
                 | None => [LogGetFileTimesError file]
                 end).
    assert (Hlogs : chtimesFiles logs = []).
    { unfold logs. by destruct (timesStat (fs w) file). }
    destruct (Chtimes (fs w) file (fst pr) (snd pr)) as [t1|].
    + match goal with |- context [setFileTimeLoop _ _ _ ?w1] =>
        destruct (IH w1) as (evs & t' & -> & Hevs) end.
      cbn [trace]. eexists _, t'. rewrite <- app_assoc. split; [reflexivity|].
      rewrite !chtimesFiles_app, Hlogs. cbn [chtimesFiles flat_map app].
      rewrite !chtimesFiles_app, Hevs.
      destruct (globLogs_observed t1 [file]) as (_ & -> & _).
      destruct (reports_observed t1 (resolve t1 [file])) as (_ & -> & _).
      done.
    + match goal with |- context [setFileTimeLoop _ _ _ ?w1] =>
        destruct (IH w1) as (evs & t' & -> & Hevs) end.
      cbn [trace]. eexists _, t'. rewrite <- app_assoc. split; [reflexivity|].
      rewrite !chtimesFiles_app, Hlogs, Hevs. done.
Qed.

(** X14.  With a mode it knows and a text it can parse, [setFileTime]
    returns, and it calls [os.Chtimes] exactly once for every target of
    [expandGlobs], in that order: the targets are resolved once, before the
    first change, and a call that fails does not stop the loop. *)
Theorem setFileTime_one_call_per_target
    (args : list string) (dt op : string) (newTime : Time) (w : World FS) :
  validOp op ->
  createDate dt = Parsed newTime ->
  exists (r : list string) (evs : list Event) (t' : FS),
    fst (expandGlobs args w) = Normal r /\
    setFileTime args dt op w = (Normal tt, mkWorld t' (trace w ++ evs)) /\
    chtimesFiles evs = r.
Proof.
  intros Hop Hdt. rewrite (setFileTime_parsed _ _ _ _ _ Hdt), expandGlobs_run.
  match goal with |- context [setFileTimeLoop _ _ ?files ?w1] =>
    destruct (setFileTimeLoop_calls newTime op files Hop w1)
      as (evs & t' & -> & Hevs) end.
  cbn [fst trace]. eexists _, _, t'. split; [reflexivity|].
  rewrite <- app_assoc. split; [reflexivity|].
  rewrite chtimesFiles_app, Hevs.
  by destruct (globLogs_observed (fs w) args) as (_ & -> & _).
Qed.

(** The loop of [setFileTime] when [os.Chtimes] refuses every file of the
    list. *)
Lemma setFileTimeLoop_refused (newTime : Time) (op : string) (files : list string) :
  validOp op ->
  forall w : World FS,
  (forall file a m, file ∈ files -> Chtimes (fs w) file a m = None) ->
  exists evs : list Event,
    setFileTimeLoop newTime op files w
    = (Normal tt, mkWorld (fs w) (trace w ++ evs)) /\
    stdoutOf evs = [] /\
    countOf isLogChtimesError evs = Z.of_nat (length files).
Proof.
  intros Hop. induction files as [|file files IH]; intros w Hall.
  - exists []. cbn [setFileTimeLoop]. step. by rewrite app_nil_r, world_eta.
  - cbn [setFileTimeLoop]. step.
    pose proof (setFileTimeBody_run newTime op file w Hop) as Hrun.
    cbv zeta in Hrun. rewrite Hrun. clear Hrun.
    rewrite Hall by by left.
    match goal with |- context [setFileTimeLoop _ _ _ ?w1] =>
      destruct (IH w1) as (evs & -> & Hout & Hcount) end.
    { intros f a m Hf. cbn [fs]. apply Hall. by right. }
    cbn [fs trace]. eexists. rewrite <- app_assoc. split; [reflexivity|].
    match goal with |- context [?l ++ evs] => set (l0 := l) end.
    assert (Hl0 : stdoutOf l0 = [] /\ countOf isLogChtimesError l0 = 1).
    { unfold l0. by destruct (timesStat (fs w) file). }
    destruct Hl0 as [Hl1 Hl2].
    rewrite !stdoutOf_app, !countOf_app, Hout, Hcount, Hl1, Hl2.
    cbn [length]. split; [done|lia].
Qed.

(** X15.  When [os.Chtimes] refuses every resolved target, [setFileTime]
    still goes through all of them and returns: one log line of the failed
    call for each target, nothing on standard output, and the file system as
    it was. *)
Theorem setFileTime_all_refused
    (args : list string) (dt op : string) (newTime : Time) (w : World FS) :
  validOp op ->
  createDate dt = Parsed newTime ->
  (forall r file a m,
     fst (expandGlobs args w) = Normal r -> file ∈ r ->
     Chtimes (fs w) file a m = None) ->
  exists (r : list string) (evs : list Event),
    fst (expandGlobs args w) = Normal r /\
    setFileTime args dt op w = (Normal tt, mkWorld (fs w) (trace w ++ evs)) /\
    stdoutOf evs = [] /\
    countOf isLogChtimesError evs = Z.of_nat (length r).
Proof.
  intros Hop Hdt Hall. rewrite (setFileTime_parsed _ _ _ _ _ Hdt).
  rewrite expandGlobs_run in *. cbn [fst] in *.
  match goal with |- context [setFileTimeLoop _ _ ?files ?w1] =>
    destruct (setFileTimeLoop_refused newTime op files Hop w1)
      as (evs & -> & Hout & Hcount) end.
  { intros f a m Hf. cbn [fs]. by apply (Hall _ f a m eq_refl). }
  cbn [fs trace]. eexists _, _. split; [reflexivity|].
  rewrite <- app_assoc. split; [reflexivity|].
  rewrite stdoutOf_app, countOf_app, Hout, Hcount.
  destruct (globLogs_observed (fs w) args) as (_ & _ & -> & _ & _ & ->).
  split; [done|lia].
Qed.

(** One iteration under a mode [setFileTime] does not know: the times of
    the file are read, then the process ends. *)
Lemma setFileTimeBody_invalid_op (newTime : Time) (op file : string) (w : World FS) :
  ~ validOp op ->
  setFileTimeBody newTime op file w
  = (Exit 1,
     mkWorld (fs w)
       (trace w ++
        match timesStat (fs w) file with
        | Some _ => []
        | None => [LogGetFileTimesError file]
        end ++ [FatalInvalidOp op])).
Proof.
  intros Hop. unfold setFileTimeBody. step. rewrite getFileTimes_run.
  assert (Hm : String.eqb OpModify op = false).
  { apply String.eqb_neq. intros <-. apply Hop. right. by left. }
  assert (Ha : String.eqb OpAccess op = false).
  { apply String.eqb_neq. intros <-. apply Hop. by left. }
  assert (Hb : String.eqb OpBoth op = false).
  { apply String.eqb_neq. intros <-. apply Hop. right. by right. }
  destruct (timesStat (fs w) file) as [t|]; cbn [fs trace]; rewrite Hm, Ha, Hb; step.
  - done.
  - by rewrite <- app_assoc.
Qed.

(** X16.  The mode is looked at inside the loop, once the times of a
    target are read.  Under a mode other than [a], [m] and [b],
    [setFileTime] returns without a word when no target is resolved, and
    otherwise ends the process with status 1 at the first target, before any
    call of [os.Chtimes], with the file system as it was; the fatal message
    comes after the log line of [getFileTimes] exactly when [times.Stat]
    fails on that target. *)
Theorem setFileTime_invalid_op
    (args : list string) (dt op : string) (newTime : Time) (w : World FS) :
  ~ validOp op ->
  createDate dt = Parsed newTime ->
  exists (r : list string) (logs : list Event),
    expandGlobs args w = (Normal r, mkWorld (fs w) (trace w ++ logs)) /\
    match r with
    | [] =>
        setFileTime args dt op w
        = (Normal tt, mkWorld (fs w) (trace w ++ logs))
    | file :: _ =>
        exists rd : list Event,
          setFileTime args dt op w
          = (Exit 1,
             mkWorld (fs w) (trace w ++ logs ++ rd ++ [FatalInvalidOp op])) /\
          rd = match timesStat (fs w) file with
               | Some _ => []
               | None => [LogGetFileTimesError file]
               end
    end.
Proof.
  intros Hop Hdt. rewrite (setFileTime_parsed _ _ _ _ _ Hdt), expandGlobs_run.
  eexists _, _. split; [reflexivity|].
  destruct (resolve (fs w) args) as [|file files].
  - cbn [setFileTimeLoop]. by step.
  - cbn [setFileTimeLoop]. step.
    rewrite (setFileTimeBody_invalid_op newTime op file _ Hop).
    cbn [fs trace]. eexists. rewrite <- app_assoc. by split.
Qed.


(** X18.  What an iteration of [setFileTime] prints.  After a call of
    [os.Chtimes] that fails nothing is printed.  After a call that
    succeeds the iteration prints what [showFileTimes] prints for the
    one-element list of the target in the new state: the name of the target
    is expanded again as a pattern, and the names printed are the result of
    that expansion. *)
Theorem setFileTime_confirmation
    (newTime : Time) (op file : string) (w : World FS) :
  validOp op ->
  let pr := pairFor op newTime (default zeroTimes (timesStat (fs w) file)) in
  exists w' : World FS,
    setFileTimeBody newTime op file w = (Normal tt, w') /\
    match Chtimes (fs w) file (fst pr) (snd pr) with
    | None => fs w' = fs w /\ stdoutOf (trace w') = stdoutOf (trace w)
    | Some t' =>
        fs w' = t' /\
        exists (n : Z) (r : list string) (wc : World FS),
          showFileTimes [file] (mkWorld t' []) = (Normal n, wc) /\
          stdoutOf (trace w') = stdoutOf (trace w) ++ stdoutOf (trace wc) /\
          fst (expandGlobs [file] (mkWorld t' [])) = Normal r /\
          namesOf (trace wc) = r
    end.
Proof.
  intros Hop pr.
  pose proof (setFileTimeBody_run newTime op file w Hop) as Hrun.
  cbv zeta in Hrun. fold pr in Hrun.
  set (logs := match timesStat (fs w) file with
               | Some _ => []
               | None => [LogGetFileTimesError file]
               end) in *.
  assert (Hlogs : stdoutOf logs = []).
  { unfold logs. by destruct (timesStat (fs w) file). }
  destruct (Chtimes (fs w) file (fst pr) (snd pr)) as [t'|] eqn:EC.
  - eexists. split; [exact Hrun|]. cbn [fs trace]. split; [done|].
    rewrite showFileTimes_run, expandGlobs_run. cbn [fs trace app fst].
    eexists _, _, _. split; [reflexivity|]. cbn [trace].
    rewrite !stdoutOf_app, Hlogs. cbn [app].
    rewrite namesOf_app.
    destruct (globLogs_observed t' [file]) as (-> & _ & Hg & _).
    destruct (reports_observed t' (resolve t' [file])) as (-> & _).
    split_and!; [|done|done].
    change (CallChtimes file (fst pr) (snd pr) true :: ?l)
      with ([CallChtimes file (fst pr) (snd pr) true] ++ l).
    by rewrite !stdoutOf_app, Hg.
  - eexists. split; [exact Hrun|]. cbn [fs trace]. split; [done|].
    rewrite !stdoutOf_app, Hlogs. cbn [app]. by rewrite app_nil_r.
Qed.

(** X19.  Under the mode [b] the iteration of [setFileTime] does not
    depend on the times it has read: whether reading them succeeded or not,
    the one call of [os.Chtimes] for the target is given the new instant for
    both fields. *)
Theorem setFileTime_both_ignores_current
    (newTime : Time) (file : string) (w : World FS) :
  exists (ok : bool) (w' : World FS) (rd evs : list Event),
    setFileTimeBody newTime OpBoth file w = (Normal tt, w') /\
    trace w' = trace w ++ rd ++ CallChtimes file newTime newTime ok :: evs /\
    (rd = [] \/ rd = [LogGetFileTimesError file]) /\
    chtimesFiles evs = [].
Proof.
  pose proof (setFileTimeBody_run newTime OpBoth file w
                ltac:(right; by right)) as Hrun.
  cbv zeta in Hrun. rewrite pairFor_both in Hrun. cbn [fst snd] in Hrun.
  set (rd := match timesStat (fs w) file with
             | Some _ => []
             | None => [LogGetFileTimesError file]
             end) in *.
  assert (Hrd : rd = [] \/ rd = [LogGetFileTimesError file]).
  { unfold rd. destruct (timesStat (fs w) file); [by left|by right]. }
  destruct (Chtimes (fs w) file newTime newTime) as [t'|].
  - eexists true, _, rd, _. split; [exact Hrun|]. cbn [trace].
    split; [reflexivity|]. split; [exact Hrd|].
    rewrite chtimesFiles_app.
    destruct (globLogs_observed t' [file]) as (_ & -> & _).
    by destruct (reports_observed t' (resolve t' [file])) as (_ & -> & _).
  - eexists false, _, rd, _. split; [exact Hrun|]. cbn [trace].
    split; [reflexivity|]. by split.
Qed.

End WriterProperties.

(** ** The command line *)

Section MainProperties.

Context {FS : Type} `{!OS FS}.
Import Spec.

Ltac step :=
  unfold mbind, M_bind, mret, M_ret, callGlob, callStat, callTimesStat,
    fatal, emit, exit, liftResult;
  cbn [fs trace fst snd].

Lemma setFileTime_returns
    (args : list string) (dt op : string) (newTime : Time) (w : World FS) :
  validOp op -> createDate dt = Parsed newTime ->
  exists w' : World FS, setFileTime args dt op w = (Normal tt, w').
Proof.
  intros Hop Hdt. rewrite (setFileTime_parsed _ _ _ _ _ Hdt).
  match goal with |- context [setFileTimeLoop _ _ ?files ?w1] =>
    destruct (setFileTimeLoop_calls newTime op files Hop w1)
      as (evs & t' & -> & _) end.
  by eexists.
Qed.

Lemma flagOp_valid (fl : Flags) : validOp (flagOp fl).
Proof.
  unfold flagOp, validOp.
  destruct (given (argsBoth fl)), (given (argsModify fl)); tauto.
Qed.

(** [main] once files are named and the version is not asked for: the
    three flags decide. *)
Lemma main_flags (fl : Flags) (w : World FS) :
  argsVersion fl = false -> args fl <> [] ->
  main fl w =
  if 1 <? wantChange fl then
    (Exit 1, mkWorld (fs w) (trace w ++ [FatalExclusive]))
  else if 0 <? wantChange fl then
    if validDT (timestampText fl) then
      (setFileTime (args fl) (timestampText fl) (flagOp fl) ;; exit 0) w
    else
      (Exit 1,
       mkWorld (fs w) (trace w ++ [FatalInvalidTimeStamp (timestampText fl)]))
  else
    (count ← showFileTimes (args fl);
     if count =? 0 then fatal (FatalNoMatch (args fl)) else mret tt) w.
Proof.
  intros Hv Hargs. unfold main.
  rewrite Hv, (args_nonempty _ Hargs), !given_len.
  unfold wantChange, timestampText, flagOp.
  destruct (given (argsAccess fl)), (given (argsModify fl)),
    (given (argsBoth fl)); cbn [Z.b2z];
    repeat match goal with
           | |- context [Z.ltb ?a ?b] =>
               let v := eval vm_compute in (Z.ltb a b) in
               change (Z.ltb a b) with v
           end;
    cbn iota; try (by step);
    match goal with |- context [validDT ?s] => destruct (validDT s) end;
    cbn [negb]; by step.
Qed.

(** X20.  Two or three time-setting flags whose texts are not empty end
    the process with status 1 and the message that they are mutually
    exclusive, whatever these texts are: no text is validated or parsed, no
    pattern is expanded and the file system is left as it was.  ([main]
    does not see a flag whose text is empty.) *)
Theorem main_exclusive_flags (fl : Flags) (w : World FS) :
  argsVersion fl = false -> args fl <> [] -> 1 < wantChange fl ->
  main fl w = (Exit 1, mkWorld (fs w) (trace w ++ [FatalExclusive])).
Proof.
  intros Hv Hargs Hw. rewrite (main_flags _ _ Hv Hargs).
  by destruct (Z.ltb_spec 1 (wantChange fl)); [|lia].
Qed.

(** X21.  With exactly one time-setting flag whose text has the fixed
    structure and is parsed, [main] runs [setFileTime] with the mode of
    that flag and ends with status 0, whatever the file system holds: also
    when no target is resolved and when every call of [os.Chtimes] fails. *)
Theorem main_mutate_exit_zero (fl : Flags) (newTime : Time) (w : World FS) :
  argsVersion fl = false -> args fl <> [] -> wantChange fl = 1 ->
  validDT (timestampText fl) = true ->
  createDate (timestampText fl) = Parsed newTime ->
  exists w' : World FS,
    setFileTime (args fl) (timestampText fl) (flagOp fl) w = (Normal tt, w') /\
    main fl w = (Exit 0, w') /\
    (given (argsAccess fl) = true -> flagOp fl = OpAccess) /\
    (given (argsModify fl) = true -> flagOp fl = OpModify) /\
    (given (argsBoth fl) = true -> flagOp fl = OpBoth).
Proof.
  intros Hv Hargs Hw Hdt Hparse. rewrite (main_flags _ _ Hv Hargs), Hw, Hdt.
  change (1 <? 1) with false. change (0 <? 1) with true. cbn iota.
  destruct (setFileTime_returns (args fl) _ _ newTime w (flagOp_valid fl) Hparse)
    as (w' & Hrun).
  exists w'. split; [done|]. split; [step; by rewrite Hrun|].
  unfold wantChange, flagOp in *.
  destruct (given (argsAccess fl)), (given (argsModify fl)),
    (given (argsBoth fl)); cbn [Z.b2z] in Hw; try lia; by split_and!.
Qed.

(** Once the flags are parsed, [main] ends with status 0 or 1. *)
Lemma main_ends (fl : Flags) (w : World FS) :
  exitCode (fst (main fl w)) = Some 0 \/ exitCode (fst (main fl w)) = Some 1.
Proof.
  destruct (argsVersion fl) eqn:Hv.
  { left. unfold main. rewrite Hv. by step. }
  destruct (args fl) as [|a0 rest] eqn:Hargs.
  { right. unfold main. rewrite Hv, Hargs. by step. }
  assert (Hne : args fl <> []) by by rewrite Hargs.
  rewrite (main_flags _ _ Hv Hne).
  destruct (1 <? wantChange fl); [by right|].
  destruct (0 <? wantChange fl).
  - destruct (validDT (timestampText fl)); [|by right].
    destruct (createDate (timestampText fl)) as [newTime|e] eqn:Hparse.
    + destruct (setFileTime_returns (args fl) _ _ newTime w (flagOp_valid fl) Hparse)
        as (w' & Hrun).
      left. step. by rewrite Hrun.
    + right. step. by rewrite (setFileTime_parse_failure _ _ _ _ _ Hparse).
  - step. rewrite showFileTimes_run.
    destruct (_ =? 0); [right|left]; by step.
Qed.

(** Every flag [parseOne] sees takes an argument away. *)
Lemma parseOne_seen (f f' : flag.FlagSet) :
  flag.parseOne f = flag.Seen f' ->
  (length (flag.f_args f') < length (flag.f_args f))%nat.
Proof.
  unfold flag.parseOne. destruct (flag.f_args f) as [|s rest]; [discriminate|].
  destruct s as [|c0 s']; [discriminate|].
  destruct c0 as [[] [] [] [] [] [] [] []]; try discriminate.
  destruct s' as [|c1 tail]; [discriminate|].
  destruct (Ascii.eqb c1 "-" && String.eqb tail EmptyString); [discriminate|].
  destruct (if Ascii.eqb c1 "-" then tail else String c1 tail) as [|n name];
    [discriminate|].
  destruct (Ascii.eqb n "-" || Ascii.eqb n "="); [discriminate|].
  destruct (flag.nameAndValue (String n name)) as [nm value].
  unfold flag.setFlag. cbn [length].
  destruct (String.eqb nm "v").
  { destruct value as [value|]; [destruct (flag.ParseBool value)|];
      intros [= <-]; cbn [flag.f_args]; lia. }
  destruct (existsb (String.eqb nm) _).
  { destruct value as [value|]; [|destruct rest as [|value rest]];
      try discriminate; intros [= <-];
      destruct (String.eqb nm "a"), (String.eqb nm "m");
      cbn [flag.f_args length]; lia. }
  by destruct (String.eqb nm "help" || String.eqb nm "h").
Qed.

Lemma parseLoop_ends (fuel : nat) :
  forall f : flag.FlagSet,
    (length (flag.f_args f) < fuel)%nat ->
    exists p : flag.parsed, flag.parseLoop fuel f = Ok p.
Proof.
  induction fuel as [|fuel IH]; intros f Hlen; [lia|].
  cbn [flag.parseLoop]. destruct (flag.parseOne f) as [f'| | |] eqn:E;
    try by eexists.
  apply IH. apply parseOne_seen in E. lia.
Qed.

(** X22.  The process always ends, for every command line and every file
    system: [flag.Parse] returns, and the exit status is 0, 1 or 2; it is 2
    exactly when [flag.Parse] cannot parse the command line.  The process
    never panics and no loop of it runs on. *)
Theorem process_exit_status (osArgs : list string) (w : World FS) :
  (exists p : flag.parsed, flag.Parse osArgs = Ok p) /\
  (exitCode (fst (process osArgs w)) = Some 0 \/
   exitCode (fst (process osArgs w)) = Some 1 \/
   exitCode (fst (process osArgs w)) = Some 2) /\
  (exitCode (fst (process osArgs w)) = Some 2 <->
   exists e : FlagError, flag.Parse osArgs = Ok (flag.Failed e)).
Proof.
  assert (Hp : exists p : flag.parsed, flag.Parse osArgs = Ok p).
  { unfold flag.Parse. apply parseLoop_ends. cbn [flag.f_args]. lia. }
  split; [exact Hp|]. destruct Hp as [p Hp].
  unfold process. step. rewrite Hp. destruct p as [f| |e].
  - set (fl := mkFlags _ _ _ _ _).
    destruct (main_ends fl w) as [H0|H1].
    + rewrite H0. split; [by left|]. split; [discriminate|].
      intros [e He]. discriminate He.
    + rewrite H1. split; [right; by left|]. split; [discriminate|].
      intros [e He]. discriminate He.
  - step. cbn [exitCode]. split; [by left|]. split; [discriminate|].
    intros [e He]. discriminate He.
  - step. cbn [exitCode]. split; [right; by right|]. split; [by exists e|done].
Qed.

(** X23.  Without a time-setting flag [main] only reads: whether it
    prints the version, the usage or the report of the files, it leaves the
    file system as it was and never calls [os.Chtimes]. *)
Theorem main_without_flags_reads_only (fl : Flags) (w : World FS) :
  wantChange fl = 0 ->
  exists evs : list Event,
    snd (main fl w) = mkWorld (fs w) (trace w ++ evs) /\
    chtimesFiles evs = [].
Proof.
  intros Hw. destruct (argsVersion fl) eqn:Hv.
  { exists [ErrVersion]. unfold main. rewrite Hv. by step. }
  destruct (args fl) as [|a0 rest] eqn:Hargs.
  { exists [ErrUsage]. unfold main. rewrite Hv, Hargs. by step. }
  assert (Hne : args fl <> []) by by rewrite Hargs.
  rewrite (main_flags _ _ Hv Hne), Hw.
  change (1 <? 0) with false. change (0 <? 0) with false. cbn iota.
  step. rewrite showFileTimes_run. rewrite Hargs.
  set (logs := globLogs (fs w) (a0 :: rest)).
  set (reps := flat_map (fileEvents (fs w)) (resolve (fs w) (a0 :: rest))).
  assert (Hc : chtimesFiles (logs ++ reps) = []).
  { rewrite chtimesFiles_app. unfold logs, reps.
    destruct (globLogs_observed (fs w) (a0 :: rest)) as (_ & -> & _).
    by destruct (reports_observed (fs w) (resolve (fs w) (a0 :: rest)))
      as (_ & -> & _). }
  destruct (_ =? 0); step.
  - exists ((logs ++ reps) ++ [FatalNoMatch (a0 :: rest)]).
    split; [by rewrite <- !app_assoc|]. by rewrite chtimesFiles_app, Hc.
  - by exists (logs ++ reps).
Qed.

End MainProperties.

(** ** The codec *)

Section CodecProperties.

Context {FS : Type} `{!OS FS}.
Import Spec.

(** X24.  In a time zone without transitions the instant of a valid text
    is its reading taken in UTC, moved by the offset of the zone, with no
    nanoseconds. *)
Theorem createDate_fixed_offset (dt : string) :
  tx Local = [] ->
  validDT dt = true -> validComponents dt = true ->
  createDate dt = Parsed (mkTime (readingOf dt - zone0 Local) 0 Local).
Proof.
  intros Etx Hv Hc.
  destruct (validComponents_ranges dt Hv Hc) as (Hy & Hm & Hd & Hh & Hi & Hs).
  rewrite (createDate_parses dt Hv Hc). f_equal. unfold readingOf.
  rewrite !Date_chosen by (done || lia).
  rewrite (chosenOffset_no_transition Local _ Etx).
  rewrite (chosenOffset_no_transition UTC) by reflexivity.
  cbn [unixSec zone0 UTC]. by rewrite Z.sub_0_r.
Qed.

Lemma digitVal_inj (c c' : ascii) :
  digitVal c = digitVal c' -> c = c'.
Proof.
  unfold digitVal. intros E.
  assert (E' : nat_of_ascii c = nat_of_ascii c') by lia.
  by rewrite <- (ascii_nat_embedding c), <- (ascii_nat_embedding c'), E'.
Qed.

Lemma two_inj (c0 c1 c0' c1' : ascii) :
  isDigitByte c0 = true -> isDigitByte c1 = true ->
  isDigitByte c0' = true -> isDigitByte c1' = true ->
  two c0 c1 = two c0' c1' -> c0 = c0' /\ c1 = c1'.
Proof.
  intros H0 H1 H0' H1' E. unfold two in E.
  apply digitVal_range in H0, H1, H0', H1'.
  split; apply digitVal_inj; lia.
Qed.

Lemma year4_inj (c0 c1 c2 c3 c0' c1' c2' c3' : ascii) :
  isDigitByte c0 = true -> isDigitByte c1 = true ->
  isDigitByte c2 = true -> isDigitByte c3 = true ->
  isDigitByte c0' = true -> isDigitByte c1' = true ->
  isDigitByte c2' = true -> isDigitByte c3' = true ->
  year4 c0 c1 c2 c3 = year4 c0' c1' c2' c3' ->
  c0 = c0' /\ c1 = c1' /\ c2 = c2' /\ c3 = c3'.
Proof.
  intros H0 H1 H2 H3 H0' H1' H2' H3' E. unfold year4 in E.
  apply digitVal_range in H0, H1, H2, H3, H0', H1', H2', H3'.
  split_and!; apply digitVal_inj; lia.
Qed.

(** A text of the fixed structure is determined by its six components. *)
Lemma components_inj (dt1 dt2 : string) :
  validDT dt1 = true -> validDT dt2 = true ->
  yearOf dt1 = yearOf dt2 -> monthOf dt1 = monthOf dt2 ->
  dayOf dt1 = dayOf dt2 -> hourOf dt1 = hourOf dt2 ->
  minuteOf dt1 = minuteOf dt2 -> secondOf dt1 = secondOf dt2 ->
  dt1 = dt2.
Proof.
  intros Hv1 Hv2.
  apply validDT_inv in Hv1
    as (y0 & y1 & y2 & y3 & m0 & m1 & d0 & d1 & h0 & h1 & i0 & i1 & s0 & s1
        & -> & Hdig).
  apply validDT_inv in Hv2
    as (y0' & y1' & y2' & y3' & m0' & m1' & d0' & d1' & h0' & h1' & i0' & i1'
        & s0' & s1' & -> & Hdig').
  destruct (layout_components y0 y1 y2 y3 m0 m1 d0 d1 h0 h1 i0 i1 s0 s1 EmptyString)
    as (-> & -> & -> & -> & -> & ->).
  destruct (layout_components y0' y1' y2' y3' m0' m1' d0' d1' h0' h1' i0' i1'
              s0' s1' EmptyString) as (-> & -> & -> & -> & -> & ->).
  repeat (apply Forall_cons_1 in Hdig as [? Hdig]).
  repeat (apply Forall_cons_1 in Hdig' as [? Hdig']).
  intros Ey Em Ed Eh Ei Es.
  apply year4_inj in Ey as (-> & -> & -> & ->); try done.
  apply two_inj in Em as (-> & ->); try done.
  apply two_inj in Ed as (-> & ->); try done.
  apply two_inj in Eh as (-> & ->); try done.
  apply two_inj in Ei as (-> & ->); try done.
  apply two_inj in Es as (-> & ->); done.
Qed.

(** X25.  In a time zone without transitions two texts of the fixed
    structure that [createDate] parses into the same instant are the same
    text: different timestamps never set the same time. *)
Theorem createDate_injective (dt1 dt2 : string) (t : Time) :
  tx Local = [] ->
  validDT dt1 = true -> validDT dt2 = true ->
  createDate dt1 = Parsed t -> createDate dt2 = Parsed t ->
  dt1 = dt2.
Proof.
  intros Etx Hv1 Hv2 H1 H2.
  assert (Hkept : forall dt, validDT dt = true -> createDate dt = Parsed t ->
                             componentsKept dt t).
  { intros dt Hv Hp.
    assert (Hc : validComponents dt = true).
    { apply createDate_parsed_inv in Hp as [Hacc _].
      unfold accepted in Hacc.
      apply andb_true_iff in Hacc as [Hacc _].
      by apply andb_true_iff in Hacc as [_ ?]. }
    destruct (validComponents_ranges dt Hv Hc) as (Hy & Hm & Hd & Hh & Hi & Hs).
    rewrite (createDate_parses dt Hv Hc) in Hp. injection Hp as <-.
    apply Date_components; try done.
    by apply readingExists_no_transition. }
  destruct (Hkept dt1 Hv1 H1) as (Ey & Em & Ed & Eh & Ei & Es).
  destruct (Hkept dt2 Hv2 H2) as (Ey' & Em' & Ed' & Eh' & Ei' & Es').
  apply components_inj; congruence.
Qed.

End CodecProperties.

(** ** The codec of version 1.0.1 and the present one *)

Section VersionProperties.

Context {FS : Type} `{!OS FS}.
Import Spec.

Lemma atoiDigits_digit (c : ascii) (s : string) (n : Z) :
  isDigitByte c = true ->
  V1.atoiDigits (String c s) n = V1.atoiDigits s (n * 10 + digitVal c).
Proof.
  intros Hc. pose proof (digitVal_range c Hc) as Hr. unfold digitVal in Hr.
  cbn [V1.atoiDigits]. unfold digitVal.
  rewrite Z.mod_small by lia.
  by destruct (Z.ltb_spec 9 (Z.of_nat (nat_of_ascii c) - 48)); [lia|].
Qed.

Lemma digit_no_sign (c : ascii) :
  isDigitByte c = true -> Ascii.eqb c "-" = false /\ Ascii.eqb c "+" = false.
Proof.
  destruct c as [[] [] [] [] [] [] [] []]; intros H; try discriminate H; by split.
Qed.

Lemma Atoi_two (c0 c1 : ascii) :
  isDigitByte c0 = true -> isDigitByte c1 = true ->
  V1.Atoi (String c0 (String c1 EmptyString)) = Some (two c0 c1).
Proof.
  intros H0 H1. unfold V1.Atoi.
  destruct (digit_no_sign c0 H0) as [-> ->]. cbn [orb].
  rewrite !atoiDigits_digit by done. cbn [V1.atoiDigits mbind option_bind].
  pose proof (two_range c0 c1 H0 H1) as Hr. unfold two in *.
  replace (0 * 10 + digitVal c0) with (digitVal c0) by lia.
  assert (Hin : inInt64 (digitVal c0 * 10 + digitVal c1) = true).
  { unfold inInt64. apply andb_true_iff. split; [apply Z.leb_le|apply Z.ltb_lt]; lia. }
  by rewrite Hin.
Qed.

Lemma Atoi_four (c0 c1 c2 c3 : ascii) :
  isDigitByte c0 = true -> isDigitByte c1 = true ->
  isDigitByte c2 = true -> isDigitByte c3 = true ->
  V1.Atoi (String c0 (String c1 (String c2 (String c3 EmptyString))))
  = Some (year4 c0 c1 c2 c3).
Proof.
  intros H0 H1 H2 H3. unfold V1.Atoi.
  destruct (digit_no_sign c0 H0) as [-> ->]. cbn [orb].
  rewrite !atoiDigits_digit by done. cbn [V1.atoiDigits mbind option_bind].
  pose proof (year4_range c0 c1 c2 c3 H0 H1 H2 H3) as Hr. unfold year4 in *.
  replace (0 * 10 + digitVal c0) with (digitVal c0) by lia.
  match goal with |- context [inInt64 ?z] =>
    assert (Hin : inInt64 z = true)
      by (unfold inInt64; apply andb_true_iff;
          split; [apply Z.leb_le|apply Z.ltb_lt]; lia)
  end.
  by rewrite Hin.
Qed.

(** The earlier [createDate] on a text of the fixed structure: the
    components go to [time.Date] as they are. *)
Lemma v1_createDate_fixed (dt : string) :
  validDT dt = true ->
  V1.createDate dt
  = V1.Value (Date (yearOf dt) (monthOf dt) (dayOf dt)
                   (hourOf dt) (minuteOf dt) (secondOf dt) 0 Local).
Proof.
  intros Hv. apply validDT_inv in Hv
    as (y0 & y1 & y2 & y3 & m0 & m1 & d0 & d1 & h0 & h1 & i0 & i1 & s0 & s1
        & -> & Hdig).
  destruct (layout_components y0 y1 y2 y3 m0 m1 d0 d1 h0 h1 i0 i1 s0 s1 EmptyString)
    as (-> & -> & -> & -> & -> & ->).
  repeat (apply Forall_cons_1 in Hdig as [? Hdig]).
  unfold V1.createDate, V1.slice, V1.convertStr, layoutText.
  cbn [String.length Nat.leb andb Nat.sub substring mbind V1.ending_bind].
  rewrite Atoi_four by done. cbn [mbind V1.ending_bind].
  rewrite !Atoi_two by done. reflexivity.
Qed.

(** X27.  On every text of the fixed structure with a valid date and
    time of day, [createDate] of version 1.0.1 and the present
    [createDate] return the same instant: writing it with
    [time.ParseInLocation] changed no timestamp that is valid. *)
Theorem createDate_same_as_v1 (dt : string) :
  validDT dt = true -> validComponents dt = true ->
  exists t : Time, V1.createDate dt = V1.Value t /\ createDate dt = Parsed t.
Proof.
  intros Hv Hc. eexists. split; [by apply v1_createDate_fixed|].
  by apply createDate_parses.
Qed.

(** X28.  On a text of the fixed structure whose components are not a
    valid date and time of day, [createDate] of version 1.0.1 returned an
    instant all the same, the one [time.Date] makes of the components by
    carrying what is out of range; the present [createDate] fails. *)
Theorem v1_createDate_carries (dt : string) :
  validDT dt = true -> validComponents dt = false ->
  V1.createDate dt
  = V1.Value (Date (yearOf dt) (monthOf dt) (dayOf dt)
                   (hourOf dt) (minuteOf dt) (secondOf dt) 0 Local) /\
  exists e, createDate dt = Failed e.
Proof.
  intros Hv Hc. split; [by apply v1_createDate_fixed|].
  destruct (createDate dt) as [t|e] eqn:E; [|by exists e].
  apply createDate_parsed_inv in E as [Hacc _]. unfold accepted in Hacc.
  rewrite Hc, andb_false_r in Hacc. discriminate Hacc.
Qed.

End VersionProperties.

(** ** The program on the file table *)

Import Spec Examples.

#[local] Existing Instance osUTC.

(** C5 (counterexample).  A dangling link is listed by the expansion of
    its own name and fails the stat; its name line is printed all the
    same, so a failed target does emit output. *)
Lemma report_skips_silently_fails : ~ AsStated.report_skips_silently.
Proof.
  intros H. specialize (H Table.FS osUTC table ["link"%string]).
  vm_compute in H. discriminate H.
Qed.

Lemma setFileTime_writes_pair_witness :
  exists w' : World Table.FS,
    setFileTime ["a.txt"%string] "20210329.143025" OpAccess world0
    = (Normal tt, w') /\
    chtimesOf (trace w') = [CallChtimes "a.txt" tNew tModify true].
Proof.
  destruct (@setFileTime_writes_pair Table.FS osUTC ["a.txt"%string]
              "20210329.143025" OpAccess tNew world0
              (or_introl eq_refl) eq_refl)
    as (w' & r & evs & calls & Hrun & _).
  exists w'. split; [exact Hrun|].
  vm_compute in Hrun. injection Hrun as <-. reflexivity.
Defined.



(** C4 (counterexample).  The flag [-a] is given with the empty text,
    which is malformed; [main] does not see the flag, reports the file and
    ends with status 0. *)
Lemma malformed_timestamp_is_fatal_fails : ~ AsStated.malformed_timestamp_is_fatal.
Proof.
  intros H.
  destruct (H Table.FS osUTC
              (mkInvocation false (Some EmptyString) None None ["a.txt"%string])
              EmptyString world0 eq_refl ltac:(discriminate)
              ltac:(by left) (or_introl eq_refl)) as (evs & Hrun).
  vm_compute in Hrun. discriminate Hrun.
Qed.

Lemma main_malformed_timestamp_fatal_witness :
  main (accessFlags "2021-03-29" ["a.txt"%string]) world0
  = (Exit 1, mkWorld table [FatalInvalidTimeStamp "2021-03-29"]).
Proof.
  destruct (proj1 (@main_malformed_timestamp_fatal Table.FS osUTC world0)
              (accessFlags "2021-03-29" ["a.txt"%string]))
    as (e & He & _).
  - split; [reflexivity|]. split; [discriminate|]. left. reflexivity.
  - left. reflexivity.
  - rewrite He. vm_compute in He. injection He as <-. reflexivity.
Defined.

Lemma showFileTimes_count_decides_exit_witness :
  exitCode (fst (main (displayFlags ["*.pdf"%string]) world0)) = Some 1.
Proof.
  refine (proj1 (proj2 (@showFileTimes_count_decides_exit Table.FS osUTC
                          (displayFlags ["*.pdf"%string]) world0 _))).
  split; [reflexivity|]. split; [discriminate|]. repeat split; reflexivity.
Defined.

Lemma expandGlobs_literal_fallback_witness :
  fst (expandGlobs ["[x].txt"%string] world0) = Normal ["[x].txt"%string].
Proof.
  refine (proj1 (proj2 (@expandGlobs_literal_fallback Table.FS osUTC
                          "[x].txt" world0 _)) _); reflexivity.
Defined.

(** C2 (counterexample).  In the eastern United States the reading
    2021-03-14 02:30:00 was skipped by the start of daylight saving time;
    the text is well formed and its components are valid, and the instant
    [createDate] returns reads 01:30:00 on the local wall clock. *)
Lemma parse_keeps_components_fails : ~ AsStated.parse_keeps_components.
Proof.
  intros H.
  destruct (H Table.FS osNewYork "20210314.023000"%string eq_refl eq_refl)
    as (t & Ht & _ & _ & _ & Hhour & _).
  vm_compute in Ht. injection Ht as <-. vm_compute in Hhour. discriminate Hhour.
Qed.

(** No instant shows the reading of the counterexample on the wall clock
    of New York: the clocks went from 02:00 to 03:00 that night. *)
Lemma newYork_skipped_reading : ~ shown newYork (readingOf "20210314.023000").
Proof.
  intros [u Hu]. change (readingOf "20210314.023000") with 1615689000 in Hu.
  unfold offsetAt, lookup in Hu. cbn [tx zone0 newYork lookupFrom] in Hu.
  destruct (Z.ltb_spec u 1615705200); [cbn [fst] in Hu; lia|].
  destruct (Z.ltb_spec u 1636264800); cbn [fst] in Hu; lia.
Qed.

Lemma createDate_components_witness :
  exists t,
    @createDate Table.FS osNewYork "20210329.143025" = Parsed t /\
    Hour t = 14 /\ Minute t = 30.
Proof.
  destruct (@createDate_components Table.FS osNewYork "20210329.143025"
              eq_refl eq_refl) as (t & Ht & _ & Hkept & _ & Hregular).
  exists t. split; [exact Ht|]. split.
  - destruct (Hkept eq_refl) as (_ & _ & _ & Hh & _). exact Hh.
  - assert (Hreg : regularLocation newYork) by (vm_compute; intuition discriminate).
    assert (Hshown : shown newYork (readingOf "20210329.143025")).
    { exists 1617042625. reflexivity. }
    destruct (Hregular Hreg Hshown) as (_ & _ & _ & _ & Hi & _). exact Hi.
Defined.

(** C3 (counterexample).  A fractional second after the seconds makes the
    text violate the fixed structure, and [createDate] parses it. *)
Lemma parse_rejects_all_malformed_fails : ~ AsStated.parse_rejects_all_malformed.
Proof.
  intros H.
  destruct (H Table.FS osUTC "20210329.143025.5"%string (or_introl eq_refl))
    as (e & He).
  vm_compute in He. discriminate He.
Qed.

Lemma createDate_rejects_witness :
  exists e, @createDate Table.FS osUTC "20211329.143025" = Failed e.
Proof.
  exact (proj1 (@createDate_rejects Table.FS osUTC "20211329.143025") eq_refl).
Defined.

(** ** The further properties on the file tables *)

Lemma expandGlobs_malformed_pattern_witness :
  expandGlobs ["["%string] Cases.world
  = (Normal [], mkWorld Cases.table [LogGlobError "["]).
Proof.
  exact (proj1 (@expandGlobs_malformed_pattern Table.FS osUTC "[" [] []
                  Cases.world eq_refl)).
Defined.

Lemma expandGlobs_matches_verbatim_witness :
  expandGlobs ["link"%string] world0 = (Normal ["link"%string], world0).
Proof.
  exact (proj1 (@expandGlobs_matches_verbatim Table.FS osUTC "link" "link" []
                  world0 eq_refl)).
Defined.

Lemma FormatWithCommas_length_witness :
  exists s : string,
    FormatWithCommas (mkInt64 (-1234567) I) = Ok s /\ String.length s = 10%nat.
Proof.
  apply (FormatWithCommas_length (mkInt64 (-1234567) I) 7).
  - lia.
  - right. vm_compute. discriminate.
  - reflexivity.
Defined.

Lemma FormatWithCommas_negative_witness :
  exists s : string,
    FormatWithCommas (mkInt64 1234567 I) = Ok s /\
    FormatWithCommas (mkInt64 (-1234567) I) = Ok (String "-" s).
Proof.
  apply (FormatWithCommas_negative (mkInt64 (-1234567) I) (mkInt64 1234567 I));
    reflexivity.
Defined.

Lemma showFileTimes_unreadable_times_witness :
  exists logs : list Event,
    showFileTimes ["odd"%string] world0
    = (Normal 1,
       mkWorld table
         (logs ++ [OutName "odd"; OutSize "5"; LogGetFileTimesError "odd";
                   OutMtime zeroTime; OutAtime zeroTime; OutBlank])).
Proof.
  destruct (@showFileTimes_unreadable_times Table.FS osUTC "odd"
              (mkFileInfo (mkInt64 5 I)) world0 eq_refl eq_refl eq_refl)
    as (size & logs & Hsize & _ & Hrun).
  exists logs. injection Hsize as <-. exact Hrun.
Defined.

Lemma setFileTime_one_call_per_target_witness :
  exists (evs : list Event) (t' : Table.FS),
    setFileTime ["a.txt"%string; "*.pdf"%string; "link"%string; "odd"%string]
                "20210329.143025" OpBoth world0
    = (Normal tt, mkWorld t' evs) /\
    chtimesFiles evs = ["a.txt"%string; "link"%string; "odd"%string].
Proof.
  destruct (@setFileTime_one_call_per_target Table.FS osUTC
              ["a.txt"%string; "*.pdf"%string; "link"%string; "odd"%string]
              "20210329.143025" OpBoth tNew world0
              (or_intror (or_intror eq_refl)) eq_refl)
    as (r & evs & t' & Hr & Hrun & Hcalls).
  exists evs, t'. split; [exact Hrun|].
  injection Hr as <-. exact Hcalls.
Defined.

Lemma setFileTime_all_refused_witness :
  exists evs : list Event,
    setFileTime ["link"%string] "20210329.143025" OpModify world0
    = (Normal tt, mkWorld table evs) /\
    stdoutOf evs = [].
Proof.
  destruct (@setFileTime_all_refused Table.FS osUTC ["link"%string]
              "20210329.143025" OpModify tNew world0
              (or_intror (or_introl eq_refl)) eq_refl)
    as (r & evs & _ & Hrun & Hout & _).
  - intros r file a m [= <-] Hf. apply list_elem_of_singleton in Hf as ->.
    reflexivity.
  - exists evs. split; [exact Hrun|exact Hout].
Defined.

Lemma setFileTime_invalid_op_witness :
  exists rd : list Event,
    setFileTime ["a.txt"%string] "20210329.143025" "x" world0
    = (Exit 1, mkWorld table (rd ++ [FatalInvalidOp "x"])).
Proof.
  destruct (@setFileTime_invalid_op Table.FS osUTC ["a.txt"%string]
              "20210329.143025" "x" tNew world0)
    as (r & logs & Hr & Hrun).
  - intros [H | [H | H]]; discriminate H.
  - reflexivity.
  - vm_compute in Hr. injection Hr as <- <-.
    destruct Hrun as (rd & Hrun & _). exists rd. exact Hrun.
Defined.


Lemma setFileTime_confirmation_witness :
  exists w' : World Table.FS,
    setFileTimeBody tNew OpBoth "[x].txt" Cases.world = (Normal tt, w') /\
    namesOf (trace w') = ["x.txt"%string].
Proof.
  pose proof (@setFileTime_confirmation Table.FS osUTC tNew OpBoth "[x].txt"
                Cases.world (or_intror (or_intror eq_refl))) as H.
  cbv zeta in H. destruct H as (w' & Hrun & _).
  exists w'. split; [exact Hrun|].
  vm_compute in Hrun. injection Hrun as <-. reflexivity.
Defined.

Lemma main_exclusive_flags_witness :
  main (Cases.bothFlags "20210329.143025" "20210329.143025" ["a.txt"%string])
       world0
  = (Exit 1, mkWorld table [FatalExclusive]).
Proof.
  apply (@main_exclusive_flags Table.FS osUTC
           (Cases.bothFlags "20210329.143025" "20210329.143025" ["a.txt"%string])
           world0); [reflexivity|discriminate|reflexivity].
Defined.

Lemma main_mutate_exit_zero_witness :
  exists w' : World Table.FS,
    main (Cases.modifyFlags "20210329.143025" ["*.pdf"%string]) world0
    = (Exit 0, w').
Proof.
  destruct (@main_mutate_exit_zero Table.FS osUTC
              (Cases.modifyFlags "20210329.143025" ["*.pdf"%string]) tNew world0)
    as (w' & _ & Hmain & _); try reflexivity; [discriminate|].
  exists w'. exact Hmain.
Defined.

Lemma main_without_flags_reads_only_witness :
  exists evs : list Event,
    snd (main (displayFlags ["a.txt"%string]) world0) = mkWorld table evs /\
    chtimesFiles evs = [].
Proof.
  exact (@main_without_flags_reads_only Table.FS osUTC
           (displayFlags ["a.txt"%string]) world0 eq_refl).
Defined.

Lemma createDate_fixed_offset_witness :
  @createDate Table.FS osUTC "20210329.143025" = Parsed tNew.
Proof.
  exact (@createDate_fixed_offset Table.FS osUTC "20210329.143025"
           eq_refl eq_refl eq_refl).
Defined.

Lemma createDate_injective_witness :
  "20210329.143025"%string = "20210329.143025"%string.
Proof.
  exact (@createDate_injective Table.FS osUTC "20210329.143025"
           "20210329.143025" tNew eq_refl eq_refl eq_refl eq_refl eq_refl).
Defined.

Lemma FormatWithCommas_injective_witness :
  int64_val (mkInt64 1000 I) = int64_val (mkInt64 1000 I).
Proof.
  exact (FormatWithCommas_injective (mkInt64 1000 I) (mkInt64 1000 I) eq_refl).
Defined.

Lemma createDate_same_as_v1_witness :
  @V1.createDate Table.FS osNewYork "20210329.143025"
  = V1.Value (mkTime 1617042625 0 newYork)
  /\ @createDate Table.FS osNewYork "20210329.143025"
     = Parsed (mkTime 1617042625 0 newYork).
Proof.
  destruct (@createDate_same_as_v1 Table.FS osNewYork "20210329.143025"
              eq_refl eq_refl) as (t & H1 & H2).
  assert (Ht : t = mkTime 1617042625 0 newYork).
  { vm_compute in H2. by injection H2. }
  subst t. split; [exact H1|exact H2].
Defined.

Lemma v1_createDate_carries_witness :
  exists t : Time,
    @V1.createDate Table.FS osUTC "20211329.143025" = V1.Value t /\
    Year t = 2022 /\ Month t = 1 /\ Day t = 29.
Proof.
  destruct (@v1_createDate_carries Table.FS osUTC "20211329.143025"
              eq_refl eq_refl) as (H1 & _).
  eexists. split; [exact H1|]. split; [|split]; reflexivity.
Defined.

Lemma expandGlobs_only_logs_witness :
  exists r : list string,
    expandGlobs ["a.txt"%string; "*.pdf"%string] world0 = (Normal r, world0).
Proof.
  destruct (@expandGlobs_only_logs Table.FS osUTC
              ["a.txt"%string; "*.pdf"%string] world0)
    as (r & logs & Hrun & _ & _ & _ & Hnone).
  rewrite Hnone in Hrun.
  - exists r. exact Hrun.
  - intros p Hp.
    apply elem_of_cons in Hp as [-> | Hp]; [discriminate|].
    apply list_elem_of_singleton in Hp as ->. discriminate.
Defined.

Lemma FormatWithCommas_comma_from_1000_witness :
  FormatWithCommas (mkInt64 (-999) I) = Ok "-999"%string.
Proof.
  destruct (FormatWithCommas_comma_from_1000 (mkInt64 (-999) I))
    as (s & Hs & Hsmall & _).
  rewrite Hs. f_equal. apply Hsmall. cbn. lia.
Defined.
